(** * Smart door camera: a shallow embedding of the detection-alert pipeline

    The Python sources embedded here are [config.py],
    [smart_door_camera/notification.py], [smart_door_camera/utils.py],
    [face_recognition.py] and [main.py].

    Conventions of the embedding.
    - Timestamps ([datetime.now().timestamp()], [st_mtime]) are integers
      counting microseconds since the epoch, the resolution of
      [datetime.now()]; intervals given in seconds or days in the source are
      converted with [seconds] and [timedelta_days].
    - Python floats that are only compared or formatted (confidences,
      tolerances, distances) are rationals; NaN is outside the model.
    - Everything the program asks of its surroundings (the clock, the Bot
      API, the camera, the detector, the face library, the disk) is answered
      by an [Env] of oracles; what the program changes is a [State].
    - Python exceptions are values: a computation ends with [Ok] or
      [Raise]; [Diverge] stands for a camera loop still running when the
      fuel given to it is spent. *)

From Stdlib Require Import QArith Ascii String.
From stdpp Require Import gmap strings pretty list fin_maps.

Local Open Scope string_scope.
Local Open Scope Z_scope.

(** ** config.py *)

Module Config.

Record t := {
  TELEGRAM_BOT_TOKEN : string;
  TELEGRAM_USER_ID : string;
  TELEGRAM_CHANNEL_ID : string;
  CONFIDENCE_THRESHOLD : Q;
  DETECTION_MODEL : string;
  ENABLE_FACE_RECOGNITION : bool;
  FACE_RECOGNITION_THRESHOLD : Q;
  KNOWN_FACES_DIR : string;
  CAMERA_INDEX : Z;
  CAMERA_RESOLUTION : Z * Z;
  CAMERA_FPS : Z;
  DETECTIONS_DIR : string;
  LOG_FILE : string;
  MIN_DETECTION_INTERVAL : Z;
  SEND_IMAGE_WITH_ALERT : bool;
  ALERT_RETENTION_DAYS : Z;
  MAX_DETECTIONS_PER_HOUR : Z;
  DEBUG_MODE : bool;
  DISPLAY_FRAMES : bool;
  LOG_TO_FILE : bool;
  CLEANUP_OLD_IMAGES : bool;
  SEND_STARTUP_NOTIFICATION : bool;
  SEND_ERROR_NOTIFICATIONS : bool
}.

(** [Path.__truediv__] on the string form of a path. *)
Definition path_join (dir name : string) : string := dir ++ "/" ++ name.

(** The values written in config.py. [LOG_FILE] is built from the relative
    [DETECTIONS_DIR] (line 38), before [DETECTIONS_DIR] and
    [KNOWN_FACES_DIR] are re-rooted at [PROJECT_ROOT] (lines 64-66). *)
Definition config (PROJECT_ROOT : string) : t := {|
  TELEGRAM_BOT_TOKEN := "8263669951:AAH7Zdpm_0YX_rsNGTbF5v801_9VbqITe3M";
  TELEGRAM_USER_ID := "1042611352";
  TELEGRAM_CHANNEL_ID := "@rpi5doorcam";
  CONFIDENCE_THRESHOLD := 5 # 10;
  DETECTION_MODEL := "yolov8n.pt";
  ENABLE_FACE_RECOGNITION := true;
  FACE_RECOGNITION_THRESHOLD := 6 # 10;
  KNOWN_FACES_DIR := path_join PROJECT_ROOT "known_faces";
  CAMERA_INDEX := 0;
  CAMERA_RESOLUTION := (1280, 720);
  CAMERA_FPS := 15;
  DETECTIONS_DIR := path_join PROJECT_ROOT "detections";
  LOG_FILE := path_join "detections" "detection_log.csv";
  MIN_DETECTION_INTERVAL := 2;
  SEND_IMAGE_WITH_ALERT := true;
  ALERT_RETENTION_DAYS := 7;
  MAX_DETECTIONS_PER_HOUR := 60;
  DEBUG_MODE := true;
  DISPLAY_FRAMES := false;
  LOG_TO_FILE := true;
  CLEANUP_OLD_IMAGES := true;
  SEND_STARTUP_NOTIFICATION := true;
  SEND_ERROR_NOTIFICATIONS := true
|}.

End Config.

Export Config.

(** ** Time *)

Definition seconds (n : Z) : Z := n * 1000000.
Definition timedelta_days (days : Z) : Z := seconds (days * 86400).

(** ** Exceptions *)

(** The subclasses of [Exception] the program can meet. *)
Inductive ExceptionKind :=
  | TelegramError
  | ImportError
  | RuntimeError (msg : string)
  | OSError
  | ValueError
  | ZeroDivisionError
  | OtherError.

(** [KeyboardInterrupt] and [SystemExit] derive from [BaseException] only:
    an [except Exception] clause lets them through. *)
Inductive Exn :=
  | Exception (k : ExceptionKind)
  | KeyboardInterrupt
  | SystemExit (code : Z).

(** How a call ends: it returns, it raises, or it is still running when
    the observation stops (a camera loop that nobody interrupts). *)
Inductive Result (A : Type) :=
  | Ok (a : A)
  | Raise (e : Exn)
  | Diverge.
Arguments Ok {A} a.
Arguments Raise {A} e.
Arguments Diverge {A}.

(** ** Data handled by the pipeline *)

(** A frame delivered by the camera: [shape[0]] rows, [shape[1]] columns;
    [frame_id] stands for the pixels. *)
Record Frame := {
  frame_id : nat;
  rows : Z;
  cols : Z
}.

(** An image derived from a frame: a crop [frame[y0:y1, x0:x1]] or the frame
    copy with the two overlay texts of [_save_detection_image]. *)
Inductive Image :=
  | Crop (frame : Frame) (y0 y1 x0 x1 : Z)
  | Annotated (frame : Frame) (text stamp : string).

(** One box of a YOLO result, after [int(box.cls[0])], [float(box.conf[0])]
    and [map(int, box.xyxy[0])]. *)
Record Box := {
  cls : Z;
  conf : Q;
  xyxy : Z * Z * Z * Z
}.

(** The text of a Telegram message (the f-strings of notification.py, field
    by field). *)
Inductive Text :=
  | DetectionText (emoji alert_level person_type : string) (confidence : Q)
                  (person_name time : string)
  | StartupText (started face_recognition : string)
  | ErrorText (error_msg time : string).

(** A call to the Bot API; [parse_mode] is always Markdown. *)
Inductive BotRequest :=
  | send_message (chat_id : string) (text : Text)
  | send_photo (chat_id : string) (photo : string) (caption : Text).

(** What a file holds: text written by [csv.DictWriter], one record per row,
    or image data written by [cv2.imwrite]. *)
Inductive Chunk :=
  | CsvRow (fields : list string)
  | Jpeg (img : Image).

Record File := {
  st_mtime : Z;
  can_read : bool;      (* open(..., 'rb') succeeds *)
  can_append : bool;    (* open(..., 'a') succeeds *)
  can_unlink : bool;    (* unlink() succeeds *)
  content : list Chunk
}.

Inductive Level := DEBUG | INFO | WARNING | ERROR.

(** A 128-dimensional face encoding, as a one-dimensional array. *)
Definition Encoding := list Q.

(** The [face_recognition] library, when it imports. *)
Record FaceLibrary := {
  face_locations : Image -> Result (list (Z * Z * Z * Z));
  face_encodings : Image -> list (Z * Z * Z * Z) -> Result (list Encoding)
}.

Inductive ImwriteResult := Wrote | Refused | Crashed.

(** The attributes of a [FaceRecognizer]. [known_faces] is a dict: its
    items are kept in insertion order, one per key. *)
Record FaceRecognizer := {
  known_faces_dir : string;
  known_faces : list (string * Encoding);
  face_recognition : option FaceLibrary
}.

(** The attributes of a [SmartDoorCamera]. [model] is set once the detector
    is loaded; [cap] holds the index of the device behind the capture
    object, opened or not. *)
Record SmartDoorCamera := {
  running : bool;
  model : option string;
  face_recognizer : option FaceRecognizer;
  cap : option Z
}.

(** One turn of the camera loop, as the surroundings decide it: the outcome
    of [cap.read()], or a signal delivered while the loop waits for it
    ([signal_handler] calls [sys.exit(0)]). *)
Inductive ReadEvent :=
  | Grabbed (frame : Frame)
  | NotGrabbed
  | ReadRaises (k : ExceptionKind)
  | Signalled.

(** ** The surroundings *)

Record Env := {
  (* the n-th reading of the clock *)
  clock : nat -> Z;
  (* datetime.strftime and datetime.isoformat *)
  strftime : Z -> string -> string;
  isoformat : Z -> string;
  (* the n-th request to the Bot API: delivered, or the exception it raises *)
  telegram : nat -> option ExceptionKind;
  (* whether a file can be created at a path *)
  can_create : string -> bool;
  (* cv2.imwrite at a path *)
  imwrite : string -> ImwriteResult;
  (* from face_recognition import FaceRecognizer, in main.py *)
  FACE_RECOGNITION_AVAILABLE : bool;
  (* import face_recognition, in FaceRecognizer._load_library *)
  face_recognition_library : option FaceLibrary;
  (* the *.npy files of KNOWN_FACES_DIR in glob order: stem and np.load *)
  known_face_files : list (string * option Encoding);
  (* np.linalg.norm on a one-dimensional array *)
  np_linalg_norm : list Q -> Q;
  (* YOLO(config.DETECTION_MODEL) *)
  yolo_loads : bool;
  (* self.model(frame, conf=...): per result, its boxes (None when absent) *)
  yolo : Frame -> Q -> Result (list (option (list Box)));
  (* Path.exists() and mkdir(parents=True, exist_ok=True) on a directory *)
  dir_exists : string -> bool;
  can_mkdir : string -> bool;
  (* cv2.VideoCapture(index).isOpened() *)
  camera_opens : Z -> bool;
  (* the n-th cap.read() *)
  camera_read : nat -> ReadEvent;
  (* the n-th cv2.waitKey(1) *)
  wait_key : nat -> Z
}.

(** ** What the program changes *)

Record State := {
  ticks : nat;                                       (* clock readings so far *)
  requests : list (BotRequest * option ExceptionKind); (* Bot API calls, oldest first *)
  fs : gmap string File;                             (* the disk, by path *)
  logs : list (Level * string);                      (* log records, oldest first *)
  reads : nat;                                       (* cap.read() calls so far *)
  keys : nat;                                        (* cv2.waitKey calls so far *)
  released : nat;                                    (* cap.release() calls so far *)
  camera : option SmartDoorCamera                    (* the object main() holds *)
}.

Definition set_ticks (n : nat) (st : State) : State :=
  {| ticks := n; requests := requests st; fs := fs st; logs := logs st;
     reads := reads st; keys := keys st; released := released st;
     camera := camera st |}.
Definition set_requests (r : list (BotRequest * option ExceptionKind)) (st : State) : State :=
  {| ticks := ticks st; requests := r; fs := fs st; logs := logs st;
     reads := reads st; keys := keys st; released := released st;
     camera := camera st |}.
Definition set_fs (m : gmap string File) (st : State) : State :=
  {| ticks := ticks st; requests := requests st; fs := m; logs := logs st;
     reads := reads st; keys := keys st; released := released st;
     camera := camera st |}.
Definition set_logs (l : list (Level * string)) (st : State) : State :=
  {| ticks := ticks st; requests := requests st; fs := fs st; logs := l;
     reads := reads st; keys := keys st; released := released st;
     camera := camera st |}.
Definition set_reads (n : nat) (st : State) : State :=
  {| ticks := ticks st; requests := requests st; fs := fs st; logs := logs st;
     reads := n; keys := keys st; released := released st;
     camera := camera st |}.
Definition set_keys (n : nat) (st : State) : State :=
  {| ticks := ticks st; requests := requests st; fs := fs st; logs := logs st;
     reads := reads st; keys := n; released := released st;
     camera := camera st |}.
Definition set_released (n : nat) (st : State) : State :=
  {| ticks := ticks st; requests := requests st; fs := fs st; logs := logs st;
     reads := reads st; keys := keys st; released := n;
     camera := camera st |}.
Definition set_camera (c : option SmartDoorCamera) (st : State) : State :=
  {| ticks := ticks st; requests := requests st; fs := fs st; logs := logs st;
     reads := reads st; keys := keys st; released := released st;
     camera := c |}.

Definition initial_state (disk : gmap string File) : State :=
  {| ticks := 0; requests := []; fs := disk; logs := [];
     reads := 0; keys := 0; released := 0; camera := None |}.

(** ** The monad of effectful Python code *)

Definition M (A : Type) : Type := Env -> State -> Result A * State.

Definition ret {A} (a : A) : M A := fun _ st => (Ok a, st).

Definition bind {A B} (c : M A) (k : A -> M B) : M B := fun env st =>
  match c env st with
  | (Ok a, st') => k a env st'
  | (Raise e, st') => (Raise e, st')
  | (Diverge, st') => (Diverge, st')
  end.

Notation "x <- c ;; k" := (bind c (fun x => k))
  (at level 100, c at next level, right associativity).
Notation "c ;; k" := (bind c (fun _ => k))
  (at level 100, right associativity).

Definition raise {A} (e : Exn) : M A := fun _ st => (Raise e, st).

Definition diverge {A} : M A := fun _ st => (Diverge, st).

(** [try: body / except ...]: [handler e] is the clause that matches [e],
    if one does. *)
Definition try_catch {A} (body : M A) (handler : Exn -> option (M A)) : M A :=
  fun env st =>
    match body env st with
    | (Raise e, st') =>
        match handler e with
        | Some h => h env st'
        | None => (Raise e, st')
        end
    | r => r
    end.

(** [try: body / except Exception as e: handler e]. *)
Definition try_except {A} (body : M A) (handler : ExceptionKind -> M A) : M A :=
  try_catch body (fun e => match e with Exception k => Some (handler k) | _ => None end).

(** [try: body / except: handler] (a bare clause catches everything). *)
Definition try_except_all {A} (body : M A) (handler : M A) : M A :=
  try_catch body (fun _ => Some handler).

(** [try: body / finally: final]. *)
Definition try_finally {A} (body : M A) (final : M unit) : M A :=
  fun env st =>
    match body env st with
    | (Diverge, st') => (Diverge, st')
    | (r, st') =>
        match final env st' with
        | (Ok _, st'') => (r, st'')
        | (Raise e, st'') => (Raise e, st'')
        | (Diverge, st'') => (Diverge, st'')
        end
    end.

(** The answer of a library call, brought into the program. *)
Definition lift {A} (r : Result A) : M A := fun _ st => (r, st).

Definition when (b : bool) (c : M unit) : M unit := if b then c else ret tt.

Definition ask : M Env := fun env st => (Ok env, st).
Definition get : M State := fun _ st => (Ok st, st).
Definition modify (f : State -> State) : M unit := fun _ st => (Ok tt, f st).

(** [datetime.now().timestamp()] (also [time.time()]): the next reading. *)
Definition now : M Z := fun env st =>
  (Ok (clock env (ticks st)), set_ticks (S (ticks st)) st).

(** The time the operating system stamps on a file it writes. *)
Definition os_time (env : Env) (st : State) : Z := clock env (ticks st).

Definition log (lvl : Level) (msg : string) : M unit :=
  modify (fun st => set_logs (logs st ++ [(lvl, msg)]) st).

(** One call to the Bot API, recorded with its outcome. *)
Definition bot (r : BotRequest) : M unit := fun env st =>
  let outcome := telegram env (length (requests st)) in
  let st' := set_requests (requests st ++ [(r, outcome)]) st in
  match outcome with
  | None => (Ok tt, st')
  | Some k => (Raise (Exception k), st')
  end.

(** Truthiness of a Python string. *)
Definition truthy (s : string) : bool :=
  match s with EmptyString => false | _ => true end.

Definition str_eqb (a b : string) : bool := bool_decide (a = b).

(** ** smart_door_camera/notification.py *)

Module Notification.

(** The attributes of a [TelegramNotifier]; [self.bot] holds no state of
    its own and is the [bot] operation. *)
Record TelegramNotifier := {
  user_id : string;
  channel_id : string;
  last_alert_time : gmap string Z;   (* Track last alert per person *)
  alerts_today : gmap string Z       (* Track alerts per hour *)
}.

Definition set_last_alert_time (m : gmap string Z) (self : TelegramNotifier)
  : TelegramNotifier :=
  {| user_id := user_id self; channel_id := channel_id self;
     last_alert_time := m; alerts_today := alerts_today self |}.

(** [image_path and config.SEND_IMAGE_WITH_ALERT]: [None] and the empty
    string are falsy. *)
Definition attach (flag : bool) (image_path : option string) : option string :=
  match image_path with
  | Some p => if truthy p && flag then Some p else None
  | None => None
  end.

Section WithConfig.

Variable config : Config.t.

Definition __init__ : TelegramNotifier :=
  {| user_id := TELEGRAM_USER_ID config;
     channel_id := TELEGRAM_CHANNEL_ID config;
     last_alert_time := ∅;
     alerts_today := ∅ |}.

Definition _check_rate_limit (self : TelegramNotifier) (person_name : string)
  : M bool :=
  current_time <- now;;
  let last_time := default 0 (last_alert_time self !! person_name) in
  ret (current_time - last_time >=? seconds (MIN_DETECTION_INTERVAL config)).

Definition _update_rate_limit (self : TelegramNotifier) (person_name : string)
  : M TelegramNotifier :=
  t <- now;;
  ret (set_last_alert_time (<[person_name := t]> (last_alert_time self)) self).

Definition _send_photo_with_caption
    (chat_id photo_path : string) (caption : Text) (person_type : string)
  : M unit :=
  try_except
    (st <- get;;
     match fs st !! photo_path with
     | None => log WARNING ("Photo not found: " ++ photo_path)
     | Some photo_file =>
         if can_read photo_file
         then bot (send_photo chat_id photo_path caption)
         else raise (Exception OSError)
     end)
    (fun e =>
       log ERROR "Error sending photo";;
       (* Fallback to text-only message *)
       try_except
         (bot (send_message chat_id caption))
         (fun e2 => log ERROR "Fallback message failed")).

Definition send_detection_alert
    (self : TelegramNotifier) (person_type : string) (confidence : Q)
    (image_path : option string) (person_name : string)
  : M TelegramNotifier :=
  (* Check alert rate limit *)
  allowed <- _check_rate_limit self person_name;;
  if negb allowed then
    when (DEBUG_MODE config) (log INFO ("Rate limited alert for " ++ person_name));;
    ret self
  else
    try_except
      ((* Create alert message *)
       let alert_level :=
         if str_eqb person_type "INTRUDER"
         then ":rotating_light: INTRUDER ALERT" else ":bust: Person Detected" in
       let emoji :=
         if str_eqb person_type "INTRUDER" then ":red_circle:" else ":green_circle:" in
       t <- now;;
       env <- ask;;
       let message :=
         DetectionText emoji alert_level person_type confidence person_name
                       (strftime env t "%Y-%m-%d %H:%M:%S") in
       (* Send to user *)
       match attach (SEND_IMAGE_WITH_ALERT config) image_path with
       | Some p => _send_photo_with_caption (user_id self) p message person_type
       | None => bot (send_message (user_id self) message)
       end;;
       (* Also send to channel if configured *)
       (if truthy (channel_id self) && negb (str_eqb (channel_id self) "@rpi5doorcam")
        then match attach (SEND_IMAGE_WITH_ALERT config) image_path with
             | Some p => _send_photo_with_caption (channel_id self) p message person_type
             | None => ret tt
             end
        else ret tt);;
       log INFO ("Alert sent: " ++ person_type ++ " - " ++ person_name);;
       _update_rate_limit self person_name)
      (fun e =>
         match e with
         | TelegramError => log ERROR "Telegram error"
         | _ => log ERROR "Error sending notification"
         end;;
         ret self).

Definition send_startup_notification (self : TelegramNotifier) : M unit :=
  if negb (SEND_STARTUP_NOTIFICATION config) then ret tt
  else
    try_except
      (t <- now;;
       env <- ask;;
       let message :=
         StartupText (strftime env t "%Y-%m-%d %H:%M:%S")
                     (if ENABLE_FACE_RECOGNITION config then "Enabled" else "Disabled") in
       bot (send_message (user_id self) message);;
       log INFO "Startup notification sent")
      (fun e => log ERROR "Error sending startup notification").

Definition send_error_notification (self : TelegramNotifier) (error_msg : string)
  : M unit :=
  if negb (SEND_ERROR_NOTIFICATIONS config) then ret tt
  else
    try_except
      (t <- now;;
       env <- ask;;
       let message := ErrorText error_msg (strftime env t "%Y-%m-%d %H:%M:%S") in
       bot (send_message (user_id self) message);;
       log ERROR ("Error notification sent: " ++ error_msg))
      (fun e => log ERROR "Error sending error notification").

(** Synchronous wrappers for easy integration with main.py: each one
    builds its own notifier, runs the coroutine and returns [None]. *)
Definition send_detection_sync
    (person_type : string) (confidence : Q)
    (image_path : option string) (person_name : string) : M unit :=
  let notifier := __init__ in
  _ <- send_detection_alert notifier person_type confidence image_path person_name;;
  ret tt.

Definition send_startup_sync : M unit :=
  let notifier := __init__ in
  send_startup_notification notifier.

Definition send_error_sync (error_msg : string) : M unit :=
  let notifier := __init__ in
  send_error_notification notifier error_msg.

End WithConfig.

End Notification.

(** ** Strings, paths and number formats *)

(** [s.endswith(suffix)]. *)
Definition ends_with (suffix s : string) : bool :=
  str_eqb (String.substring (String.length s - String.length suffix)
                            (String.length suffix) s) suffix
  && (String.length suffix <=? String.length s)%nat.

Fixpoint contains_slash (s : string) : bool :=
  match s with
  | EmptyString => false
  | String c rest => bool_decide (c = "/"%char) || contains_slash rest
  end.

(** The name of [path] inside the directory [dir], when [path] is one of its
    direct children. *)
Definition child_name (dir path : string) : option string :=
  let d := dir ++ "/" in
  if String.prefix d path then
    let name := String.substring (String.length d)
                                 (String.length path - String.length d) path in
    if truthy name && negb (contains_slash name) then Some name else None
  else None.

(** Whether [Path(dir).glob(pattern)] yields [path], for a pattern without
    a directory part: the direct children of [dir] whose name matches. *)
Definition glob_match (dir : string) (pattern : string -> bool) (path : string)
  : bool :=
  match child_name dir path with
  | Some name => pattern name
  | None => false
  end.

(** [Path(dir).glob(pattern)], in directory order. *)
Definition glob (dir : string) (pattern : string -> bool) (disk : gmap string File)
  : list (string * File) :=
  List.filter (fun entry => glob_match dir pattern (fst entry)) (map_to_list disk).

(** [round(x)] to the nearest integer, ties to even. *)
Definition round_half_even (x : Q) : Z :=
  let n := Qnum x in
  let d := Zpos (Qden x) in
  let fl := n / d in
  match 2 * (n mod d) ?= d with
  | Lt => fl
  | Gt => fl + 1
  | Eq => if Z.even fl then fl else fl + 1
  end.

Definition digits (n : Z) : string := pretty n.

Definition zero_pad (width : nat) (s : string) : string :=
  String.concat "" (replicate (width - String.length s) "0") ++ s.

(** [f"{x:.3f}"] for [x >= 0]. *)
Definition format_3f (x : Q) : string :=
  let m := round_half_even (x * 1000) in
  digits (m / 1000) ++ "." ++ zero_pad 3 (digits (m mod 1000)).

(** [f"{x:.0%}"] for [x >= 0]. *)
Definition format_0pct (x : Q) : string :=
  digits (round_half_even (x * 100)) ++ "%".

(** [s[:-n]]. *)
Definition drop_last (n : nat) (s : string) : string :=
  String.substring 0 (String.length s - n) s.

(** ** smart_door_camera/utils.py *)

Module Utils.

(** [fnmatch(name, "detection_*.jpg")]. *)
Definition detection_jpg (name : string) : bool :=
  String.prefix "detection_" name && ends_with ".jpg" name
  && (14 <=? String.length name)%nat.

(** [path.stat()]. *)
Definition stat (path : string) : M File :=
  st <- get;;
  match fs st !! path with
  | Some f => ret f
  | None => raise (Exception OSError)
  end.

(** [path.unlink()]. *)
Definition unlink (path : string) : M unit :=
  f <- stat path;;
  if can_unlink f
  then modify (fun st => set_fs (delete path (fs st)) st)
  else raise (Exception OSError).

(** [open(path, 'a', newline='')]: the file is created when missing. *)
Definition open_append (path : string) : M unit := fun env st =>
  match fs st !! path with
  | Some f =>
      if can_append f then (Ok tt, st) else (Raise (Exception OSError), st)
  | None =>
      if can_create env path
      then (Ok tt,
            set_fs (<[path := {| st_mtime := os_time env st; can_read := true;
                                 can_append := true; can_unlink := true;
                                 content := [] |}]> (fs st)) st)
      else (Raise (Exception OSError), st)
  end.

(** One row written through an open file. *)
Definition write (path : string) (c : Chunk) : M unit := fun env st =>
  match fs st !! path with
  | Some f =>
      (Ok tt,
       set_fs (<[path := {| st_mtime := os_time env st; can_read := can_read f;
                            can_append := can_append f; can_unlink := can_unlink f;
                            content := content f ++ [c] |}]> (fs st)) st)
  | None => (Raise (Exception OSError), st)
  end.

Section WithConfig.

Variable config : Config.t.

(** The loop of [cleanup_old_images] over the files the glob yields. *)
Fixpoint cleanup_loop (cutoff_timestamp : Z) (files : list (string * File))
                      (deleted_count : Z) : M Z :=
  match files with
  | [] => ret deleted_count
  | (image_file, _) :: rest =>
      meta <- stat image_file;;
      if st_mtime meta <? cutoff_timestamp then
        unlink image_file;;
        cleanup_loop cutoff_timestamp rest (deleted_count + 1)
      else cleanup_loop cutoff_timestamp rest deleted_count
  end.

Definition cleanup_old_images (days : Z) : M unit :=
  if negb (CLEANUP_OLD_IMAGES config) then ret tt
  else
    t <- now;;
    let cutoff_date := t - timedelta_days days in
    try_except
      (st <- get;;
       deleted_count <-
         cleanup_loop cutoff_date
                      (glob (DETECTIONS_DIR config) detection_jpg (fs st)) 0;;
       when (0 <? deleted_count) (log INFO "Cleaned up old detection images"))
      (fun e => log ERROR "Error cleaning up images").

Definition save_detection_csv
    (timestamp person_type person_name : string) (confidence : Q)
    (camera : string) : M unit :=
  try_except
    (let log_entry :=
       [("timestamp", timestamp);
        ("person_type", person_type);
        ("person_name", person_name);
        ("confidence", format_3f confidence);
        ("camera", camera)] in
     st <- get;;
     let file_exists := bool_decide (is_Some (fs st !! LOG_FILE config)) in
     open_append (LOG_FILE config);;
     (* writer = csv.DictWriter(f, fieldnames=log_entry.keys()) *)
     when (negb file_exists)
          (write (LOG_FILE config) (CsvRow (map fst log_entry)));;
     write (LOG_FILE config) (CsvRow (map snd log_entry));;
     log DEBUG ("Detection logged: " ++ person_type ++ " - " ++ person_name))
    (fun e => log ERROR "Error logging detection").

(** The files [cleanup_old_images] is after: the detection images of
    [DETECTIONS_DIR] last modified before [cutoff_timestamp]. *)
Definition stale_image (cutoff_timestamp : Z) (path : string) (f : File) : bool :=
  glob_match (DETECTIONS_DIR config) detection_jpg path
  && (st_mtime f <? cutoff_timestamp).

Definition ensure_directory (dir : string) (errors : list string)
  : M (list string) :=
  env <- ask;;
  if dir_exists env dir then ret errors
  else if can_mkdir env dir
       then log INFO ("Created directory: " ++ dir);; ret errors
       else ret (errors ++ ["Cannot create " ++ dir]%string)%list.

Definition validate_config : M bool :=
  let errors : list string :=
    ((if str_eqb (TELEGRAM_BOT_TOKEN config) "YOUR_BOT_TOKEN_HERE"
      then ["TELEGRAM_BOT_TOKEN not configured"] else [])
     ++ (if str_eqb (TELEGRAM_USER_ID config) "YOUR_USER_ID_HERE"
         then ["TELEGRAM_USER_ID not configured"] else [])
     ++ (if negb (truthy (TELEGRAM_BOT_TOKEN config))
            || negb (truthy (TELEGRAM_USER_ID config))
         then ["Telegram credentials missing"] else []))%list in
  errors <- ensure_directory (DETECTIONS_DIR config) errors;;
  errors <- ensure_directory (KNOWN_FACES_DIR config) errors;;
  match errors with
  | [] => log INFO "Configuration valid";; ret true
  | _ => modify (fun st => set_logs (logs st ++ map (pair ERROR) errors) st);;
         ret false
  end.

End WithConfig.


(** The arguments of one call of [save_detection_csv]. *)
Record Detection := {
  timestamp : string;
  person_type : string;
  person_name : string;
  confidence : Q;
  camera : string
}.

Definition log_detection (config : Config.t) (d : Detection) : M unit :=
  save_detection_csv config (timestamp d) (person_type d) (person_name d)
                     (confidence d) (camera d).

(** The rows of the log, as they are expected on disk. *)
Definition header_row : Chunk :=
  CsvRow ["timestamp"; "person_type"; "person_name"; "confidence"; "camera"].

Definition data_row (d : Detection) : Chunk :=
  CsvRow [timestamp d; person_type d; person_name d;
          format_3f (confidence d); camera d].

(** The log can be written: it is there and can be appended to, or it is
    missing and can be created. *)
Definition log_writable (config : Config.t) (env : Env) (st : State) : bool :=
  match fs st !! LOG_FILE config with
  | Some f => can_append f
  | None => can_create env (LOG_FILE config)
  end.

End Utils.

(** ** Floats that may be infinite, and numpy arrays *)

Inductive Float :=
  | Finite (q : Q)
  | Infinity.                       (* float('inf') *)

Definition Qltb (x y : Q) : bool := negb (Qle_bool y x).

Definition float_ltb (a b : Float) : bool :=
  match a, b with
  | Finite x, Finite y => Qltb x y
  | Finite _, Infinity => true
  | Infinity, _ => false
  end.

(** [a - b] on one-dimensional arrays: element-wise, a one-element array is
    broadcast, other shapes do not match. *)
Definition np_subtract (a b : list Q) : Result (list Q) :=
  if (length a =? length b)%nat then Ok (zip_with Qminus a b)
  else match a, b with
       | [x], _ => Ok (map (fun y => x - y)%Q b)
       | _, [y] => Ok (map (fun x => x - y)%Q a)
       | _, _ => Raise (Exception ValueError)
       end.

(** [d[key] = v] on a dict kept as its list of items. *)
Fixpoint dict_set {V} (key : string) (v : V) (d : list (string * V))
  : list (string * V) :=
  match d with
  | [] => [(key, v)]
  | (k, w) :: rest =>
      if str_eqb k key then (k, v) :: rest else (k, w) :: dict_set key v rest
  end.

(** [for x in l: body x]. *)
Fixpoint for_each {A} (l : list A) (body : A -> M unit) : M unit :=
  match l with
  | [] => ret tt
  | x :: rest => body x;; for_each rest body
  end.

(** ** face_recognition.py *)

Module FaceRecognition.

Definition _load_library : M (option FaceLibrary) :=
  env <- ask;;
  match face_recognition_library env with
  | Some lib => log INFO "face_recognition library loaded";; ret (Some lib)
  | None =>
      log WARNING "face_recognition not installed";;
      log WARNING "   Install with: pip install face-recognition";;
      ret None
  end.

Fixpoint load_loop (encoding_files : list (string * option Encoding))
                   (known : list (string * Encoding))
  : M (list (string * Encoding)) :=
  match encoding_files with
  | [] => ret known
  | (person_name, loaded) :: rest =>
      match loaded with
      | Some encoding =>
          log INFO ("Loaded face: " ++ person_name);;
          load_loop rest (dict_set person_name encoding known)
      | None =>
          log ERROR ("Error loading " ++ person_name ++ ".npy");;
          load_loop rest known
      end
  end.

Definition _load_known_faces (self : FaceRecognizer) : M FaceRecognizer :=
  match face_recognition self with
  | None => log WARNING "Skipping face loading - library not available";; ret self
  | Some _ =>
      env <- ask;;
      let encoding_files := known_face_files env in
      match encoding_files with
      | [] => log WARNING ("No face encodings found in " ++ known_faces_dir self);;
              ret self
      | _ =>
          known <- load_loop encoding_files (known_faces self);;
          ret {| known_faces_dir := known_faces_dir self;
                 known_faces := known;
                 face_recognition := face_recognition self |}
      end
  end.

Definition __init__ (known_faces_dir : string) : M FaceRecognizer :=
  lib <- _load_library;;
  _load_known_faces {| known_faces_dir := known_faces_dir;
                       known_faces := [];
                       face_recognition := lib |}.

(** [np.linalg.norm(detected_encoding - known_encoding)] for two
    encodings of the same length. *)
Definition distance (env : Env) (detected_encoding known_encoding : Encoding) : Q :=
  np_linalg_norm env (zip_with Qminus detected_encoding known_encoding).

(** The loop of [recognize_face] over [self.known_faces.items()]. *)
Fixpoint compare_loop (detected_encoding : Encoding)
                      (items : list (string * Encoding))
                      (min_distance : Float) (matched_name : string)
  : M (Float * string) :=
  match items with
  | [] => ret (min_distance, matched_name)
  | (person_name, known_encoding) :: rest =>
      difference <- lift (np_subtract detected_encoding known_encoding);;
      env <- ask;;
      let distance := Finite (np_linalg_norm env difference) in
      log DEBUG ("Face match distance for " ++ person_name);;
      if float_ltb distance min_distance
      then compare_loop detected_encoding rest distance person_name
      else compare_loop detected_encoding rest min_distance matched_name
  end.

Definition recognize_face (self : FaceRecognizer) (image : Image) (tolerance : Q)
  : M string :=
  match face_recognition self, known_faces self with
  | None, _ | _, [] => ret "UNKNOWN"
  | Some lib, _ =>
      try_except
        ((* Convert BGR to RGB for face_recognition *)
         let rgb_image := image in
         (* Find faces in image *)
         locations <- lift (face_locations lib rgb_image);;
         match locations with
         | [] => log DEBUG "No faces detected in image";; ret "UNKNOWN"
         | _ =>
             (* Get encoding for first detected face *)
             encodings <- lift (face_encodings lib rgb_image locations);;
             match encodings with
             | [] => log DEBUG "Could not encode detected face";; ret "UNKNOWN"
             | detected_encoding :: _ =>
                 (* Compare with known faces *)
                 best <- compare_loop detected_encoding (known_faces self)
                                      Infinity "UNKNOWN";;
                 let '(min_distance, matched_name) := best in
                 (* Check if distance is within tolerance *)
                 if float_ltb min_distance (Finite tolerance)
                 then log INFO ("Face recognized: " ++ matched_name);;
                      ret matched_name
                 else log INFO "Face not recognized";;
                      ret "UNKNOWN"
             end
         end)
        (fun e => log ERROR "Face recognition error";; ret "UNKNOWN")
  end.

End FaceRecognition.

(** ** main.py *)

Module Main.

(** A slice bound [i] on an axis of length [n], as numpy reads it. *)
Definition slice_index (n i : Z) : Z :=
  if i <? 0 then Z.max 0 (i + n) else Z.min i n.

Definition slice_length (n start stop : Z) : Z :=
  Z.max 0 (slice_index n stop - slice_index n start).

(** [image.size] for a three-channel image. *)
Definition size (image : Image) : Z :=
  match image with
  | Crop frame y0 y1 x0 x1 =>
      slice_length (rows frame) y0 y1 * slice_length (cols frame) x0 x1 * 3
  | Annotated frame _ _ => rows frame * cols frame * 3
  end.

(** The object behind main()'s variable [camera]; a method call on [None]
    raises. *)
Definition this : M SmartDoorCamera :=
  st <- get;;
  match camera st with
  | Some self => ret self
  | None => raise (Exception OtherError)
  end.

Definition set_running (b : bool) : M unit :=
  self <- this;;
  modify (set_camera (Some {| running := b; model := model self;
                              face_recognizer := face_recognizer self;
                              cap := cap self |})).

Definition set_cap (c : option Z) : M unit :=
  self <- this;;
  modify (set_camera (Some {| running := running self; model := model self;
                              face_recognizer := face_recognizer self;
                              cap := c |})).

(** [self.cap.read()]. *)
Definition cap_read : M (option Frame) := fun env st =>
  let st' := set_reads (S (reads st)) st in
  match camera_read env (reads st) with
  | Grabbed frame => (Ok (Some frame), st')
  | NotGrabbed => (Ok None, st')
  | ReadRaises k => (Raise (Exception k), st')
  | Signalled => (Raise (SystemExit 0), st')
  end.

(** [self.cap.release()]. *)
Definition cap_release : M unit :=
  modify (fun st => set_released (S (released st)) st).

(** [cv2.waitKey(1)]. *)
Definition waitKey : M Z := fun env st =>
  (Ok (wait_key env (keys st)), set_keys (S (keys st)) st).

(** ["ALLOWED" if person_name != "Unknown" else "INTRUDER"]. *)
Definition person_type_of (person_name : string) : string :=
  if negb (str_eqb person_name "Unknown") then "ALLOWED" else "INTRUDER".

(** [cv2.imwrite(path, image)]: [True] when the file was written. *)
Definition cv2_imwrite (path : string) (image : Image) : M bool := fun env st =>
  match imwrite env path with
  | Wrote =>
      (Ok true,
       set_fs (<[path := {| st_mtime := os_time env st; can_read := true;
                            can_append := true; can_unlink := true;
                            content := [Jpeg image] |}]> (fs st)) st)
  | Refused => (Ok false, st)
  | Crashed => (Raise (Exception OtherError), st)
  end.

Section WithConfig.

Variable config : Config.t.

Definition _load_model : M string :=
  try_except
    (log INFO ("Loading YOLOv8 model: " ++ DETECTION_MODEL config);;
     env <- ask;;
     if yolo_loads env
     then log INFO "Model loaded successfully";; ret (DETECTION_MODEL config)
     else raise (Exception OtherError))
    (fun e =>
       let error_msg := "Failed to load model" in
       log ERROR error_msg;;
       raise (Exception (RuntimeError error_msg))).

Definition _load_face_recognizer : M (option FaceRecognizer) :=
  env <- ask;;
  if negb (ENABLE_FACE_RECOGNITION config) then
    log INFO "Face recognition disabled in config";; ret None
  else if negb (FACE_RECOGNITION_AVAILABLE env) then
    log WARNING "Face recognition library not available";;
    log WARNING "Install with: pip install face-recognition";;
    ret None
  else
    try_except
      (log INFO "Loading face recognizer...";;
       recognizer <- FaceRecognition.__init__ (KNOWN_FACES_DIR config);;
       log INFO "Face recognizer loaded";;
       ret (Some recognizer))
      (fun e => log WARNING "Face recognition disabled";; ret None).

(** [SmartDoorCamera()]: the object as the constructor leaves it. *)
Definition __init__ : M SmartDoorCamera :=
  log INFO "Smart Door Camera System - RPi 5";;
  (* Validate configuration *)
  valid <- Utils.validate_config config;;
  if negb valid then raise (Exception (RuntimeError "Configuration validation failed"))
  else
    (* Initialize components *)
    loaded <- _load_model;;
    recognizer <- _load_face_recognizer;;
    log INFO "System initialized successfully";;
    ret {| running := false; model := Some loaded;
           face_recognizer := recognizer; cap := None |}.

Definition _save_detection_image
    (frame : Frame) (confidence : Q) (person_name : string) : M string :=
  try_except
    (env <- ask;;
     t <- now;;
     let timestamp := drop_last 3 (strftime env t "%Y%m%d_%H%M%S_%f") in
     let filename := "detection_" ++ person_name ++ "_" ++ timestamp ++ ".jpg" in
     let filepath := path_join (DETECTIONS_DIR config) filename in
     (* Add text overlay *)
     let text := person_name ++ " (" ++ format_0pct confidence ++ ")" in
     (* Add timestamp *)
     t' <- now;;
     let frame_copy := Annotated frame text (strftime env t' "%Y-%m-%d %H:%M:%S") in
     (* Save image *)
     _ <- cv2_imwrite filepath frame_copy;;
     log DEBUG ("Image saved: " ++ filepath);;
     ret filepath)
    (fun e => log ERROR "Error saving image";; ret "").

(** Lines 222-228 of [_process_frame]: recognize face if enabled. *)
Definition identify (self : SmartDoorCamera) (crop : Image) : M string :=
  match face_recognizer self with
  | Some recognizer =>
      FaceRecognition.recognize_face
        recognizer crop (FACE_RECOGNITION_THRESHOLD config)
  | None => ret "Unknown"
  end.

(** The body of the loop over [result.boxes] in [_process_frame]; every
    [continue] of the source is an early [ret tt]. *)
Definition process_box (frame : Frame) (box : Box) : M unit :=
  (* Only care about 'person' class (index 0 in COCO) *)
  if negb (cls box =? 0) then ret tt
  else
    (* Get bounding box coordinates *)
    let '(x1, y1, x2, y2) := xyxy box in
    (* Validate coordinates *)
    if (x1 >=? x2) || (y1 >=? y2) then ret tt
    else
      (* Extract face crop *)
      let crop := Crop frame (Z.max 0 y1) (Z.min (rows frame) y2)
                             (Z.max 0 x1) (Z.min (cols frame) x2) in
      if size crop =? 0 then ret tt
      else
        (* Recognize face if enabled *)
        self <- this;;
        person_name <- identify self crop;;
        (* Determine person type *)
        let person_type := person_type_of person_name in
        (* Save detection image *)
        image_path <- _save_detection_image frame (conf box) person_name;;
        (* Send alert *)
        try_except
          (Notification.send_detection_sync
             config person_type (conf box) (Some image_path) person_name)
          (fun e => log ERROR "Failed to send alert");;
        (* Log detection *)
        env <- ask;;
        t <- now;;
        Utils.save_detection_csv
          config (isoformat env t) person_type person_name (conf box) "front_door";;
        log INFO ("Detection: " ++ person_type ++ " - " ++ person_name).

Definition _process_frame (frame : Frame) : M unit :=
  try_except
    ((* Run inference *)
     self <- this;;
     env <- ask;;
     results <-
       match model self with
       | Some _ => lift (yolo env frame (CONFIDENCE_THRESHOLD config))
       | None => raise (Exception OtherError)
       end;;
     (* Process detections *)
     for_each results (fun result =>
       match result with
       | None | Some [] => ret tt
       | Some boxes => for_each boxes (process_box frame)
       end))
    (fun e => log ERROR "Frame processing error").

(** [_cleanup]; its [cv2.destroyAllWindows()] changes nothing that is
    observed here. *)
Definition _cleanup : M unit :=
  self <- this;;
  log INFO "Cleaning up resources...";;
  set_running false;;
  match cap self with
  | Some _ => cap_release;; log INFO "Camera released"
  | None => ret tt
  end.

(** [while self.running:], for at most [fuel] turns. Within the loop
    nothing clears [self.running]: the loop ends by [break], by an
    exception or by a signal. *)
Fixpoint camera_loop (fuel : nat) (frame_count start_time : Z) : M unit :=
  match fuel with
  | O => diverge
  | S fuel' =>
      grabbed <- cap_read;;
      match grabbed with
      | None =>
          log ERROR "Failed to grab frame";;
          (* time.sleep(0.1) *)
          camera_loop fuel' frame_count start_time
      | Some frame =>
          let frame_count := frame_count + 1 in
          (* Process frame *)
          _process_frame frame;;
          (* Display if configured *)
          quit <- (if DISPLAY_FRAMES config
                   then key <- waitKey;; ret (Z.land key 255 =? 113)
                   else ret false);;
          if quit then log INFO "Quit requested by user"
          else
            (* Log FPS every 100 frames *)
            (if frame_count mod 100 =? 0 then
               t <- now;;
               let elapsed := t - start_time in
               if elapsed =? 0 then raise (Exception ZeroDivisionError)
               else
                 log DEBUG "Processing FPS";;
                 (* Cleanup old images periodically *)
                 when (frame_count mod 1000 =? 0)
                      (Utils.cleanup_old_images config (ALERT_RETENTION_DAYS config))
             else ret tt);;
            camera_loop fuel' frame_count start_time
      end
  end.

Definition run (fuel : nat) : M unit :=
  set_running true;;
  log INFO "Starting camera loop...";;
  (* Send startup notification *)
  try_except
    (Notification.send_startup_sync config)
    (fun e => log WARNING "Startup notification failed");;
  (* Open camera *)
  set_cap (Some (CAMERA_INDEX config));;
  env <- ask;;
  if negb (camera_opens env (CAMERA_INDEX config)) then
    let error_msg := "Failed to open camera at index " ++ pretty (CAMERA_INDEX config) in
    log ERROR error_msg;;
    Notification.send_error_sync config error_msg
  else
    (* Set camera properties *)
    log INFO "Camera opened";;
    start_time <- now;;
    try_finally
      (try_catch
         (camera_loop fuel 0 start_time)
         (fun e =>
            match e with
            | KeyboardInterrupt => Some (log INFO "Keyboard interrupt received")
            | Exception k =>
                let error_msg := "Camera loop error" in
                Some (log ERROR error_msg;;
                      Notification.send_error_sync config error_msg)
            | SystemExit _ => None
            end))
      _cleanup.

(** [main()]. The handlers it installs for SIGINT and SIGTERM call
    [sys.exit(0)]: a signal is the [Signalled] turn of the camera. *)
Definition main (fuel : nat) : M unit :=
  modify (set_camera None);;
  try_finally
    (try_catch
       (built <- __init__;;
        modify (set_camera (Some built));;
        run fuel)
       (fun e =>
          match e with
          | KeyboardInterrupt => Some (log INFO "Interrupted by user")
          | Exception k =>
              Some (log ERROR "Fatal error";;
                    try_except_all
                      (Notification.send_error_sync config "Fatal error")
                      (ret tt))
          | SystemExit _ => None
          end))
    (st <- get;;
     match camera st with
     | Some _ => _cleanup
     | None => ret tt
     end;;
     log INFO "Shutdown complete").

End WithConfig.

(** The exit status of [python3 main.py] once [main()] has ended: 0 when
    it returns, the code of a [SystemExit], 1 for any other exception that
    escapes. *)
Definition exit_status (r : Result unit) : option Z :=
  match r with
  | Ok _ => Some 0
  | Raise (SystemExit code) => Some code
  | Raise _ => Some 1
  | Diverge => None
  end.

End Main.

(** ** Sample surroundings, for running the program on concrete inputs *)

Module Sample.

(** A norm for the sample vectors: exact on integer vectors whose sum of
    squares is a perfect square. *)
Definition norm (v : list Q) : Q :=
  inject_Z (Z.sqrt (Qnum (fold_right Qplus 0%Q (map (fun x => x * x)%Q v)))).

(** A face library that finds one face in every image and encodes it as
    [encoding]. *)
Definition library (encoding : Encoding) : FaceLibrary :=
  {| face_locations := fun _ => Ok [(0, 10, 10, 0)];
     face_encodings := fun _ _ => Ok [encoding] |}.

(** A door on 14 November 2023, the clock read every tenth of a second:
    the Bot API delivers, the disk accepts, no face library is installed,
    the detector sees [boxes] in every frame, and the camera delivers
    [frames] and is then signalled to stop. *)
Definition env (boxes : list Box) (frames : list Frame) : Env :=
  {| clock := fun n => seconds 1700000000 + Z.of_nat n * 100000;
     strftime := fun t fmt => pretty t;
     isoformat := fun t => pretty t;
     telegram := fun _ => None;
     can_create := fun _ => true;
     imwrite := fun _ => Wrote;
     FACE_RECOGNITION_AVAILABLE := true;
     face_recognition_library := None;
     known_face_files := [];
     np_linalg_norm := norm;
     yolo_loads := true;
     yolo := fun _ _ => Ok [Some boxes];
     dir_exists := fun _ => true;
     can_mkdir := fun _ => true;
     camera_opens := fun _ => true;
     camera_read := fun n => match frames !! n with
                             | Some frame => Grabbed frame
                             | None => Signalled
                             end;
     wait_key := fun _ => -1 |}.

Definition with_telegram (t : nat -> option ExceptionKind) (e : Env) : Env :=
  {| clock := clock e; strftime := strftime e; isoformat := isoformat e;
     telegram := t;
     can_create := can_create e; imwrite := imwrite e;
     FACE_RECOGNITION_AVAILABLE := FACE_RECOGNITION_AVAILABLE e;
     face_recognition_library := face_recognition_library e;
     known_face_files := known_face_files e;
     np_linalg_norm := np_linalg_norm e;
     yolo_loads := yolo_loads e; yolo := yolo e;
     dir_exists := dir_exists e; can_mkdir := can_mkdir e;
     camera_opens := camera_opens e; camera_read := camera_read e;
     wait_key := wait_key e |}.

Definition with_camera (opens : bool) (e : Env) : Env :=
  {| clock := clock e; strftime := strftime e; isoformat := isoformat e;
     telegram := telegram e;
     can_create := can_create e; imwrite := imwrite e;
     FACE_RECOGNITION_AVAILABLE := FACE_RECOGNITION_AVAILABLE e;
     face_recognition_library := face_recognition_library e;
     known_face_files := known_face_files e;
     np_linalg_norm := np_linalg_norm e;
     yolo_loads := yolo_loads e; yolo := yolo e;
     dir_exists := dir_exists e; can_mkdir := can_mkdir e;
     camera_opens := fun _ => opens; camera_read := camera_read e;
     wait_key := wait_key e |}.

Definition frame : Frame := {| frame_id := 0; rows := 720; cols := 1280 |}.

Definition person : Box :=
  {| cls := 0; conf := 87 # 100; xyxy := (100, 50, 400, 700) |}.

Definition config : Config.t := Config.config "/home/pi/smart_door_camera".

Definition door : Env := env [person] [frame].

(** The same door with the Bot API out of reach. *)
Definition offline : Env := with_telegram (fun _ => Some TelegramError) door.

(** A notifier that alerted for "Unknown" when the sample clock started. *)
Definition alerted : Notification.TelegramNotifier :=
  Notification.set_last_alert_time
    {["Unknown" := seconds 1700000000]} (Notification.__init__ config).

(** Two alerts for the same person, one right after the other. *)
Definition two_alerts : M unit :=
  Notification.send_detection_sync config "INTRUDER" (9 # 10) None "Unknown";;
  Notification.send_detection_sync config "INTRUDER" (9 # 10) None "Unknown".

Definition detections : list Utils.Detection :=
  [ {| Utils.timestamp := "2023-11-14T22:13:20"; Utils.person_type := "INTRUDER";
       Utils.person_name := "Unknown"; Utils.confidence := 87 # 100;
       Utils.camera := "front_door" |};
    {| Utils.timestamp := "2023-11-14T22:13:25"; Utils.person_type := "ALLOWED";
       Utils.person_name := "alice"; Utils.confidence := 9126 # 10000;
       Utils.camera := "front_door" |};
    {| Utils.timestamp := "2023-11-14T22:13:31"; Utils.person_type := "INTRUDER";
       Utils.person_name := "Unknown"; Utils.confidence := 1 # 2;
       Utils.camera := "front_door" |} ].

(** What the detections directory holds on the sample day: an image from
    thirteen days before, an image from the last hour, and the two logs,
    untouched for a month. *)
Definition file (mtime : Z) (c : list Chunk) : File :=
  {| st_mtime := mtime; can_read := true; can_append := true;
     can_unlink := true; content := c |}.

Definition old_image : string :=
  path_join (DETECTIONS_DIR config) "detection_Unknown_20231101_101500_000.jpg".
Definition new_image : string :=
  path_join (DETECTIONS_DIR config) "detection_alice_20231114_213000_000.jpg".
Definition camera_log : string :=
  path_join (DETECTIONS_DIR config) "camera.log".
Definition csv_log : string :=
  path_join (DETECTIONS_DIR config) "detection_log.csv".

Definition disk : gmap string File :=
  {[ old_image := file (seconds (1700000000 - 13 * 86400))
                       [Jpeg (Annotated frame "Unknown (87%)" "2023-11-01 10:15:00")];
     new_image := file (seconds (1700000000 - 2600))
                       [Jpeg (Annotated frame "alice (91%)" "2023-11-14 21:30:00")];
     camera_log := file (seconds (1700000000 - 30 * 86400)) [];
     csv_log := file (seconds (1700000000 - 30 * 86400)) [Utils.header_row] ]}.

(** Recognizers: one with two known faces, the second of which is the face
    the library sees; one whose only known face was enrolled under the
    name "Unknown"; one left without library and faces. *)
Definition seen : Encoding := [3 # 1; 4 # 1].

Definition recognizer : FaceRecognizer :=
  {| known_faces_dir := KNOWN_FACES_DIR config;
     known_faces := [("alice", [0 # 1; 0 # 1]); ("bob", [3 # 1; 4 # 1])];
     face_recognition := Some (library seen) |}.


Definition unavailable : FaceRecognizer :=
  {| known_faces_dir := KNOWN_FACES_DIR config;
     known_faces := [];
     face_recognition := None |}.

(** A library that finds no face, and the first recognizer with it. *)
Definition blind : FaceLibrary :=
  {| face_locations := fun _ => Ok [];
     face_encodings := fun _ _ => Ok [] |}.

Definition sightless : FaceRecognizer :=
  {| known_faces_dir := KNOWN_FACES_DIR config;
     known_faces := [("alice", [0 # 1; 0 # 1]); ("bob", [3 # 1; 4 # 1])];
     face_recognition := Some blind |}.

Definition crop : Image := Crop frame 50 700 100 400.

(** The state in which the camera loop processes a frame, with the given
    recognizer loaded. *)
Definition looping (r : option FaceRecognizer) : State :=
  set_camera (Some {| running := true; model := Some "yolov8n.pt";
                      face_recognizer := r; cap := Some 0 |})
             (initial_state ∅).

Definition caption : Text :=
  DetectionText ":red_circle:" ":rotating_light: INTRUDER ALERT" "INTRUDER"
                (9 # 10) "Unknown" "2023-11-14 22:13:20".

End Sample.

(** ** Vocabulary for the properties *)

(** [st'] differs from [st] in its log records at most. *)
Definition logs_only (st st' : State) : Prop :=
  ticks st' = ticks st /\ requests st' = requests st /\ fs st' = fs st
  /\ reads st' = reads st /\ keys st' = keys st /\ released st' = released st
  /\ camera st' = camera st.

(** A computation that only logs, and returns or raises an [Exception]. *)
Definition benign {A} (c : M A) : Prop :=
  forall env st,
    logs_only st (snd (c env st))
    /\ match fst (c env st) with
       | Ok _ | Raise (Exception _) => True
       | _ => False
       end.

(** [st'] differs from [st] in its clock readings, Bot requests and log
    records at most. *)
Definition messages_only (st st' : State) : Prop :=
  fs st' = fs st /\ reads st' = reads st /\ keys st' = keys st
  /\ released st' = released st /\ camera st' = camera st.

(** ** Vocabulary for further properties *)

(** The destination of a request to the Bot API. *)
Definition chat_of (r : BotRequest) : string :=
  match r with
  | send_message chat_id _ => chat_id
  | send_photo chat_id _ _ => chat_id
  end.

(** ** smart_door_camera/utils.py: get_detection_stats *)

Module Statistics.

Definition timedelta_hours (hours : Z) : Z := seconds (hours * 3600).

(** The value under ['unique_persons']: the set the loop fills (a name is
    [None] when the row is too short to have one), replaced by its size at
    the end. *)
Inductive Persons :=
  | PersonSet (names : gset (option string))
  | PersonCount (n : Z).

(** The dict [stats]. *)
Record Stats := {
  total_detections : Z;
  allowed_count : Z;
  intruder_count : Z;
  unique_persons : Persons;
  average_confidence : Q
}.

Definition set_total (n : Z) (s : Stats) : Stats :=
  {| total_detections := n; allowed_count := allowed_count s;
     intruder_count := intruder_count s; unique_persons := unique_persons s;
     average_confidence := average_confidence s |}.
Definition set_allowed (n : Z) (s : Stats) : Stats :=
  {| total_detections := total_detections s; allowed_count := n;
     intruder_count := intruder_count s; unique_persons := unique_persons s;
     average_confidence := average_confidence s |}.
Definition set_intruder (n : Z) (s : Stats) : Stats :=
  {| total_detections := total_detections s; allowed_count := allowed_count s;
     intruder_count := n; unique_persons := unique_persons s;
     average_confidence := average_confidence s |}.
Definition set_persons (p : Persons) (s : Stats) : Stats :=
  {| total_detections := total_detections s; allowed_count := allowed_count s;
     intruder_count := intruder_count s; unique_persons := p;
     average_confidence := average_confidence s |}.
Definition set_average (q : Q) (s : Stats) : Stats :=
  {| total_detections := total_detections s; allowed_count := allowed_count s;
     intruder_count := intruder_count s; unique_persons := unique_persons s;
     average_confidence := q |}.

(** The dict [stats] as [get_detection_stats] first builds it. *)
Definition empty_stats : Stats :=
  {| total_detections := 0; allowed_count := 0; intruder_count := 0;
     unique_persons := PersonSet ∅; average_confidence := 0 |}.

(** [row[key]] on a row of [csv.DictReader]: the key is missing, or holds a
    value, [None] when the row has fewer fields than the header. *)
Inductive Cell :=
  | KeyError
  | Value (v : option string).

(** [dict(zip(fieldnames, fields))], the fields that are missing set to
    [None]: of two columns with one name the later wins. *)
Fixpoint row_get (fieldnames fields : list string) (key : string) : Cell :=
  match fieldnames with
  | [] => KeyError
  | name :: names =>
      match row_get names (tail fields) key with
      | Value v => Value v
      | KeyError => if str_eqb name key then Value (head fields) else KeyError
      end
  end.

Section WithLibrary.

Variable config : Config.t.

(** [datetime.fromisoformat] and [float] on a string: [None] when they raise
    [ValueError]. *)
Variable fromisoformat : string -> option Z.
Variable parse_float : string -> option Q.

(** The body of the inner [try] for one row: the dict and the list as the
    row leaves them, and whether an exception ended it. What was counted
    before the exception stays counted. *)
Definition count_row (cutoff_time : Z) (fieldnames fields : list string)
                     (stats : Stats) (confidences : list Q)
  : Stats * list Q * bool :=
  match row_get fieldnames fields "timestamp" with
  | Value (Some text) =>
      match fromisoformat text with
      | Some timestamp =>
          if timestamp <? cutoff_time then (stats, confidences, false)
          else
            let stats := set_total (total_detections stats + 1) stats in
            match row_get fieldnames fields "person_name", unique_persons stats with
            | Value name, PersonSet names =>
                let stats := set_persons (PersonSet ({[name]} ∪ names)) stats in
                match row_get fieldnames fields "person_type" with
                | Value person_type =>
                    let stats :=
                      if bool_decide (person_type = Some "ALLOWED")
                      then set_allowed (allowed_count stats + 1) stats
                      else set_intruder (intruder_count stats + 1) stats in
                    match row_get fieldnames fields "confidence" with
                    | Value (Some number) =>
                        match parse_float number with
                        | Some confidence =>
                            (stats, (confidences ++ [confidence])%list, false)
                        | None => (stats, confidences, true)
                        end
                    | _ => (stats, confidences, true)
                    end
                | KeyError => (stats, confidences, true)
                end
            | _, _ => (stats, confidences, true)
            end
      | None => (stats, confidences, true)
      end
  | _ => (stats, confidences, true)
  end.

(** [for row in reader:] over what follows the header. The result tells
    how many rows ended in an exception (each is logged) and whether the
    file could be decoded to its end. *)
Fixpoint read_rows (cutoff_time : Z) (fieldnames : list string)
                   (chunks : list Chunk) (stats : Stats) (confidences : list Q)
                   (failed : nat) : Stats * list Q * nat * bool :=
  match chunks with
  | [] => (stats, confidences, failed, true)
  | Jpeg _ :: _ => (stats, confidences, failed, false)
  | CsvRow [] :: rest =>
      read_rows cutoff_time fieldnames rest stats confidences failed
  | CsvRow fields :: rest =>
      let '(stats, confidences, raised) :=
        count_row cutoff_time fieldnames fields stats confidences in
      read_rows cutoff_time fieldnames rest stats confidences
                (if raised then S failed else failed)
  end.

(** [csv.DictReader(f)] takes the first row as the header. *)
Definition read_log (cutoff_time : Z) (chunks : list Chunk) (stats : Stats)
  : Stats * list Q * nat * bool :=
  match chunks with
  | [] => (stats, [], 0%nat, true)
  | Jpeg _ :: _ => (stats, [], 0%nat, false)
  | CsvRow fieldnames :: rows =>
      read_rows cutoff_time fieldnames rows stats [] 0
  end.

Definition mean (confidences : list Q) : Q :=
  (fold_left Qplus confidences 0 / inject_Z (Z.of_nat (length confidences)))%Q.

Definition get_detection_stats (hours : Z) : M Stats :=
  let stats := empty_stats in
  st <- get;;
  match fs st !! LOG_FILE config with
  | None => ret stats
  | Some f =>
      t <- now;;
      let cutoff_time := t - timedelta_hours hours in
      if negb (can_read f) then log ERROR "Error getting stats";; ret stats
      else
        let '(stats, confidences, failed, decoded) :=
          read_log cutoff_time (content f) stats in
        for_each (replicate failed tt) (fun _ => log DEBUG "Error parsing log row");;
        if negb decoded then log ERROR "Error getting stats";; ret stats
        else
          let stats :=
            match confidences with
            | [] => stats
            | _ => set_average (mean confidences) stats
            end in
          match unique_persons stats with
          | PersonSet names =>
              ret (set_persons (PersonCount (Z.of_nat (size names))) stats)
          | PersonCount _ =>
              log ERROR "Error getting stats";; ret stats
          end
  end.

End WithLibrary.


End Statistics.

(** What the loop of [get_detection_stats] keeps true of the dict. *)
Definition tallied (s : Statistics.Stats) : Prop :=
  0 <= Statistics.allowed_count s /\ 0 <= Statistics.intruder_count s
  /\ Statistics.allowed_count s + Statistics.intruder_count s
     <= Statistics.total_detections s
  /\ match Statistics.unique_persons s with
     | Statistics.PersonSet names =>
         Z.of_nat (size names) <= Statistics.total_detections s
     | Statistics.PersonCount n => 0 <= n <= Statistics.total_detections s
     end.

(** A chunk of text, as opposed to image data that does not decode. *)
Definition is_row (c : Chunk) : bool :=
  match c with
  | CsvRow _ => true
  | Jpeg _ => false
  end.





(** ** More sample surroundings *)

Module Scene.

(** [datetime.fromisoformat] on the timestamps of [Sample.detections]. *)
Definition fromisoformat (text : string) : option Z :=
  if str_eqb text "2023-11-14T22:13:20" then Some (seconds 1700000000)
  else if str_eqb text "2023-11-14T22:13:25" then Some (seconds 1700000005)
  else if str_eqb text "2023-11-14T22:13:31" then Some (seconds 1700000011)
  else None.

(** [float] on the confidences of [Sample.detections]. *)
Definition parse_float (text : string) : option Q :=
  if str_eqb text "0.870" then Some (87 # 100)
  else if str_eqb text "0.913" then Some (913 # 1000)
  else if str_eqb text "0.500" then Some (1 # 2)
  else None.

End Scene.

(** ** Vocabulary for the face recognizer *)

(** A library call that returns or raises an [Exception]. *)
Definition tame {A} (r : Result A) : Prop :=
  match r with
  | Ok _ | Raise (Exception _) => True
  | _ => False
  end.

(** A face library whose calls return or raise an [Exception]. *)
Definition well_behaved (lib : FaceLibrary) : Prop :=
  forall image,
    tame (face_locations lib image)
    /\ forall locations, tame (face_encodings lib image locations).

(** The faces among [encoding_files] that [np.load] can read. *)
Definition loadable (encoding_files : list (string * option Encoding))
  : list (string * Encoding) :=
  omap (fun file => match snd file with
                    | Some encoding => Some (fst file, encoding)
                    | None => None
                    end) encoding_files.

Module Gallery.

(** The sample door with the face library [lib] installed and the files
    [files] in [known_faces]. *)
Definition with_faces (lib : option FaceLibrary)
                      (files : list (string * option Encoding)) (e : Env) : Env :=
  {| clock := clock e; strftime := strftime e; isoformat := isoformat e;
     telegram := telegram e;
     can_create := can_create e; imwrite := imwrite e;
     FACE_RECOGNITION_AVAILABLE := FACE_RECOGNITION_AVAILABLE e;
     face_recognition_library := lib;
     known_face_files := files;
     np_linalg_norm := np_linalg_norm e;
     yolo_loads := yolo_loads e; yolo := yolo e;
     dir_exists := dir_exists e; can_mkdir := can_mkdir e;
     camera_opens := camera_opens e; camera_read := camera_read e;
     wait_key := wait_key e |}.

(** Three files, the second of which does not load. *)
Definition files : list (string * option Encoding) :=
  [("alice", Some [0 # 1; 0 # 1]); ("broken", None); ("bob", Some [3 # 1; 4 # 1])].

Definition door : Env := with_faces (Some (Sample.library Sample.seen)) files Sample.door.

(** Twins: two known faces at the same distance from the face seen, and a
    third farther away. *)
Definition twins : FaceRecognizer :=
  {| known_faces_dir := KNOWN_FACES_DIR Sample.config;
     known_faces := [("carol", [0 # 1; 0 # 1]); ("alice", [3 # 1; 1 # 1]);
                     ("bob", [3 # 1; 7 # 1])];
     face_recognition := Some (Sample.library Sample.seen) |}.

End Gallery.

(** ** Vocabulary for the pipeline *)

(** The recognizer of the camera object, when it has one with a library,
    has a well-behaved library. *)
Definition sound_recognizer (self : SmartDoorCamera) : Prop :=
  forall recognizer lib,
    face_recognizer self = Some recognizer ->
    face_recognition recognizer = Some lib ->
    well_behaved lib.

(** The box, clipped to the frame as [_process_frame] clips it, is not
    empty. *)
Definition visible (frame : Frame) (box : Box) : Prop :=
  let '(x1, y1, x2, y2) := xyxy box in
  Z.max 0 x1 < Z.min (cols frame) x2 /\ Z.max 0 y1 < Z.min (rows frame) y2.

(** The path under which [_save_detection_image] saves, called in the
    state [st]. *)
Definition image_path_of (config : Config.t) (env : Env) (st : State)
                         (person_name : string) : string :=
  path_join (DETECTIONS_DIR config)
            ("detection_" ++ person_name ++ "_"
             ++ drop_last 3 (strftime env (clock env (ticks st)) "%Y%m%d_%H%M%S_%f")
             ++ ".jpg").

(** The row [_process_frame] logs for a box. *)
Definition logged_row (stamp person_name : string) (box : Box) : Chunk :=
  Utils.data_row {| Utils.timestamp := stamp;
                    Utils.person_type := Main.person_type_of person_name;
                    Utils.person_name := person_name;
                    Utils.confidence := conf box;
                    Utils.camera := "front_door" |}.

Module Workshop.

(** The sample door with a [cv2.imwrite] that answers [outcome]. *)
Definition with_imwrite (outcome : ImwriteResult) (e : Env) : Env :=
  {| clock := clock e; strftime := strftime e; isoformat := isoformat e;
     telegram := telegram e;
     can_create := can_create e; imwrite := fun _ => outcome;
     FACE_RECOGNITION_AVAILABLE := FACE_RECOGNITION_AVAILABLE e;
     face_recognition_library := face_recognition_library e;
     known_face_files := known_face_files e;
     np_linalg_norm := np_linalg_norm e;
     yolo_loads := yolo_loads e; yolo := yolo e;
     dir_exists := dir_exists e; can_mkdir := can_mkdir e;
     camera_opens := camera_opens e; camera_read := camera_read e;
     wait_key := wait_key e |}.

(** A disk that does not take images. *)
Definition full_disk : Env := with_imwrite Refused Sample.door.

End Workshop.

(** ** Vocabulary for the run of the program *)

(** How a call may end when everything it calls is well behaved: it
    returns, raises an [Exception], exits with status 0, or runs on. *)
Definition settled {A} (r : Result A) : Prop :=
  match r with
  | Ok _ | Raise (Exception _) | Diverge => True
  | Raise (SystemExit code) => code = 0
  | Raise KeyboardInterrupt => False
  end.

(** Surroundings in which the detector and the face library return or
    raise an [Exception]. *)
Definition tame_env (env : Env) : Prop :=
  (forall frame threshold, tame (yolo env frame threshold))
  /\ (forall lib, face_recognition_library env = Some lib -> well_behaved lib).

Definition sound_state (st : State) : Prop :=
  forall self, camera st = Some self -> sound_recognizer self.

(** The computation [c], started in [st], ends in one of the settled ways
    and leaves the camera object as it was. *)
Definition calm_at (env : Env) (st : State) {A} (c : M A) : Prop :=
  settled (fst (c env st)) /\ camera (snd (c env st)) = camera st.

(** The computation [c], started in [st], returns or raises an
    [Exception] and leaves the camera object, the count of frames read and
    the count of releases as they were. *)
Definition prompt_at (env : Env) (st : State) {A} (c : M A) : Prop :=
  tame (fst (c env st))
  /\ camera (snd (c env st)) = camera st
  /\ reads (snd (c env st)) = reads st
  /\ released (snd (c env st)) = released st.

(** The tests of [_process_frame] on a box: it is a person, it is not
    empty, and its crop is not empty. *)
Definition taken (frame : Frame) (box : Box) : bool :=
  let '(x1, y1, x2, y2) := xyxy box in
  (cls box =? 0)
  && negb ((x1 >=? x2) || (y1 >=? y2))
  && negb (Main.size (Crop frame (Z.max 0 y1) (Z.min (rows frame) y2)
                           (Z.max 0 x1) (Z.min (cols frame) x2)) =? 0).

(** The boxes of the results of one inference, in the order in which
    [_process_frame] meets them. *)
Definition boxes_of (results : list (option (list Box))) : list Box :=
  flat_map (fun result => match result with
                          | Some boxes => boxes
                          | None => []
                          end) results.

(** The log has grown by [rows] between [st] and [st']: nothing happened
    to it when there is no row; otherwise it holds what it held (the
    header, when it was missing) followed by the rows. *)
Definition log_grown (config : Config.t) (st st' : State) (rows : list Chunk)
  : Prop :=
  match rows with
  | [] => fs st' !! LOG_FILE config = fs st !! LOG_FILE config
  | _ =>
      exists f',
        fs st' !! LOG_FILE config = Some f'
        /\ can_append f' = true
        /\ content f'
           = (match fs st !! LOG_FILE config with
              | Some f => content f
              | None => [Utils.header_row]
              end ++ rows)%list
  end.

Module Yard.

(** A cat before the door, and a box that the detector reports empty. *)
Definition cat : Box :=
  {| cls := 15; conf := 93 # 100; xyxy := (600, 400, 800, 650) |}.

Definition sliver : Box :=
  {| cls := 0; conf := 61 # 100; xyxy := (300, 100, 300, 500) |}.

Definition door : Env := Sample.env [cat; sliver] [Sample.frame].

(** Two persons and the cat in one frame. *)
Definition visitor : Box :=
  {| cls := 0; conf := 74 # 100; xyxy := (700, 80, 1000, 720) |}.

Definition crowded : Env :=
  Sample.env [Sample.person; cat; visitor] [Sample.frame].

End Yard.

(** * Properties *)

(** ** Reading the monad *)

Ltac unfold_M :=
  unfold when, log, now, bot, lift, ask, get, modify,
         try_except, try_except_all, try_catch, try_finally,
         bind, ret, raise, diverge in *.

Section NotificationFacts.

Import Notification.

Variable config : Config.t.

(** The check reads the clock once and compares with the table. *)
Lemma check_rate_limit_eq self person_name env st :
  _check_rate_limit config self person_name env st =
    (Ok (clock env (ticks st) - default 0 (last_alert_time self !! person_name)
         >=? seconds (MIN_DETECTION_INTERVAL config)),
     set_ticks (S (ticks st)) st).
Proof. reflexivity. Qed.

Lemma check_rate_limit_true self person_name env st :
  fst (_check_rate_limit config self person_name env st) = Ok true <->
  seconds (MIN_DETECTION_INTERVAL config)
    <= clock env (ticks st) - default 0 (last_alert_time self !! person_name).
Proof.
  rewrite check_rate_limit_eq. simpl. split.
  - intros H. injection H as H. lia.
  - intros H. f_equal. lia.
Qed.

Lemma photo_returns chat_id photo_path caption person_type env st :
  fst (_send_photo_with_caption chat_id photo_path caption person_type env st) = Ok tt.
Proof.
  unfold _send_photo_with_caption. unfold_M. simpl.
  destruct (fs st !! photo_path) as [f|]; simpl; [|reflexivity].
  destruct (can_read f); simpl.
  - destruct (telegram env (length (requests st))); simpl; [|reflexivity].
    destruct (telegram env _); reflexivity.
  - destruct (telegram env (length (requests st))); reflexivity.
Qed.

Lemma photo_keeps_ticks chat_id photo_path caption person_type env st :
  ticks (snd (_send_photo_with_caption chat_id photo_path caption person_type env st))
  = ticks st.
Proof.
  unfold _send_photo_with_caption. unfold_M. simpl.
  destruct (fs st !! photo_path) as [f|]; simpl; [|reflexivity].
  destruct (can_read f); simpl.
  - destruct (telegram env (length (requests st))); simpl; [|reflexivity].
    destruct (telegram env _); reflexivity.
  - destruct (telegram env (length (requests st))); reflexivity.
Qed.

Lemma photo_effect chat_id photo_path caption person_type env st :
  exists st',
    _send_photo_with_caption chat_id photo_path caption person_type env st
    = (Ok tt, st') /\ ticks st' = ticks st.
Proof.
  pose proof (photo_returns chat_id photo_path caption person_type env st) as Hr.
  pose proof (photo_keeps_ticks chat_id photo_path caption person_type env st) as Ht.
  destruct (_send_photo_with_caption _ _ _ _ env st) as [r st'].
  simpl in *. subst r. eauto.
Qed.

Lemma suppressed_alert_eq self person_type confidence image_path person_name env st :
  fst (_check_rate_limit config self person_name env st) = Ok false ->
  send_detection_alert config self person_type confidence image_path
                       person_name env st
  = (Ok self,
     (if DEBUG_MODE config
      then fun s => set_logs (logs s ++ [(INFO, "Rate limited alert for " ++ person_name)]) s
      else fun s => s) (set_ticks (S (ticks st)) st)).
Proof.
  rewrite check_rate_limit_eq. simpl. intros H. injection H as H.
  unfold send_detection_alert, bind at 1.
  rewrite check_rate_limit_eq, H. simpl.
  unfold_M. destruct (DEBUG_MODE config); reflexivity.
Qed.

(** C6. A dispatch that the rate-limit check suppresses returns the
    notifier as it was, so [last_alert_time] keeps every entry it had and
    gains none, and no request reaches the Bot API. *)
Theorem suppressed_alert_leaves_table_unchanged
    self person_type confidence image_path person_name env st :
  fst (_check_rate_limit config self person_name env st) = Ok false ->
  fst (send_detection_alert config self person_type confidence image_path
                            person_name env st) = Ok self
  /\ requests (snd (send_detection_alert config self person_type confidence
                                         image_path person_name env st))
     = requests st.
Proof.
  intros H. rewrite (suppressed_alert_eq _ _ _ _ _ _ _ H).
  destruct (DEBUG_MODE config); split; reflexivity.
Qed.

Lemma dispatched_alert_eq self person_type confidence image_path person_name env st :
  fst (_check_rate_limit config self person_name env st) = Ok true ->
  exists st',
    send_detection_alert config self person_type confidence image_path
                         person_name env st
    = (Ok (match attach (SEND_IMAGE_WITH_ALERT config) image_path,
                 telegram env (length (requests st)) with
           | None, Some _ => self
           | _, _ =>
               set_last_alert_time
                 (<[person_name := clock env (S (S (ticks st)))]> (last_alert_time self))
                 self
           end), st').
Proof.
  rewrite check_rate_limit_eq. simpl. intros H. injection H as H.
  unfold send_detection_alert, bind at 1.
  rewrite check_rate_limit_eq, H. simpl.
  unfold try_except, try_catch, bind at 1. unfold now at 1. simpl.
  unfold bind at 1. unfold ask at 1. simpl.
  set (message := DetectionText _ _ _ _ _ _).
  destruct (attach (SEND_IMAGE_WITH_ALERT config) image_path) as [p|].
  - unfold bind at 1.
    match goal with
    | |- context [_send_photo_with_caption ?a ?b ?c ?d ?e ?s] =>
        destruct (photo_effect a b c d e s) as (st1 & -> & Ht1)
    end.
    unfold bind at 1.
    destruct (truthy (channel_id self) && negb (str_eqb (channel_id self) "@rpi5doorcam")).
    + destruct (photo_effect (channel_id self) p message person_type env st1)
        as (st2 & -> & Ht2).
      unfold_M. unfold _update_rate_limit. unfold_M. simpl.
      rewrite Ht2, Ht1. simpl. eauto.
    + unfold_M. unfold _update_rate_limit. unfold_M. simpl.
      rewrite Ht1. simpl. eauto.
  - unfold_M. simpl.
    destruct (telegram env (length (requests st))) as [k|]; simpl.
    + destruct k; simpl; eauto.
    + destruct (truthy (channel_id self) && negb (str_eqb (channel_id self) "@rpi5doorcam"));
        unfold _update_rate_limit; unfold_M; simpl; eauto.
Qed.

(** C3, as amended. Once the rate-limit check has passed,
    [lastAlertTime[person_name]] is set to the clock reading taken by
    [_update_rate_limit] whenever no exception reaches the handler of
    [send_detection_alert]: always when a photo is attached (failures of
    the photo and of its fallback stay inside
    [_send_photo_with_caption]), and on the text-only path exactly when
    [send_message] is delivered. A transport error on the text-only path
    leaves the table as it was. *)
Theorem rate_limit_consumed_unless_text_send_raises
    self person_type confidence image_path person_name env st :
  fst (_check_rate_limit config self person_name env st) = Ok true ->
  fst (send_detection_alert config self person_type confidence image_path
                            person_name env st)
  = Ok (match attach (SEND_IMAGE_WITH_ALERT config) image_path,
              telegram env (length (requests st)) with
        | None, Some _ => self
        | _, _ =>
            set_last_alert_time
              (<[person_name := clock env (S (S (ticks st)))]> (last_alert_time self))
              self
        end).
Proof.
  intros H.
  destruct (dispatched_alert_eq _ person_type confidence image_path _ _ _ H)
    as (st' & ->).
  reflexivity.
Qed.

(** C4, as amended. [_send_photo_with_caption] always returns normally.
    When the photo file is missing it sends nothing to the destination;
    when the file is there and [send_photo] raises, or the file cannot be
    opened, it sends the caption as a text message, and the outcome of
    that second request does not change the result. *)
Theorem photo_fallback_only_after_an_exception
    chat_id photo_path caption person_type env st :
  fst (_send_photo_with_caption chat_id photo_path caption person_type env st)
  = Ok tt
  /\ requests (snd (_send_photo_with_caption chat_id photo_path caption
                                             person_type env st))
     = (requests st ++
       match fs st !! photo_path with
       | None => []
       | Some photo_file =>
           if can_read photo_file then
             match telegram env (length (requests st)) with
             | None => [(send_photo chat_id photo_path caption, None)]
             | Some k =>
                 [(send_photo chat_id photo_path caption, Some k);
                  (send_message chat_id caption,
                   telegram env (S (length (requests st))))]
             end
           else [(send_message chat_id caption,
                  telegram env (length (requests st)))]
       end)%list.
Proof.
  split; [apply photo_returns|].
  unfold _send_photo_with_caption. unfold_M. simpl.
  destruct (fs st !! photo_path) as [f|]; simpl; [|by rewrite app_nil_r].
  destruct (can_read f); simpl.
  - destruct (telegram env (length (requests st))) eqn:E; simpl; [|reflexivity].
    rewrite length_app, Nat.add_1_r. simpl.
    destruct (telegram env (S _)); simpl; by rewrite <- app_assoc.
  - destruct (telegram env (length (requests st))); reflexivity.
Qed.

(** A notifier that has just been built has an empty table: with any
    clock that is at least [MIN_DETECTION_INTERVAL] past the epoch, its
    check passes. *)
Lemma fresh_notifier_passes_check person_name env st :
  seconds (MIN_DETECTION_INTERVAL config) <= clock env (ticks st) ->
  fst (_check_rate_limit config (__init__ config) person_name env st) = Ok true.
Proof.
  intros H. apply check_rate_limit_true. simpl.
  rewrite lookup_empty. simpl. lia.
Qed.

(** Whatever was dispatched before, an alert without image sent through
    [send_detection_sync] reaches the Bot API: the wrapper starts from an
    empty table. *)
Lemma send_detection_sync_always_sends person_type confidence person_name env st :
  seconds (MIN_DETECTION_INTERVAL config) <= clock env (ticks st) ->
  exists text,
    requests (snd (send_detection_sync config person_type confidence None
                                       person_name env st))
    = (requests st
       ++ [(send_message (TELEGRAM_USER_ID config) text,
            telegram env (length (requests st)))])%list.
Proof.
  intros H. apply (fresh_notifier_passes_check person_name) in H.
  rewrite check_rate_limit_eq in H. cbn [fst] in H. injection H as H.
  unfold send_detection_sync, send_detection_alert.
  unfold bind at 1. unfold bind at 1.
  rewrite check_rate_limit_eq.
  cbn [__init__ last_alert_time] in H |- *. rewrite H. simpl.
  unfold _update_rate_limit. unfold_M. simpl.
  destruct (telegram env (length (requests st))) as [[]|]; simpl; eauto.
  destruct (truthy _ && _); simpl; eauto.
Qed.

End NotificationFacts.

Lemma suppressed_alert_leaves_table_unchanged_witness :
  fst (Notification._check_rate_limit
         Sample.config Sample.alerted "Unknown" Sample.door (initial_state ∅))
  = Ok false
  /\ fst (Notification.send_detection_alert
            Sample.config Sample.alerted "INTRUDER" (9 # 10) None "Unknown"
            Sample.door (initial_state ∅))
     = Ok Sample.alerted
  /\ requests (snd (Notification.send_detection_alert
                      Sample.config Sample.alerted "INTRUDER" (9 # 10) None
                      "Unknown" Sample.door (initial_state ∅)))
     = requests (initial_state ∅).
Proof.
  split; [vm_compute; reflexivity|].
  apply (suppressed_alert_leaves_table_unchanged
           Sample.config Sample.alerted "INTRUDER" (9 # 10) None "Unknown"
           Sample.door (initial_state ∅)).
  vm_compute. reflexivity.
Defined.

Lemma rate_limit_consumed_unless_text_send_raises_witness :
  fst (Notification._check_rate_limit
         Sample.config (Notification.__init__ Sample.config) "Unknown"
         Sample.door (initial_state ∅))
  = Ok true
  /\ fst (Notification.send_detection_alert
            Sample.config (Notification.__init__ Sample.config)
            "INTRUDER" (9 # 10) None "Unknown" Sample.door (initial_state ∅))
     = Ok (Notification.set_last_alert_time
             {["Unknown" := seconds 1700000000 + 200000]}
             (Notification.__init__ Sample.config)).
Proof.
  split; [vm_compute; reflexivity|].
  rewrite (rate_limit_consumed_unless_text_send_raises
             Sample.config (Notification.__init__ Sample.config)
             "INTRUDER" (9 # 10) None "Unknown" Sample.door (initial_state ∅));
    [|vm_compute; reflexivity].
  reflexivity.
Defined.

(** C3 fails as stated: with no photo attached and the Bot API out of reach,
    the check passes, the one request raises, and the table stays empty. *)
Lemma transport_error_leaves_table_unchanged :
  fst (Notification._check_rate_limit
         Sample.config (Notification.__init__ Sample.config) "Unknown"
         Sample.offline (initial_state ∅))
  = Ok true
  /\ fst (Notification.send_detection_alert
            Sample.config (Notification.__init__ Sample.config)
            "INTRUDER" (9 # 10) None "Unknown" Sample.offline (initial_state ∅))
     = Ok (Notification.__init__ Sample.config)
  /\ Notification.last_alert_time (Notification.__init__ Sample.config) !! "Unknown"
     = None
  /\ map snd (requests (snd (Notification.send_detection_alert
            Sample.config (Notification.__init__ Sample.config)
            "INTRUDER" (9 # 10) None "Unknown" Sample.offline (initial_state ∅))))
     = [Some TelegramError].
Proof. vm_compute. repeat split; reflexivity. Qed.

(** C4 fails as stated: with image attachment enabled and a photo path whose
    file is missing, the dispatch returns normally, the check having passed,
    but no request at all reaches the Bot API: there is no text fallback. *)
Lemma missing_photo_sends_nothing :
  SEND_IMAGE_WITH_ALERT Sample.config = true
  /\ fs (initial_state ∅) !! "detections/missing.jpg" = None
  /\ fst (Notification.send_detection_sync
            Sample.config "INTRUDER" (9 # 10) (Some "detections/missing.jpg")
            "Unknown" Sample.door (initial_state ∅))
     = Ok tt
  /\ requests (snd (Notification.send_detection_sync
            Sample.config "INTRUDER" (9 # 10) (Some "detections/missing.jpg")
            "Unknown" Sample.door (initial_state ∅)))
     = []
  /\ requests (snd (Notification._send_photo_with_caption
            "1042611352" "detections/missing.jpg" Sample.caption "INTRUDER"
            Sample.door (initial_state ∅)))
     = [].
Proof. vm_compute. repeat split; reflexivity. Qed.

(** C1 on the code: [send_detection_sync] builds a new notifier, with an
    empty table, for every alert. Two alerts for "Unknown" three tenths of a
    second apart, with a minimum interval of two seconds: the check of the
    second alert passes and both messages are sent. *)
Theorem send_detection_sync_alerts_again_within_interval :
  clock Sample.door 3 - clock Sample.door 0
  < seconds (MIN_DETECTION_INTERVAL Sample.config)
  /\ ticks (snd (Notification.send_detection_sync
                  Sample.config "INTRUDER" (9 # 10) None "Unknown"
                  Sample.door (initial_state ∅))) = 3%nat
  /\ fst (Notification._check_rate_limit
            Sample.config (Notification.__init__ Sample.config) "Unknown"
            Sample.door
            (snd (Notification.send_detection_sync
                    Sample.config "INTRUDER" (9 # 10) None "Unknown"
                    Sample.door (initial_state ∅))))
     = Ok true
  /\ requests (snd (Sample.two_alerts Sample.door (initial_state ∅)))
     = [(send_message "1042611352"
           (DetectionText ":red_circle:" ":rotating_light: INTRUDER ALERT"
                          "INTRUDER" (9 # 10) "Unknown" "1700000000100000"),
         None);
        (send_message "1042611352"
           (DetectionText ":red_circle:" ":rotating_light: INTRUDER ALERT"
                          "INTRUDER" (9 # 10) "Unknown" "1700000000400000"),
         None)].
Proof. vm_compute. repeat split; reflexivity. Qed.

Section UtilsFacts.

Import Utils.

Variable config : Config.t.

(** One call of [save_detection_csv] on a writable log: the row goes to
    the end of the file, after the header when the file is new. *)
Lemma save_detection_csv_effect d env st :
  log_writable config env st = true ->
  exists st' f',
    log_detection config d env st = (Ok tt, st')
    /\ fs st' !! LOG_FILE config = Some f'
    /\ can_append f' = true
    /\ content f'
       = (match fs st !! LOG_FILE config with
          | Some f => content f
          | None => [header_row]
          end ++ [data_row d])%list.
Proof.
  unfold log_writable, log_detection, save_detection_csv, open_append, write.
  unfold_M. simpl.
  destruct (fs st !! LOG_FILE config) as [f|] eqn:E; intros Hw; simpl.
  - rewrite Hw. simpl. rewrite E. simpl.
    eexists _, _. split; [reflexivity|]. simpl.
    rewrite lookup_insert_eq. simpl. auto.
  - rewrite Hw. simpl. repeat (rewrite lookup_insert_eq; simpl).
    eexists _, _. split; [reflexivity|]. simpl.
    rewrite lookup_insert_eq. simpl. auto.
Qed.

Lemma log_detections_append ds : forall env st f,
  fs st !! LOG_FILE config = Some f ->
  can_append f = true ->
  exists st' f',
    for_each ds (log_detection config) env st = (Ok tt, st')
    /\ fs st' !! LOG_FILE config = Some f'
    /\ can_append f' = true
    /\ content f' = (content f ++ map data_row ds)%list.
Proof.
  induction ds as [|d rest IH]; intros env st f Hf Ha.
  - exists st, f. simpl. rewrite app_nil_r. auto.
  - destruct (save_detection_csv_effect d env st) as (st1 & f1 & E1 & Hf1 & Ha1 & Hc1).
    { unfold log_writable. by rewrite Hf. }
    destruct (IH env st1 f1 Hf1 Ha1) as (st2 & f2 & E2 & Hf2 & Ha2 & Hc2).
    exists st2, f2. simpl. unfold bind. rewrite E1, E2.
    rewrite Hc2, Hc1, Hf, <- app_assoc. auto.
Qed.

(** C7. [N >= 1] calls of [save_detection_csv] on a log that can be
    written leave the log on disk with, when it did not exist before, one
    header row followed by the [N] data rows in call order, and, when it
    did exist, its former content followed by the [N] data rows and no
    header. *)
Theorem log_has_one_header_then_rows_in_call_order ds env st :
  ds <> [] ->
  log_writable config env st = true ->
  fst (for_each ds (log_detection config) env st) = Ok tt
  /\ exists f',
       fs (snd (for_each ds (log_detection config) env st)) !! LOG_FILE config
       = Some f'
       /\ content f'
          = match fs st !! LOG_FILE config with
            | None => header_row :: map data_row ds
            | Some f => (content f ++ map data_row ds)%list
            end.
Proof.
  destruct ds as [|d rest]; [congruence|]. intros _ Hw.
  destruct (save_detection_csv_effect d env st Hw)
    as (st1 & f1 & E1 & Hf1 & Ha1 & Hc1).
  destruct (log_detections_append rest env st1 f1 Hf1 Ha1)
    as (st2 & f2 & E2 & Hf2 & Ha2 & Hc2).
  simpl. unfold bind. rewrite E1, E2. simpl. split; [reflexivity|].
  exists f2. split; [assumption|].
  rewrite Hc2, Hc1. destruct (fs st !! LOG_FILE config); simpl.
  - by rewrite <- app_assoc.
  - reflexivity.
Qed.

End UtilsFacts.

Lemma log_has_one_header_then_rows_in_call_order_witness :
  Sample.detections <> []
  /\ Utils.log_writable Sample.config Sample.door (initial_state ∅) = true
  /\ fst (for_each Sample.detections (Utils.log_detection Sample.config)
                   Sample.door (initial_state ∅)) = Ok tt
  /\ exists f',
       fs (snd (for_each Sample.detections (Utils.log_detection Sample.config)
                         Sample.door (initial_state ∅)))
       !! LOG_FILE Sample.config = Some f'
       /\ content f'
          = [CsvRow ["timestamp"; "person_type"; "person_name"; "confidence"; "camera"];
             CsvRow ["2023-11-14T22:13:20"; "INTRUDER"; "Unknown"; "0.870"; "front_door"];
             CsvRow ["2023-11-14T22:13:25"; "ALLOWED"; "alice"; "0.913"; "front_door"];
             CsvRow ["2023-11-14T22:13:31"; "INTRUDER"; "Unknown"; "0.500"; "front_door"]].
Proof.
  split; [discriminate|]. split; [vm_compute; reflexivity|].
  destruct (log_has_one_header_then_rows_in_call_order
              Sample.config Sample.detections Sample.door (initial_state ∅))
    as (Hr & f' & Hf & Hc); [discriminate | vm_compute; reflexivity |].
  split; [exact Hr|]. exists f'. split; [exact Hf|].
  rewrite Hc. vm_compute. reflexivity.
Defined.

Section CleanupFacts.

Import Utils.

Variable config : Config.t.








End CleanupFacts.

Section FaceFacts.

Import FaceRecognition.

Lemma Qltb_lt x y : Qltb x y = true <-> (x < y)%Q.
Proof.
  unfold Qltb. rewrite negb_true_iff, <- not_true_iff_false, Qle_bool_iff.
  split; [apply Qnot_le_lt | apply Qlt_not_le].
Qed.

Lemma Qltb_ge x y : Qltb x y = false <-> (y <= x)%Q.
Proof.
  unfold Qltb. rewrite negb_false_iff, Qle_bool_iff. reflexivity.
Qed.

Lemma np_subtract_same_length (a b : list Q) :
  length b = length a -> np_subtract a b = Ok (zip_with Qminus a b).
Proof.
  intros H. unfold np_subtract. rewrite H, Nat.eqb_refl. reflexivity.
Qed.

(** The loop keeps the smallest distance met so far and the name it was
    met with: either no item beats [min_distance], or the answer is an
    item, strictly nearer than [min_distance] and at least as near as
    every item. *)
Lemma compare_loop_nearest env detected items :
  Forall (fun item => length (snd item) = length detected) items ->
  forall min_distance matched_name st,
  exists best name st',
    compare_loop detected items min_distance matched_name env st
    = (Ok (best, name), st')
    /\ ((best = min_distance /\ name = matched_name
         /\ forall n k, In (n, k) items ->
              float_ltb (Finite (distance env detected k)) min_distance = false)
        \/ (exists known,
              In (name, known) items
              /\ best = Finite (distance env detected known)
              /\ float_ltb best min_distance = true
              /\ forall n k, In (n, k) items ->
                   (distance env detected known <= distance env detected k)%Q)).
Proof.
  induction 1 as [|[p k] rest Hlen _ IH]; intros min_distance matched_name st.
  - exists min_distance, matched_name, st. split; [reflexivity|].
    left. repeat split. intros n k [].
  - simpl in Hlen. simpl. unfold bind at 1. unfold lift at 1.
    rewrite (np_subtract_same_length _ _ Hlen).
    unfold bind at 1. unfold ask at 1. simpl.
    unfold bind at 1. unfold log at 1. unfold modify at 1. simpl.
    fold (distance env detected k).
    set (d := distance env detected k).
    set (st1 := set_logs _ st).
    change (match min_distance with Finite y => Qltb d y | Infinity => true end)
      with (float_ltb (Finite d) min_distance).
    destruct (float_ltb (Finite d) min_distance) eqn:Hlt.
    + destruct (IH (Finite d) p st1) as (best & name & st' & E & Hb).
      exists best, name, st'. split; [exact E|]. right.
      destruct Hb as [(-> & -> & Hall) | (known & Hin & -> & Hbd & Hall)].
      * exists k. split; [left; reflexivity|]. split; [reflexivity|].
        split; [exact Hlt|].
        intros n k' [Heq | Hin].
        -- injection Heq as _ <-. apply Qle_refl.
        -- specialize (Hall n k' Hin). simpl in Hall.
           apply Qltb_ge in Hall. exact Hall.
      * simpl in Hbd. apply Qltb_lt in Hbd.
        exists known. split; [right; exact Hin|]. split; [reflexivity|].
        split.
        -- destruct min_distance as [m|]; simpl in *; [|reflexivity].
           apply Qltb_lt. apply Qltb_lt in Hlt.
           eapply Qlt_trans; eassumption.
        -- intros n k' [Heq | Hin'].
           ++ injection Heq as _ <-. apply Qlt_le_weak. exact Hbd.
           ++ apply (Hall n k' Hin').
    + destruct (IH min_distance matched_name st1) as (best & name & st' & E & Hb).
      exists best, name, st'. split; [exact E|].
      destruct Hb as [(-> & -> & Hall) | (known & Hin & -> & Hbd & Hall)].
      * left. repeat split.
        intros n k' [Heq | Hin].
        -- injection Heq as _ <-. exact Hlt.
        -- apply (Hall n k' Hin).
      * right. exists known. split; [right; exact Hin|]. split; [reflexivity|].
        split; [exact Hbd|].
        intros n k' [Heq | Hin'].
        -- injection Heq as _ <-.
           destruct min_distance as [m|]; simpl in *; [|discriminate].
           apply Qltb_lt in Hbd. apply Qltb_ge in Hlt.
           apply Qlt_le_weak. eapply Qlt_le_trans; eassumption.
        -- apply (Hall n k' Hin').
Qed.

(** Without the library, or without a known face, the answer is the
    sentinel and nothing else happens. *)
Lemma recognize_face_unavailable self image tolerance env st :
  face_recognition self = None \/ known_faces self = [] ->
  recognize_face self image tolerance env st = (Ok "UNKNOWN", st).
Proof.
  unfold recognize_face. intros [H | H]; rewrite H.
  - reflexivity.
  - destruct (face_recognition self); reflexivity.
Qed.

Lemma compare_loop_name env detected items :
  forall min_distance matched_name st best name st',
    compare_loop detected items min_distance matched_name env st
    = (Ok (best, name), st') ->
    name = matched_name \/ In name (map fst items).
Proof.
  induction items as [|[p k] rest IH]; intros min_distance matched_name st best name st'.
  - simpl. unfold ret. intros H. injection H as _ <- _. left. reflexivity.
  - simpl. unfold bind at 1. unfold lift at 1.
    destruct (np_subtract detected k); try discriminate.
    unfold bind at 1. unfold ask at 1. simpl.
    unfold bind at 1. unfold log at 1. unfold modify at 1. simpl.
    match goal with
    | |- context [if ?c then _ else _] => destruct c
    end; intros H; apply IH in H as [-> | H]; auto.
Qed.

(** Whatever [recognize_face] answers is the sentinel or the name of a
    known face. *)
Lemma recognize_face_answer self image tolerance env st name :
  fst (recognize_face self image tolerance env st) = Ok name ->
  name = "UNKNOWN" \/ In name (map fst (known_faces self)).
Proof.
  unfold recognize_face.
  destruct (face_recognition self) as [lib|];
    [|simpl; intros H; injection H as <-; auto].
  destruct (known_faces self) as [|item items] eqn:Hk;
    [simpl; intros H; injection H as <-; auto|].
  rewrite <- Hk. clear Hk item items.
  unfold try_except, try_catch, bind at 1. unfold lift at 1.
  destruct (face_locations lib image) as [[|loc locs]|[]|]; simpl;
    try (intros H; injection H as <-; auto; fail); try discriminate.
  unfold bind at 1. unfold lift at 1.
  destruct (face_encodings lib image (loc :: locs)) as [[|detected others]|[]|]; simpl;
    try (intros H; injection H as <-; auto; fail); try discriminate.
  unfold bind at 1.
  destruct (compare_loop detected (known_faces self) Infinity "UNKNOWN" env st)
    as [[[best matched]|[]|] st1] eqn:E; simpl;
    try (intros H; injection H as <-; auto; fail); try discriminate.
  apply compare_loop_name in E.
  destruct (float_ltb best (Finite tolerance)); simpl;
    intros H; injection H as <-; auto.
Qed.

Lemma recognize_face_encoded
    self lib image tolerance env st locations detected others :
  face_recognition self = Some lib ->
  known_faces self <> [] ->
  face_locations lib image = Ok locations -> locations <> [] ->
  face_encodings lib image locations = Ok (detected :: others) ->
  Forall (fun item => length (snd item) = length detected) (known_faces self) ->
  exists name known,
    In (name, known) (known_faces self)
    /\ (forall n k, In (n, k) (known_faces self) ->
          (distance env detected known <= distance env detected k)%Q)
    /\ fst (recognize_face self image tolerance env st)
       = Ok (if Qltb (distance env detected known) tolerance
             then name else "UNKNOWN").
Proof.
  intros Hlib Hknown Hloc Hne He Hlen. unfold recognize_face. rewrite Hlib.
  destruct (known_faces self) as [|item items] eqn:Hk; [congruence|].
  rewrite <- Hk in *. clear Hk item items.
  unfold try_except, try_catch, bind at 1. unfold lift at 1. rewrite Hloc.
  destruct locations as [|loc locs]; [congruence|].
  unfold bind at 1. unfold lift at 1. rewrite He.
  unfold bind at 1.
  destruct (compare_loop_nearest env detected (known_faces self) Hlen
                                 Infinity "UNKNOWN" st)
    as (best & name & st1 & -> & Hb).
  destruct Hb as [(_ & _ & Hall) | (known & Hin & -> & _ & Hall)].
  - destruct (known_faces self) as [|[n k] items]; [congruence|].
    specialize (Hall n k (or_introl eq_refl)). discriminate.
  - exists name, known. split; [exact Hin|]. split; [exact Hall|].
    simpl. destruct (Qltb _ tolerance); reflexivity.
Qed.

(** C9. With the library loaded and at least one known face:
    - when no face is found, or finding faces raises, the answer is the
      sentinel, not an exception;
    - when no encoding comes back, or encoding raises, likewise;
    - when the first face is encoded, some known face is nearest to it
      (its distance is at most the distance of every known face), and the
      answer is the name of that face when its distance is strictly below
      the tolerance, the sentinel otherwise.
    The distance is [np.linalg.norm] of the difference of the encodings,
    all of one length. *)
Theorem recognize_face_nearest_within_tolerance
    self lib image tolerance env st :
  face_recognition self = Some lib ->
  known_faces self <> [] ->
  (face_locations lib image = Ok []
   \/ (exists k, face_locations lib image = Raise (Exception k)) ->
   fst (recognize_face self image tolerance env st) = Ok "UNKNOWN")
  /\ (forall locations,
        face_locations lib image = Ok locations -> locations <> [] ->
        face_encodings lib image locations = Ok []
        \/ (exists k, face_encodings lib image locations = Raise (Exception k)) ->
        fst (recognize_face self image tolerance env st) = Ok "UNKNOWN")
  /\ (forall locations detected others,
        face_locations lib image = Ok locations -> locations <> [] ->
        face_encodings lib image locations = Ok (detected :: others) ->
        Forall (fun item => length (snd item) = length detected) (known_faces self) ->
        exists name known,
          In (name, known) (known_faces self)
          /\ (forall n k, In (n, k) (known_faces self) ->
                (distance env detected known <= distance env detected k)%Q)
          /\ ((distance env detected known < tolerance)%Q ->
              fst (recognize_face self image tolerance env st) = Ok name)
          /\ ((tolerance <= distance env detected known)%Q ->
              fst (recognize_face self image tolerance env st) = Ok "UNKNOWN")).
Proof.
  intros Hlib Hknown. split; [|split].
  - intros H. unfold recognize_face. rewrite Hlib.
    destruct (known_faces self) as [|item items]; [congruence|].
    unfold try_except, try_catch, bind, lift.
    destruct H as [-> | (k & ->)]; reflexivity.
  - intros locations Hloc Hne H. unfold recognize_face. rewrite Hlib.
    destruct (known_faces self) as [|item items]; [congruence|].
    destruct locations as [|loc locs]; [congruence|].
    unfold try_except, try_catch, bind, lift. rewrite Hloc.
    destruct H as [-> | (k & ->)]; reflexivity.
  - intros locations detected others Hloc Hne He Hlen.
    destruct (recognize_face_encoded self lib image tolerance env st
                locations detected others)
      as (name & known & Hin & Hall & Hres); auto.
    exists name, known. split; [exact Hin|]. split; [exact Hall|].
    rewrite Hres. split.
    + intros Hlt. apply Qltb_lt in Hlt. rewrite Hlt. reflexivity.
    + intros Hge. apply Qltb_ge in Hge. rewrite Hge. reflexivity.
Qed.

End FaceFacts.


Lemma recognize_face_nearest_within_tolerance_witness :
  face_recognition Sample.recognizer = Some (Sample.library Sample.seen)
  /\ known_faces Sample.recognizer <> []
  /\ fst (FaceRecognition.recognize_face
            Sample.sightless Sample.crop (6 # 10) Sample.door (initial_state ∅))
     = Ok "UNKNOWN"
  /\ (exists name known,
        In (name, known) (known_faces Sample.recognizer)
        /\ (forall n k, In (n, k) (known_faces Sample.recognizer) ->
              (FaceRecognition.distance Sample.door Sample.seen known
               <= FaceRecognition.distance Sample.door Sample.seen k)%Q)
        /\ ((FaceRecognition.distance Sample.door Sample.seen known < 6 # 10)%Q ->
            fst (FaceRecognition.recognize_face
                   Sample.recognizer Sample.crop (6 # 10) Sample.door
                   (initial_state ∅)) = Ok name)
        /\ ((6 # 10 <= FaceRecognition.distance Sample.door Sample.seen known)%Q ->
            fst (FaceRecognition.recognize_face
                   Sample.recognizer Sample.crop (6 # 10) Sample.door
                   (initial_state ∅)) = Ok "UNKNOWN")).
Proof.
  split; [reflexivity|]. split; [discriminate|]. split.
  { destruct (recognize_face_nearest_within_tolerance
                Sample.sightless Sample.blind Sample.crop (6 # 10)
                Sample.door (initial_state ∅))
      as (H & _ & _); [reflexivity | discriminate |].
    apply H. left. reflexivity. }
  destruct (recognize_face_nearest_within_tolerance
              Sample.recognizer (Sample.library Sample.seen) Sample.crop (6 # 10)
              Sample.door (initial_state ∅))
    as (_ & _ & H); [reflexivity | discriminate |].
  apply (H [(0, 10, 10, 0)] Sample.seen []);
    [reflexivity | discriminate | reflexivity |].
  repeat constructor.
Defined.

Section PipelineFacts.

Import Main.

Variable config : Config.t.



End PipelineFacts.


(** C2 on the code: the face library is not installed, so the recognizer
    that [main()] loads answers "UNKNOWN" for every crop; the one person the
    camera sees is logged with [person_type] "ALLOWED", not "INTRUDER". *)
Theorem unavailable_classifier_logs_allowed :
  face_recognition_library Sample.door = None
  /\ (forall image tolerance env st,
        FaceRecognition.recognize_face Sample.unavailable image tolerance env st
        = (Ok "UNKNOWN", st))
  /\ face_recognizer <$> camera (snd (Main.main Sample.config 5 Sample.door
                                                (initial_state ∅)))
     = Some (Some Sample.unavailable)
  /\ content <$> (fs (snd (Main.main Sample.config 5 Sample.door (initial_state ∅)))
                  !! LOG_FILE Sample.config)
     = Some [Utils.header_row;
             CsvRow ["1700000000700000"; "ALLOWED"; "UNKNOWN"; "0.870"; "front_door"]].
Proof.
  split; [reflexivity|]. split.
  - intros. apply recognize_face_unavailable. left. reflexivity.
  - vm_compute. split; reflexivity.
Qed.

(** ** Start-up and shutdown *)

Section Benign.

Lemma logs_only_refl st : logs_only st st.
Proof. repeat split. Qed.

Lemma logs_only_trans st1 st2 st3 :
  logs_only st1 st2 -> logs_only st2 st3 -> logs_only st1 st3.
Proof.
  unfold logs_only. intros (?&?&?&?&?&?&?) (?&?&?&?&?&?&?).
  repeat split; congruence.
Qed.

Lemma benign_ret {A} (a : A) : benign (ret a).
Proof. intros env st. split; [apply logs_only_refl | exact I]. Qed.

Lemma benign_ask : benign ask.
Proof. intros env st. split; [apply logs_only_refl | exact I]. Qed.

Lemma benign_log lvl msg : benign (log lvl msg).
Proof. intros env st. split; [repeat split | exact I]. Qed.

Lemma benign_raise {A} k : benign (@raise A (Exception k)).
Proof. intros env st. split; [apply logs_only_refl | exact I]. Qed.

Lemma benign_bind {A B} (c : M A) (k : A -> M B) :
  benign c -> (forall a, benign (k a)) -> benign (bind c k).
Proof.
  intros Hc Hk env st. unfold bind.
  destruct (Hc env st) as [Hl Hr].
  destruct (c env st) as [[a|[]|] st1]; simpl in *; try contradiction.
  - destruct (Hk a env st1) as [Hl' Hr']. split; [|exact Hr'].
    eapply logs_only_trans; eassumption.
  - split; [exact Hl | exact I].
Qed.

Lemma benign_try_except {A} (c : M A) (h : ExceptionKind -> M A) :
  benign c -> (forall k, benign (h k)) -> benign (try_except c h).
Proof.
  intros Hc Hh env st. unfold try_except, try_catch.
  destruct (Hc env st) as [Hl Hr].
  destruct (c env st) as [[a|[]|] st1]; simpl in *; try contradiction.
  - split; [exact Hl | exact I].
  - destruct (Hh k env st1) as [Hl' Hr']. split; [|exact Hr'].
    eapply logs_only_trans; eassumption.
Qed.

Lemma benign_if {A} (b : bool) (c1 c2 : M A) :
  benign c1 -> benign c2 -> benign (if b then c1 else c2).
Proof. destruct b; auto. Qed.

End Benign.

Create HintDb benign.
#[export] Hint Resolve benign_ret benign_ask benign_log benign_raise : benign.
#[export] Hint Extern 2 (benign (bind _ _)) =>
  apply benign_bind; [|intros ?] : benign.
#[export] Hint Extern 2 (benign (try_except _ _)) =>
  apply benign_try_except; [|intros ?] : benign.
#[export] Hint Extern 3 (benign (if _ then _ else _)) => apply benign_if : benign.
#[export] Hint Extern 3 (benign (match ?x with _ => _ end)) => destruct x : benign.

Section StartUp.

Variable config : Config.t.

Lemma benign_validate_config : benign (Utils.validate_config config).
Proof.
  unfold Utils.validate_config, Utils.ensure_directory.
  apply benign_bind; [auto 20 with benign|]. intros errors1.
  apply benign_bind; [auto 20 with benign|]. intros errors2.
  destruct errors2; [auto with benign|].
  apply benign_bind; [|auto with benign].
  intros env st. split; [repeat split | exact I].
Qed.

Lemma benign_load_model : benign (Main._load_model config).
Proof. unfold Main._load_model. auto 20 with benign. Qed.

Lemma benign_load_loop files : forall known,
  benign (FaceRecognition.load_loop files known).
Proof.
  induction files as [|[name [encoding|]] rest IH]; intros known; simpl;
    auto with benign.
Qed.

Lemma benign_face_recognizer dir : benign (FaceRecognition.__init__ dir).
Proof.
  unfold FaceRecognition.__init__, FaceRecognition._load_library,
         FaceRecognition._load_known_faces.
  apply benign_bind; [auto 20 with benign|]. intros lib. simpl.
  destruct lib; [|auto with benign].
  apply benign_bind; [auto with benign|]. intros env.
  destruct (known_face_files env) eqn:E; [auto with benign|].
  rewrite <- E.
  apply benign_bind; [apply benign_load_loop | auto with benign].
Qed.

Lemma benign_load_face_recognizer : benign (Main._load_face_recognizer config).
Proof.
  unfold Main._load_face_recognizer.
  apply benign_bind; [auto with benign|]. intros env.
  apply benign_if; [auto with benign|].
  apply benign_if; [auto 20 with benign|].
  apply benign_try_except; [|auto with benign].
  apply benign_bind; [auto with benign|]. intros _.
  apply benign_bind; [apply benign_face_recognizer | auto with benign].
Qed.

Lemma benign_init : benign (Main.__init__ config).
Proof.
  unfold Main.__init__.
  apply benign_bind; [auto with benign|]. intros _.
  apply benign_bind; [apply benign_validate_config|]. intros valid.
  apply benign_if; [auto with benign|].
  apply benign_bind; [apply benign_load_model|]. intros loaded.
  apply benign_bind; [apply benign_load_face_recognizer|]. intros recognizer.
  auto with benign.
Qed.

End StartUp.

Section CameraFailure.

Import Main.

Variable config : Config.t.

Lemma messages_only_refl st : messages_only st st.
Proof. repeat split. Qed.

Lemma messages_only_trans st1 st2 st3 :
  messages_only st1 st2 -> messages_only st2 st3 -> messages_only st1 st3.
Proof.
  unfold messages_only. intros (?&?&?&?&?) (?&?&?&?&?).
  repeat split; congruence.
Qed.

Lemma logs_only_messages_only st st' : logs_only st st' -> messages_only st st'.
Proof. unfold logs_only, messages_only. intuition. Qed.

(** The start-up notice returns whatever the Bot API does. *)
Lemma send_startup_sync_effect env st :
  exists st',
    Notification.send_startup_sync config env st = (Ok tt, st')
    /\ messages_only st st'.
Proof.
  unfold Notification.send_startup_sync, Notification.send_startup_notification.
  destruct (SEND_STARTUP_NOTIFICATION config); simpl.
  - unfold_M. simpl.
    destruct (telegram env (length (requests st))); simpl;
      eexists; split; try reflexivity; repeat split.
  - exists st. split; [reflexivity | apply messages_only_refl].
Qed.

(** The error notice returns whatever the Bot API does; when error notices
    are on, it makes exactly one request. *)
Lemma send_error_sync_effect error_msg env st :
  exists st',
    Notification.send_error_sync config error_msg env st = (Ok tt, st')
    /\ messages_only st st'
    /\ (SEND_ERROR_NOTIFICATIONS config = true ->
        requests st'
        = (requests st
           ++ [(send_message (TELEGRAM_USER_ID config)
                  (ErrorText error_msg
                     (strftime env (clock env (ticks st)) "%Y-%m-%d %H:%M:%S")),
                telegram env (length (requests st)))])%list).
Proof.
  unfold Notification.send_error_sync, Notification.send_error_notification.
  destruct (SEND_ERROR_NOTIFICATIONS config); simpl.
  - unfold_M. simpl.
    destruct (telegram env (length (requests st))); simpl;
      eexists; split; try reflexivity; repeat split.
  - exists st. split; [reflexivity|]. split; [apply messages_only_refl|].
    discriminate.
Qed.

Lemma cleanup_effect self env st :
  camera st = Some self ->
  exists st',
    _cleanup env st = (Ok tt, st')
    /\ requests st' = requests st /\ reads st' = reads st
    /\ camera st'
       = Some {| running := false; model := model self;
                 face_recognizer := face_recognizer self; cap := cap self |}.
Proof.
  intros Hc. unfold _cleanup, this, set_running, this, cap_release.
  unfold_M. simpl. rewrite Hc. simpl. rewrite Hc. simpl.
  destruct (cap self); simpl; eexists; split; try reflexivity; repeat split.
Qed.

(** Lines 108-114 of [run]: the camera does not open. *)
Lemma run_without_camera fuel self env st :
  camera st = Some self ->
  camera_opens env (CAMERA_INDEX config) = false ->
  exists st',
    run config fuel env st = (Ok tt, st')
    /\ reads st' = reads st
    /\ camera st'
       = Some {| running := true; model := model self;
                 face_recognizer := face_recognizer self;
                 cap := Some (CAMERA_INDEX config) |}
    /\ (SEND_ERROR_NOTIFICATIONS config = true ->
        exists time outcome,
          last (requests st')
          = Some (send_message (TELEGRAM_USER_ID config)
                    (ErrorText ("Failed to open camera at index "
                                ++ pretty (CAMERA_INDEX config)) time),
                  outcome)).
Proof.
  intros Hc Hopen. unfold run.
  unfold bind at 1. unfold set_running, this. unfold_M. simpl.
  rewrite Hc. simpl.
  set (st1 := set_logs _ _).
  destruct (send_startup_sync_effect env st1) as (st2 & -> & Hm2).
  simpl.
  unfold set_cap, this. unfold_M. simpl.
  destruct Hm2 as (Hfs2 & Hr2 & Hk2 & Hrel2 & Hc2).
  rewrite Hc2. simpl. rewrite Hopen. simpl.
  set (st3 := set_logs _ _).
  destruct (send_error_sync_effect
              ("Failed to open camera at index " ++ pretty (CAMERA_INDEX config))
              env st3) as (st4 & -> & Hm4 & Hreq4).
  destruct Hm4 as (Hfs4 & Hr4 & Hk4 & Hrel4 & Hc4).
  exists st4. split; [reflexivity|]. split; [|split].
  - rewrite Hr4. simpl. rewrite Hr2. reflexivity.
  - rewrite Hc4. reflexivity.
  - intros Hflag. rewrite (Hreq4 Hflag), last_snoc. eauto.
Qed.

Lemma main_without_camera fuel env st :
  camera_opens env (CAMERA_INDEX config) = false ->
  exists st',
    main config fuel env st = (Ok tt, st')
    /\ reads st' = reads st
    /\ (SEND_ERROR_NOTIFICATIONS config = true ->
        exists error_msg time outcome,
          last (requests st')
          = Some (send_message (TELEGRAM_USER_ID config)
                    (ErrorText error_msg time), outcome)
          /\ (forall built,
                fst (__init__ config env (set_camera None st)) = Ok built ->
                error_msg = "Failed to open camera at index "
                            ++ pretty (CAMERA_INDEX config))).
Proof.
  intros Hopen. unfold main.
  unfold bind at 1. unfold modify at 1.
  set (st0 := set_camera None st).
  unfold try_finally, try_catch, bind at 1.
  destruct (benign_init config env st0) as [Hl Hr].
  destruct (__init__ config env st0) as [[built|[k| |]|] st1]; simpl in Hl, Hr;
    try contradiction.
  - destruct Hl as (Ht1 & Hq1 & Hf1 & Hr1 & Hk1 & Hrel1 & Hc1).
    unfold bind at 1. unfold modify at 1.
    destruct (run_without_camera fuel built env (set_camera (Some built) st1)
                                 eq_refl Hopen)
      as (st2 & -> & Hr2 & Hc2 & Hreq2).
    unfold bind at 1. unfold get at 1. rewrite Hc2.
    destruct (cleanup_effect _ env st2 Hc2) as (st3 & E3 & Hq3 & Hr3 & Hc3).
    unfold bind at 1. rewrite E3. unfold_M. simpl.
    eexists. split; [reflexivity|]. simpl. split.
    + rewrite Hr3, Hr2. simpl. exact Hr1.
    + intros Hflag. destruct (Hreq2 Hflag) as (time & outcome & Hlast).
      exists ("Failed to open camera at index " ++ pretty (CAMERA_INDEX config)),
             time, outcome.
      rewrite Hq3. split; [exact Hlast | reflexivity].
  - destruct Hl as (Ht1 & Hq1 & Hf1 & Hr1 & Hk1 & Hrel1 & Hc1).
    unfold bind at 1. unfold log at 1. unfold modify at 1.
    set (st2 := set_logs _ st1).
    unfold try_except_all, try_catch.
    destruct (send_error_sync_effect "Fatal error" env st2)
      as (st3 & -> & (Hf3 & Hr3 & Hk3 & Hrel3 & Hc3) & Hreq3).
    unfold bind at 1. unfold get at 1. rewrite Hc3. simpl. rewrite Hc1. simpl.
    unfold_M. simpl.
    eexists. split; [reflexivity|]. simpl. split.
    + rewrite Hr3. simpl. exact Hr1.
    + intros Hflag. rewrite (Hreq3 Hflag), last_snoc.
      eexists _, _, _. split; [reflexivity|]. discriminate.
Qed.

(** C10, as amended. When the camera does not open, [main()] returns
    normally after its cleanup, so the process ends with exit status 0;
    no frame has been read; and, when error notices are on, the last
    request to the Bot API is an error notice to the user, the one about
    the camera whenever the constructor had returned. *)
Theorem camera_failure_ends_with_status_zero fuel env st :
  camera_opens env (CAMERA_INDEX config) = false ->
  exit_status (fst (main config fuel env st)) = Some 0
  /\ reads (snd (main config fuel env st)) = reads st
  /\ (SEND_ERROR_NOTIFICATIONS config = true ->
      exists error_msg time outcome,
        last (requests (snd (main config fuel env st)))
        = Some (send_message (TELEGRAM_USER_ID config)
                  (ErrorText error_msg time), outcome)
        /\ (forall built,
              fst (__init__ config env (set_camera None st)) = Ok built ->
              error_msg = "Failed to open camera at index "
                          ++ pretty (CAMERA_INDEX config))).
Proof.
  intros Hopen.
  destruct (main_without_camera fuel env st Hopen) as (st' & -> & Hr & Hreq).
  simpl. auto.
Qed.

End CameraFailure.

Lemma camera_failure_ends_with_status_zero_witness :
  camera_opens (Sample.with_camera false Sample.door) (CAMERA_INDEX Sample.config)
  = false
  /\ Main.exit_status
       (fst (Main.main Sample.config 5 (Sample.with_camera false Sample.door)
                       (initial_state ∅))) = Some 0
  /\ reads (snd (Main.main Sample.config 5 (Sample.with_camera false Sample.door)
                           (initial_state ∅))) = 0%nat
  /\ last (requests (snd (Main.main Sample.config 5
                                    (Sample.with_camera false Sample.door)
                                    (initial_state ∅))))
     = Some (send_message "1042611352"
               (ErrorText "Failed to open camera at index 0" "1700000000100000"),
             None).
Proof.
  split; [reflexivity|].
  destruct (camera_failure_ends_with_status_zero
              Sample.config 5 (Sample.with_camera false Sample.door)
              (initial_state ∅) eq_refl) as (Hexit & Hreads & _).
  split; [exact Hexit|]. split; [exact Hreads|].
  vm_compute. reflexivity.
Defined.

(** C10 fails as stated: the camera does not open, no frame is read, the
    error notice is sent, and the exit status is 0, not a non-zero one. *)
Lemma camera_failure_exit_status_is_zero :
  camera_opens (Sample.with_camera false Sample.door) (CAMERA_INDEX Sample.config)
  = false
  /\ reads (snd (Main.main Sample.config 5 (Sample.with_camera false Sample.door)
                           (initial_state ∅))) = 0%nat
  /\ Main.exit_status
       (fst (Main.main Sample.config 5 (Sample.with_camera false Sample.door)
                       (initial_state ∅))) = Some 0
  /\ ~ (exists code,
          code <> 0
          /\ Main.exit_status
               (fst (Main.main Sample.config 5 (Sample.with_camera false Sample.door)
                               (initial_state ∅))) = Some code).
Proof.
  vm_compute. repeat split; try reflexivity.
  intros (code & Hne & Heq). injection Heq as <-. apply Hne. reflexivity.
Qed.

(** * More of the code *)

(** ** notification.py: one notifier over several dispatches *)

Section NotifierFacts.

Import Notification.

Variable config : Config.t.

Lemma photo_messages_only chat_id photo_path caption person_type env st :
  messages_only st (snd (_send_photo_with_caption chat_id photo_path caption
                                                  person_type env st)).
Proof.
  unfold _send_photo_with_caption. unfold_M. simpl.
  destruct (fs st !! photo_path) as [f|]; simpl; [|repeat split].
  destruct (can_read f); simpl.
  - destruct (telegram env (length (requests st))); simpl; [|repeat split].
    destruct (telegram env _); repeat split.
  - destruct (telegram env (length (requests st))); repeat split.
Qed.

(** The requests a photo dispatch adds all go to its destination. *)
Lemma photo_requests chat_id photo_path caption person_type env st :
  exists added,
    requests (snd (_send_photo_with_caption chat_id photo_path caption
                                            person_type env st))
    = (requests st ++ added)%list
    /\ Forall (fun r => chat_of (fst r) = chat_id) added.
Proof.
  unfold _send_photo_with_caption. unfold_M. simpl.
  destruct (fs st !! photo_path) as [f|]; simpl;
    [|exists []; split; [by rewrite app_nil_r | constructor]].
  destruct (can_read f); simpl.
  - destruct (telegram env (length (requests st))); simpl.
    + destruct (telegram env _); simpl; rewrite <- app_assoc; simpl;
        eexists; split; try reflexivity; repeat constructor.
    + eexists; split; try reflexivity; repeat constructor.
  - destruct (telegram env (length (requests st))); simpl;
      eexists; split; try reflexivity; repeat constructor.
Qed.

Lemma send_detection_alert_effect
    self person_type confidence image_path person_name env st :
  exists self' st',
    send_detection_alert config self person_type confidence image_path
                         person_name env st = (Ok self', st')
    /\ messages_only st st'.
Proof.
  destruct (fst (_check_rate_limit config self person_name env st)) as [[|]| |] eqn:E;
    try (rewrite check_rate_limit_eq in E; discriminate).
  - rewrite check_rate_limit_eq in E. simpl in E. injection E as E.
    unfold send_detection_alert, bind at 1.
    rewrite check_rate_limit_eq, E. simpl.
    unfold try_except, try_catch, bind at 1. unfold now at 1. simpl.
    unfold bind at 1. unfold ask at 1. simpl.
    set (message := DetectionText _ _ _ _ _ _).
    destruct (attach (SEND_IMAGE_WITH_ALERT config) image_path) as [p|].
    + unfold bind at 1.
      match goal with
      | |- context [_send_photo_with_caption ?a ?b ?c ?d ?e ?s] =>
          pose proof (photo_messages_only a b c d e s) as Hm1;
          destruct (photo_effect a b c d e s) as (st1 & E1 & Ht1)
      end.
      rewrite E1 in Hm1 |- *. simpl in Hm1.
      unfold bind at 1.
      destruct (truthy (channel_id self) && negb (str_eqb (channel_id self) "@rpi5doorcam")).
      * pose proof (photo_messages_only (channel_id self) p message person_type env st1)
          as Hm2.
        destruct (photo_effect (channel_id self) p message person_type env st1)
          as (st2 & E2 & Ht2).
        rewrite E2 in Hm2 |- *. simpl in Hm2.
        unfold_M. unfold _update_rate_limit. unfold_M. simpl.
        eexists _, _. split; [reflexivity|].
        unfold messages_only in *. simpl in *. intuition congruence.
      * unfold_M. unfold _update_rate_limit. unfold_M. simpl.
        eexists _, _. split; [reflexivity|].
        unfold messages_only in *. simpl in *. intuition congruence.
    + unfold_M. simpl.
      destruct (telegram env (length (requests st))) as [k|]; simpl.
      * destruct k; simpl; eexists _, _; (split; [reflexivity | repeat split]).
      * destruct (truthy (channel_id self) && negb (str_eqb (channel_id self) "@rpi5doorcam"));
          unfold _update_rate_limit; unfold_M; simpl;
          eexists _, _; (split; [reflexivity | repeat split]).
  - rewrite (suppressed_alert_eq config self person_type confidence image_path
                                 person_name env st E).
    eexists _, _. split; [reflexivity|].
    destruct (DEBUG_MODE config); repeat split.
Qed.

(** X2. [send_detection_sync] returns normally whatever the Bot API and the
    disk answer, and leaves the disk, the camera and the capture counters
    as they were: a dispatch reads the clock, talks to the Bot API and logs,
    nothing else. *)
Theorem send_detection_sync_only_sends
    person_type confidence image_path person_name env st :
  fst (send_detection_sync config person_type confidence image_path
                           person_name env st) = Ok tt
  /\ messages_only st (snd (send_detection_sync config person_type confidence
                                                image_path person_name env st)).
Proof.
  unfold send_detection_sync, bind.
  destruct (send_detection_alert_effect (__init__ config) person_type confidence
              image_path person_name env st) as (self' & st' & -> & Hm).
  split; [reflexivity | exact Hm].
Qed.

(** X1. On one notifier, an alert that passed the check and was recorded
    (a photo was attached, or the text was delivered) opens a window for its
    person: a later attempt for the same person is suppressed, with no
    request made, while the clock is less than [MIN_DETECTION_INTERVAL]
    past the recorded time, and passes the check from then on. The check
    for any other person is what it was before the alert. *)
Theorem recorded_alert_opens_window_for_its_person
    self person_type confidence image_path person_name env st :
  fst (_check_rate_limit config self person_name env st) = Ok true ->
  attach (SEND_IMAGE_WITH_ALERT config) image_path <> None
  \/ telegram env (length (requests st)) = None ->
  exists self1,
    fst (send_detection_alert config self person_type confidence image_path
                              person_name env st) = Ok self1
    /\ (forall person_type2 confidence2 image_path2 st2,
          clock env (ticks st2) - clock env (S (S (ticks st)))
          < seconds (MIN_DETECTION_INTERVAL config) ->
          fst (send_detection_alert config self1 person_type2 confidence2
                                    image_path2 person_name env st2) = Ok self1
          /\ requests (snd (send_detection_alert config self1 person_type2
                              confidence2 image_path2 person_name env st2))
             = requests st2)
    /\ (forall st2,
          seconds (MIN_DETECTION_INTERVAL config)
          <= clock env (ticks st2) - clock env (S (S (ticks st))) ->
          fst (_check_rate_limit config self1 person_name env st2) = Ok true)
    /\ (forall other st2,
          other <> person_name ->
          _check_rate_limit config self1 other env st2
          = _check_rate_limit config self other env st2).
Proof.
  intros Hcheck Hrec.
  destruct (dispatched_alert_eq config self person_type confidence image_path
                                person_name env st Hcheck) as (st' & E).
  rewrite E. simpl.
  set (self1 := set_last_alert_time _ self).
  assert (Hself1 :
            match attach (SEND_IMAGE_WITH_ALERT config) image_path,
                  telegram env (length (requests st)) with
            | None, Some _ => self
            | _, _ => self1
            end = self1).
  { destruct (attach (SEND_IMAGE_WITH_ALERT config) image_path) eqn:Ha;
      [reflexivity|].
    destruct Hrec as [Hrec | Hrec]; [congruence|].
    rewrite Hrec. reflexivity. }
  rewrite Hself1. exists self1. split; [reflexivity|].
  assert (Hlast : last_alert_time self1 !! person_name
                  = Some (clock env (S (S (ticks st)))))
    by (simpl; apply lookup_insert_eq).
  split; [|split].
  - intros person_type2 confidence2 image_path2 st2 Hlt.
    assert (Hsup : fst (_check_rate_limit config self1 person_name env st2) = Ok false).
    { rewrite check_rate_limit_eq. cbn [fst]. rewrite Hlast. simpl. f_equal. lia. }
    rewrite (suppressed_alert_eq config self1 person_type2 confidence2 image_path2
                                 person_name env st2 Hsup).
    destruct (DEBUG_MODE config); split; reflexivity.
  - intros st2 Hge. apply check_rate_limit_true. rewrite Hlast. simpl. exact Hge.
  - intros other st2 Hne. rewrite !check_rate_limit_eq.
    replace (last_alert_time self1 !! other) with (last_alert_time self !! other);
      [reflexivity|].
    simpl. by rewrite lookup_insert_ne.
Qed.

(** X3. An alert without an attached photo, or with the channel left at
    ["@rpi5doorcam"] or empty, addresses every request it makes to the
    user: the channel receives photo alerts only. *)
Theorem channel_receives_photo_alerts_only
    self person_type confidence image_path person_name env st :
  attach (SEND_IMAGE_WITH_ALERT config) image_path = None
  \/ channel_id self = "@rpi5doorcam" \/ channel_id self = "" ->
  exists added,
    requests (snd (send_detection_alert config self person_type confidence
                                        image_path person_name env st))
    = (requests st ++ added)%list
    /\ Forall (fun r => chat_of (fst r) = user_id self) added.
Proof.
  intros Hcase.
  destruct (fst (_check_rate_limit config self person_name env st)) as [[|]| |] eqn:E;
    try (rewrite check_rate_limit_eq in E; discriminate).
  - rewrite check_rate_limit_eq in E. simpl in E. injection E as E.
    unfold send_detection_alert, bind at 1.
    rewrite check_rate_limit_eq, E. simpl.
    unfold try_except, try_catch, bind at 1. unfold now at 1. simpl.
    unfold bind at 1. unfold ask at 1. simpl.
    set (message := DetectionText _ _ _ _ _ _).
    destruct (attach (SEND_IMAGE_WITH_ALERT config) image_path) as [p|].
    + assert (Hch : truthy (channel_id self)
                    && negb (str_eqb (channel_id self) "@rpi5doorcam") = false).
      { destruct Hcase as [? | [-> | ->]]; [discriminate | |]; reflexivity. }
      rewrite Hch. unfold bind at 1.
      match goal with
      | |- context [_send_photo_with_caption ?a ?b ?c ?d ?e ?s] =>
          destruct (photo_requests a b c d e s) as (added & Hreq & Hall);
          destruct (photo_effect a b c d e s) as (st1 & E1 & Ht1)
      end.
      rewrite E1 in Hreq |- *. simpl in Hreq.
      unfold_M. unfold _update_rate_limit. unfold_M. simpl.
      exists added. split; [exact Hreq | exact Hall].
    + unfold_M. simpl.
      destruct (telegram env (length (requests st))) as [k|]; simpl.
      * destruct k; simpl; eexists; (split; [reflexivity | repeat constructor]).
      * destruct (truthy (channel_id self) && negb (str_eqb (channel_id self) "@rpi5doorcam"));
          unfold _update_rate_limit; unfold_M; simpl;
          eexists; (split; [reflexivity | repeat constructor]).
  - rewrite (suppressed_alert_eq config self person_type confidence image_path
                                 person_name env st E).
    exists []. split; [|constructor].
    destruct (DEBUG_MODE config); simpl; by rewrite app_nil_r.
Qed.

(** X4. The start-up and error notices know no rate limit and never raise:
    each returns normally and makes exactly one request to the user when
    its flag is on, whatever the outcome of that request, and none when its
    flag is off. *)
Theorem notices_depend_on_their_flags_only error_msg env st :
  fst (send_error_sync config error_msg env st) = Ok tt
  /\ requests (snd (send_error_sync config error_msg env st))
     = (requests st
        ++ if SEND_ERROR_NOTIFICATIONS config
           then [(send_message (TELEGRAM_USER_ID config)
                    (ErrorText error_msg
                       (strftime env (clock env (ticks st)) "%Y-%m-%d %H:%M:%S")),
                  telegram env (length (requests st)))]
           else [])%list
  /\ fst (send_startup_sync config env st) = Ok tt
  /\ requests (snd (send_startup_sync config env st))
     = (requests st
        ++ if SEND_STARTUP_NOTIFICATION config
           then [(send_message (TELEGRAM_USER_ID config)
                    (StartupText
                       (strftime env (clock env (ticks st)) "%Y-%m-%d %H:%M:%S")
                       (if ENABLE_FACE_RECOGNITION config
                        then "Enabled" else "Disabled")),
                  telegram env (length (requests st)))]
           else [])%list.
Proof.
  unfold send_error_sync, send_error_notification,
         send_startup_sync, send_startup_notification.
  destruct (SEND_ERROR_NOTIFICATIONS config),
           (SEND_STARTUP_NOTIFICATION config); simpl; unfold_M; simpl;
    destruct (telegram env (length (requests st))); simpl;
    rewrite ?app_nil_r; repeat split; reflexivity.
Qed.

End NotifierFacts.

Lemma recorded_alert_opens_window_for_its_person_witness :
  fst (Notification._check_rate_limit
         Sample.config (Notification.__init__ Sample.config) "Unknown"
         Sample.door (initial_state ∅)) = Ok true
  /\ (Notification.attach (SEND_IMAGE_WITH_ALERT Sample.config) None <> None
      \/ telegram Sample.door (length (requests (initial_state ∅))) = None)
  /\ exists self1,
       fst (Notification.send_detection_alert
              Sample.config (Notification.__init__ Sample.config)
              "INTRUDER" (9 # 10) None "Unknown" Sample.door (initial_state ∅))
       = Ok self1
       /\ fst (Notification.send_detection_alert
                 Sample.config self1 "INTRUDER" (9 # 10) None "Unknown"
                 Sample.door (set_ticks 3 (initial_state ∅))) = Ok self1
       /\ requests (snd (Notification.send_detection_alert
                           Sample.config self1 "INTRUDER" (9 # 10) None "Unknown"
                           Sample.door (set_ticks 3 (initial_state ∅)))) = [].
Proof.
  split; [vm_compute; reflexivity|]. split; [right; reflexivity|].
  destruct (recorded_alert_opens_window_for_its_person
              Sample.config (Notification.__init__ Sample.config)
              "INTRUDER" (9 # 10) None "Unknown" Sample.door (initial_state ∅))
    as (self1 & E & Hwin & _); [vm_compute; reflexivity | right; reflexivity |].
  exists self1. split; [exact E|].
  apply (Hwin "INTRUDER" (9 # 10) None (set_ticks 3 (initial_state ∅))).
  vm_compute. reflexivity.
Defined.

Lemma channel_receives_photo_alerts_only_witness :
  (Notification.attach (SEND_IMAGE_WITH_ALERT Sample.config)
                       (Some "detections/missing.jpg") = None
   \/ Notification.channel_id (Notification.__init__ Sample.config) = "@rpi5doorcam"
   \/ Notification.channel_id (Notification.__init__ Sample.config) = "")
  /\ exists added,
       requests (snd (Notification.send_detection_alert
                        Sample.config (Notification.__init__ Sample.config)
                        "INTRUDER" (9 # 10) (Some "detections/missing.jpg")
                        "Unknown" Sample.door (initial_state ∅)))
       = (requests (initial_state ∅) ++ added)%list
       /\ Forall (fun r => chat_of (fst r)
                           = Notification.user_id (Notification.__init__ Sample.config))
                 added.
Proof.
  split; [right; left; reflexivity|].
  apply (channel_receives_photo_alerts_only
           Sample.config (Notification.__init__ Sample.config)
           "INTRUDER" (9 # 10) (Some "detections/missing.jpg") "Unknown"
           Sample.door (initial_state ∅)).
  right. left. reflexivity.
Defined.

(** ** utils.py: the statistics of the log *)

Section StatisticsFacts.

Import Statistics.

Variable config : Config.t.
Variable fromisoformat : string -> option Z.
Variable parse_float : string -> option Q.

Lemma size_add_name (name : option string) (names : gset (option string)) :
  (size ({[name]} ∪ names) <= S (size names))%nat.
Proof.
  rewrite size_union_alt, size_singleton.
  apply le_n_S, subseteq_size.
  intros x Hx. apply elem_of_difference in Hx as [Hx _]. exact Hx.
Qed.

Lemma count_row_tallied cutoff fieldnames fields stats confidences :
  tallied stats ->
  tallied (count_row fromisoformat parse_float cutoff fieldnames fields
                     stats confidences).1.1.
Proof.
  intros (Ha & Hi & Hsum & Hp). unfold count_row.
  destruct (row_get fieldnames fields "timestamp") as [|[text|]];
    try (repeat split; assumption).
  destruct (fromisoformat text) as [timestamp|]; [|repeat split; assumption].
  destruct (timestamp <? cutoff); [repeat split; assumption|].
  destruct (row_get fieldnames fields "person_name") as [|name]; simpl.
  { unfold tallied. simpl. destruct (unique_persons stats); repeat split; lia. }
  destruct (unique_persons stats) as [names|n] eqn:Hu; simpl.
  2:{ unfold tallied. simpl. rewrite Hu. repeat split; lia. }
  pose proof (size_add_name name names) as Hsize.
  destruct (row_get fieldnames fields "person_type") as [|person_type]; simpl.
  { unfold tallied. simpl. repeat split; lia. }
  assert (Hcounted :
            tallied (if bool_decide (person_type = Some "ALLOWED")
                     then set_allowed
                            (allowed_count stats + 1)
                            (set_persons (PersonSet ({[name]} ∪ names))
                               (set_total (total_detections stats + 1) stats))
                     else set_intruder
                            (intruder_count stats + 1)
                            (set_persons (PersonSet ({[name]} ∪ names))
                               (set_total (total_detections stats + 1) stats)))).
  { destruct (bool_decide _); unfold tallied; simpl; repeat split; lia. }
  destruct (row_get fieldnames fields "confidence") as [|[number|]]; simpl;
    try exact Hcounted.
  destruct (parse_float number); exact Hcounted.
Qed.

Lemma read_rows_tallied cutoff fieldnames chunks :
  forall stats confidences failed,
    tallied stats ->
    tallied (read_rows fromisoformat parse_float cutoff fieldnames chunks
                       stats confidences failed).1.1.1.
Proof.
  induction chunks as [|[fields|img] rest IH]; intros stats confidences failed Ht;
    simpl; try assumption.
  destruct fields as [|field fields]; [apply IH; assumption|].
  pose proof (count_row_tallied cutoff fieldnames (field :: fields) stats
                                confidences Ht) as Ht'.
  destruct (count_row _ _ _ _ _ _ _) as [[stats' confidences'] raised].
  apply IH. exact Ht'.
Qed.

(** A column of the header is a key of every row. *)
Lemma row_get_column fieldnames key :
  In key fieldnames -> forall fields, row_get fieldnames fields key <> KeyError.
Proof.
  induction fieldnames as [|name names IH]; intros Hin fields; [destruct Hin|].
  simpl. destruct (row_get names (tail fields) key) eqn:E; [|discriminate].
  unfold str_eqb. case_bool_decide; [discriminate|].
  destruct Hin as [Hin | Hin]; [congruence|].
  exfalso. exact (IH Hin _ E).
Qed.

(** With both columns in the header, every counted row is allowed or
    intruder. *)
Lemma count_row_balanced cutoff fieldnames fields stats confidences :
  In "person_name" fieldnames -> In "person_type" fieldnames ->
  (exists names, unique_persons stats = PersonSet names) ->
  allowed_count stats + intruder_count stats = total_detections stats ->
  let stats' := (count_row fromisoformat parse_float cutoff fieldnames fields
                           stats confidences).1.1 in
  (exists names, unique_persons stats' = PersonSet names)
  /\ allowed_count stats' + intruder_count stats' = total_detections stats'.
Proof.
  intros Hname Htype (names & Hu) Hsum. unfold count_row.
  destruct (row_get fieldnames fields "timestamp") as [|[text|]]; simpl; eauto.
  destruct (fromisoformat text) as [timestamp|]; simpl; eauto.
  destruct (timestamp <? cutoff); simpl; eauto.
  pose proof (row_get_column fieldnames "person_name" Hname fields) as Hn.
  pose proof (row_get_column fieldnames "person_type" Htype fields) as Ht.
  destruct (row_get fieldnames fields "person_name") as [|name]; [congruence|].
  rewrite Hu.
  destruct (row_get fieldnames fields "person_type") as [|person_type];
    [congruence|].
  assert (Hcounted :
            forall s,
              s = (if bool_decide (person_type = Some "ALLOWED")
                   then set_allowed
                          (allowed_count stats + 1)
                          (set_persons (PersonSet ({[name]} ∪ names))
                             (set_total (total_detections stats + 1) stats))
                   else set_intruder
                          (intruder_count stats + 1)
                          (set_persons (PersonSet ({[name]} ∪ names))
                             (set_total (total_detections stats + 1) stats))) ->
              (exists names', unique_persons s = PersonSet names')
              /\ allowed_count s + intruder_count s = total_detections s).
  { intros s ->. destruct (bool_decide _); simpl; split; eauto; lia. }
  destruct (row_get fieldnames fields "confidence") as [|[number|]]; simpl;
    try (apply Hcounted; reflexivity).
  destruct (parse_float number); apply Hcounted; reflexivity.
Qed.

Lemma read_rows_balanced cutoff fieldnames chunks :
  In "person_name" fieldnames -> In "person_type" fieldnames ->
  forall stats confidences failed,
    (exists names, unique_persons stats = PersonSet names) ->
    allowed_count stats + intruder_count stats = total_detections stats ->
    let stats' := (read_rows fromisoformat parse_float cutoff fieldnames chunks
                             stats confidences failed).1.1.1 in
    allowed_count stats' + intruder_count stats' = total_detections stats'.
Proof.
  intros Hname Htype.
  induction chunks as [|[fields|img] rest IH]; intros stats confidences failed Hu Hsum;
    simpl; try assumption.
  destruct fields as [|field fields]; [apply IH; assumption|].
  destruct (count_row_balanced cutoff fieldnames (field :: fields) stats
                               confidences Hname Htype Hu Hsum) as [Hu' Hsum'].
  destruct (count_row _ _ _ _ _ _ _) as [[stats' confidences'] raised].
  apply IH; assumption.
Qed.

Lemma log_rows_return failed env st :
  exists st',
    for_each (replicate failed tt) (fun _ => log DEBUG "Error parsing log row") env st
    = (Ok tt, st')
    /\ logs_only st st'.
Proof.
  revert st. induction failed as [|n IH]; intros st; simpl.
  - exists st. split; [reflexivity | apply logs_only_refl].
  - unfold bind. unfold log at 1. unfold modify at 1.
    destruct (IH (set_logs (logs st ++ [(DEBUG, "Error parsing log row")]) st))
      as (st' & -> & Hl).
    exists st'. split; [reflexivity|].
    eapply logs_only_trans; [|exact Hl]. repeat split.
Qed.

(** The answer of [get_detection_stats], in terms of what the loop
    returns. *)
Lemma get_detection_stats_answer hours env st :
  fst (get_detection_stats config fromisoformat parse_float hours env st)
  = Ok match fs st !! LOG_FILE config with
       | None => empty_stats
       | Some f =>
           if can_read f then
             let '(stats, confidences, failed, decoded) :=
               read_log fromisoformat parse_float
                        (clock env (ticks st) - timedelta_hours hours)
                        (content f) empty_stats in
             if decoded then
               let stats := match confidences with
                            | [] => stats
                            | _ => set_average (mean confidences) stats
                            end in
               match unique_persons stats with
               | PersonSet names =>
                   set_persons (PersonCount (Z.of_nat (size names))) stats
               | PersonCount _ => stats
               end
             else stats
           else empty_stats
       end.
Proof.
  unfold get_detection_stats. unfold bind at 1. unfold get at 1.
  destruct (fs st !! LOG_FILE config) as [f|]; [|reflexivity].
  unfold bind at 1. unfold now at 1.
  destruct (can_read f); simpl; [|reflexivity].
  destruct (read_log _ _ _ _ _) as [[[stats confidences] failed] decoded].
  unfold bind at 1.
  destruct (log_rows_return failed env (set_ticks (S (ticks st)) st))
    as (st' & -> & _).
  destruct decoded; simpl; [|reflexivity].
  destruct confidences; simpl; destruct (unique_persons stats); reflexivity.
Qed.

Lemma tallied_empty : tallied empty_stats.
Proof.
  unfold tallied, empty_stats. cbn -[size]. rewrite ?size_empty.
  repeat split; lia.
Qed.

Lemma count_row_keeps_set cutoff fieldnames fields stats confidences :
  (exists names, unique_persons stats = PersonSet names) ->
  exists names,
    unique_persons (count_row fromisoformat parse_float cutoff fieldnames fields
                              stats confidences).1.1 = PersonSet names.
Proof.
  intros (names & Hu). unfold count_row.
  destruct (row_get fieldnames fields "timestamp") as [|[text|]]; simpl; eauto.
  destruct (fromisoformat text) as [timestamp|]; simpl; eauto.
  destruct (timestamp <? cutoff); simpl; eauto.
  destruct (row_get fieldnames fields "person_name") as [|name]; simpl; eauto.
  rewrite Hu.
  destruct (row_get fieldnames fields "person_type") as [|person_type]; simpl; eauto.
  destruct (row_get fieldnames fields "confidence") as [|[number|]]; simpl;
    try destruct (parse_float number); destruct (bool_decide _); simpl; eauto.
Qed.

Lemma read_rows_outcome cutoff fieldnames chunks :
  forall stats confidences failed,
    (exists names, unique_persons stats = PersonSet names) ->
    let r := read_rows fromisoformat parse_float cutoff fieldnames chunks
                       stats confidences failed in
    (exists names, unique_persons r.1.1.1 = PersonSet names)
    /\ r.2 = forallb is_row chunks.
Proof.
  induction chunks as [|[fields|img] rest IH]; intros stats confidences failed Hu;
    simpl; auto.
  destruct fields as [|field fields]; [apply IH; assumption|].
  pose proof (count_row_keeps_set cutoff fieldnames (field :: fields) stats
                                  confidences Hu) as Hu'.
  destruct (count_row _ _ _ _ _ _ _) as [[stats' confidences'] raised].
  apply IH. exact Hu'.
Qed.

Lemma read_log_outcome cutoff chunks :
  let r := read_log fromisoformat parse_float cutoff chunks empty_stats in
  (exists names, unique_persons r.1.1.1 = PersonSet names)
  /\ r.2 = forallb is_row chunks
  /\ tallied r.1.1.1.
Proof.
  pose proof tallied_empty as Hempty.
  destruct chunks as [|[fieldnames|img] rows]; simpl.
  - split; [eauto|]. split; [reflexivity | exact Hempty].
  - destruct (read_rows_outcome cutoff fieldnames rows empty_stats [] 0%nat)
      as [Hu Hd]; [simpl; eauto|].
    split; [exact Hu|]. split; [exact Hd|].
    apply read_rows_tallied. exact Hempty.
  - split; [eauto|]. split; [reflexivity | exact Hempty].
Qed.

(** X5. Whatever the log holds, the statistics are consistent: the counts
    are not negative, allowed and intruder together do not exceed the total,
    and a count of unique persons lies between 0 and the total. When the
    header has the columns [person_name] and [person_type], allowed and
    intruder add up to the total exactly. *)
Theorem statistics_add_up hours env st :
  exists stats,
    fst (get_detection_stats config fromisoformat parse_float hours env st)
    = Ok stats
    /\ tallied stats
    /\ (forall f fieldnames rows,
          fs st !! LOG_FILE config = Some f ->
          content f = CsvRow fieldnames :: rows ->
          In "person_name" fieldnames -> In "person_type" fieldnames ->
          allowed_count stats + intruder_count stats = total_detections stats).
Proof.
  eexists. split; [apply get_detection_stats_answer|].
  pose proof tallied_empty as Hempty.
  destruct (fs st !! LOG_FILE config) as [f|];
    [|split; [exact Hempty | intros; discriminate]].
  destruct (can_read f);
    [|split; [exact Hempty | intros; reflexivity]].
  set (cutoff := clock env (ticks st) - timedelta_hours hours).
  destruct (read_log_outcome cutoff (content f)) as ((names & Hu) & Hd & Ht).
  assert (Hbal : forall fieldnames rows,
             content f = CsvRow fieldnames :: rows ->
             In "person_name" fieldnames -> In "person_type" fieldnames ->
             let s := (read_log fromisoformat parse_float cutoff (content f)
                                empty_stats).1.1.1 in
             allowed_count s + intruder_count s = total_detections s).
  { intros fieldnames rows -> Hn Hp. simpl.
    apply read_rows_balanced; simpl; eauto. }
  destruct (read_log _ _ _ _ _) as [[[stats confidences] failed] decoded].
  simpl in *.
  destruct decoded.
  - assert (Hfinal :
              forall s,
                unique_persons s = PersonSet names ->
                total_detections s = total_detections stats ->
                allowed_count s = allowed_count stats ->
                intruder_count s = intruder_count stats ->
                tallied (match unique_persons s with
                         | PersonSet names' =>
                             set_persons (PersonCount (Z.of_nat (size names'))) s
                         | PersonCount _ => s
                         end)
                /\ (forall f0 fieldnames rows,
                      Some f = Some f0 ->
                      content f0 = CsvRow fieldnames :: rows ->
                      In "person_name" fieldnames -> In "person_type" fieldnames ->
                      allowed_count (match unique_persons s with
                                     | PersonSet names' =>
                                         set_persons
                                           (PersonCount (Z.of_nat (size names'))) s
                                     | PersonCount _ => s
                                     end)
                      + intruder_count (match unique_persons s with
                                        | PersonSet names' =>
                                            set_persons
                                              (PersonCount (Z.of_nat (size names'))) s
                                        | PersonCount _ => s
                                        end)
                      = total_detections (match unique_persons s with
                                          | PersonSet names' =>
                                              set_persons
                                                (PersonCount (Z.of_nat (size names'))) s
                                          | PersonCount _ => s
                                          end))).
    { intros s Hs Htot Hall Hint. rewrite Hs. split.
      - destruct Ht as (Ha & Hi & Hsum & Hp). rewrite Hu in Hp.
        unfold tallied. simpl. rewrite Htot, Hall, Hint. repeat split; lia.
      - intros f0 fieldnames rows Hf Hc Hn Hp. injection Hf as <-.
        simpl. rewrite Htot, Hall, Hint. eapply Hbal; eassumption. }
    destruct confidences; apply Hfinal; auto.
  - split; [exact Ht|].
    intros f0 fieldnames rows Hf Hc Hn Hp. injection Hf as <-.
    eapply Hbal; eassumption.
Qed.







(** One call of [save_detection_csv] on a writable log, with what it does
    to the clock and to the permissions of the file. *)
Lemma save_detection_csv_file d env st :
  Utils.log_writable config env st = true ->
  exists st' f',
    Utils.log_detection config d env st = (Ok tt, st')
    /\ ticks st' = ticks st
    /\ fs st' !! LOG_FILE config = Some f'
    /\ can_append f' = true
    /\ can_read f' = match fs st !! LOG_FILE config with
                     | Some f => can_read f
                     | None => true
                     end
    /\ content f'
       = (match fs st !! LOG_FILE config with
          | Some f => content f
          | None => [Utils.header_row]
          end ++ [Utils.data_row d])%list.
Proof.
  unfold Utils.log_writable, Utils.log_detection, Utils.save_detection_csv,
    Utils.open_append, Utils.write.
  unfold_M. simpl.
  destruct (fs st !! LOG_FILE config) as [f|] eqn:E; intros Hw; simpl.
  - rewrite Hw. simpl. rewrite E. simpl.
    eexists _, _. split; [reflexivity|]. simpl.
    rewrite lookup_insert_eq. simpl. auto.
  - rewrite Hw. simpl. repeat (rewrite lookup_insert_eq; simpl).
    eexists _, _. split; [reflexivity|]. simpl.
    rewrite lookup_insert_eq. simpl. auto.
Qed.





End StatisticsFacts.



(** ** utils.py: what logging, cleaning and validating never do *)

Section UtilsSafety.

Import Utils.

Variable config : Config.t.

(** X9. [save_detection_csv] returns normally in every surrounding, reads
    no clock and sends nothing; on disk it touches the log only, and a log
    that was there keeps its content as a prefix. When the log can be
    neither appended to nor created, the disk stays as it was. *)
Theorem save_detection_csv_touches_the_log_only
    timestamp person_type person_name confidence camera env st :
  let r := save_detection_csv config timestamp person_type person_name
                              confidence camera env st in
  fst r = Ok tt
  /\ ticks (snd r) = ticks st
  /\ requests (snd r) = requests st
  /\ (forall path, path <> LOG_FILE config ->
                   fs (snd r) !! path = fs st !! path)
  /\ (forall f, fs st !! LOG_FILE config = Some f ->
                exists f' added,
                  fs (snd r) !! LOG_FILE config = Some f'
                  /\ content f' = (content f ++ added)%list)
  /\ (log_writable config env st = false -> fs (snd r) = fs st).
Proof.
  unfold log_writable, save_detection_csv, open_append, write.
  unfold_M. simpl.
  destruct (fs st !! LOG_FILE config) as [f|] eqn:E; simpl.
  - destruct (can_append f) eqn:Ha; simpl.
    + rewrite E. simpl. repeat split.
      * intros path Hp. by rewrite lookup_insert_ne.
      * intros f0 Hf0. injection Hf0 as <-.
        rewrite lookup_insert_eq. eexists _, _. split; reflexivity.
      * discriminate.
    + repeat split.
      intros f0 Hf0. injection Hf0 as <-. exists f, [].
      rewrite app_nil_r. auto.
  - destruct (can_create env (LOG_FILE config)) eqn:Hc; simpl.
    + repeat (rewrite lookup_insert_eq; simpl). repeat split.
      * intros path Hp. by rewrite !lookup_insert_ne.
      * discriminate.
      * discriminate.
    + repeat split. discriminate.
Qed.





End UtilsSafety.

(** ** face_recognition.py: loading, ties and failures *)

Section RecognizerFacts.

Import FaceRecognition.

Lemma benign_lift {A} (r : Result A) : tame r -> benign (lift r).
Proof.
  intros Hr env st. unfold lift. simpl. split; [apply logs_only_refl|].
  destruct r as [a|[]|]; simpl in *; auto.
Qed.

Lemma np_subtract_tame a b : tame (np_subtract a b).
Proof.
  unfold np_subtract. destruct (length a =? length b)%nat; [exact I|].
  destruct a as [|x [|x' a]]; destruct b as [|y [|y' b]]; exact I.
Qed.

Lemma benign_compare_loop detected items : forall min_distance matched_name,
  benign (compare_loop detected items min_distance matched_name).
Proof.
  induction items as [|[p k] rest IH]; intros min_distance matched_name; simpl.
  - apply benign_ret.
  - apply benign_bind; [apply benign_lift, np_subtract_tame|]. intros difference.
    apply benign_bind; [apply benign_ask|]. intros env.
    apply benign_bind; [apply benign_log|]. intros _.
    apply benign_if; apply IH.
Qed.

Lemma recognize_face_returns self image tolerance env st :
  (forall lib, face_recognition self = Some lib -> well_behaved lib) ->
  exists name st',
    recognize_face self image tolerance env st = (Ok name, st')
    /\ logs_only st st'.
Proof.
  intros Hlib. unfold recognize_face.
  destruct (face_recognition self) as [lib|];
    [|exists "UNKNOWN", st; split; [reflexivity | apply logs_only_refl]].
  destruct (known_faces self) as [|item items] eqn:Hk;
    [exists "UNKNOWN", st; split; [reflexivity | apply logs_only_refl]|].
  rewrite <- Hk. clear Hk item items.
  destruct (Hlib lib eq_refl image) as [Hloc Henc].
  match goal with
  | |- context [try_except ?body ?handler] =>
      assert (Hbody : benign body)
  end.
  { apply benign_bind; [apply benign_lift, Hloc|]. intros locations.
    destruct locations as [|loc locs]; [auto with benign|].
    apply benign_bind; [apply benign_lift, Henc|]. intros encodings.
    destruct encodings as [|detected others]; [auto with benign|].
    apply benign_bind; [apply benign_compare_loop|]. intros [best matched].
    apply benign_if; auto with benign. }
  unfold try_except, try_catch.
  destruct (Hbody env st) as [Hl Hr].
  match type of Hr with
  | match fst ?c with _ => _ end => destruct c as [[name|[k| |code]|] st1]
  end; simpl in *; try contradiction.
  - exists name, st1. auto.
  - unfold_M. simpl. eexists _, _. split; [reflexivity|].
    eapply logs_only_trans; [exact Hl | repeat split].
Qed.

(** X12. With a face library whose calls return or raise an [Exception],
    [recognize_face] always returns a name, the sentinel or the name of a
    known face, and does nothing but log: neither a failure of the library
    nor known encodings of the wrong shape reach the caller. *)
Theorem recognize_face_always_answers self image tolerance env st :
  (forall lib, face_recognition self = Some lib -> well_behaved lib) ->
  exists name,
    fst (recognize_face self image tolerance env st) = Ok name
    /\ (name = "UNKNOWN" \/ In name (map fst (known_faces self)))
    /\ logs_only st (snd (recognize_face self image tolerance env st)).
Proof.
  intros Hlib.
  destruct (recognize_face_returns self image tolerance env st Hlib)
    as (name & st' & E & Hl).
  exists name. rewrite E. simpl. split; [reflexivity|]. split; [|exact Hl].
  apply (recognize_face_answer self image tolerance env st).
  rewrite E. reflexivity.
Qed.

Lemma float_ltb_trans a b m :
  float_ltb (Finite a) m = true -> Qltb b a = true ->
  float_ltb (Finite b) m = true.
Proof.
  destruct m as [c|]; simpl; [|reflexivity].
  rewrite !Qltb_lt. intros H1 H2. eapply Qlt_trans; eassumption.
Qed.

Lemma float_ltb_between a b m :
  float_ltb (Finite a) m = false -> float_ltb (Finite b) m = true ->
  (b < a)%Q.
Proof.
  destruct m as [c|]; simpl; [|discriminate].
  rewrite Qltb_ge, Qltb_lt. intros H1 H2. eapply Qlt_le_trans; eassumption.
Qed.

(** The loop answers with the first of the nearest items: the items before
    it are strictly farther, the items after it at least as far. *)
Lemma compare_loop_first env detected items :
  Forall (fun item => length (snd item) = length detected) items ->
  forall min_distance matched_name st,
  exists best name st',
    compare_loop detected items min_distance matched_name env st
    = (Ok (best, name), st')
    /\ ((best = min_distance /\ name = matched_name
         /\ forall n k, In (n, k) items ->
              float_ltb (Finite (distance env detected k)) min_distance = false)
        \/ (exists before known after,
              items = (before ++ (name, known) :: after)%list
              /\ best = Finite (distance env detected known)
              /\ float_ltb best min_distance = true
              /\ (forall n k, In (n, k) before ->
                    (distance env detected known < distance env detected k)%Q)
              /\ (forall n k, In (n, k) after ->
                    (distance env detected known <= distance env detected k)%Q))).
Proof.
  induction 1 as [|[p k] rest Hlen _ IH]; intros min_distance matched_name st.
  - exists min_distance, matched_name, st. split; [reflexivity|].
    left. repeat split. intros n k [].
  - simpl in Hlen. simpl. unfold bind at 1. unfold lift at 1.
    rewrite (np_subtract_same_length _ _ Hlen).
    unfold bind at 1. unfold ask at 1. simpl.
    unfold bind at 1. unfold log at 1. unfold modify at 1. simpl.
    fold (distance env detected k).
    set (d := distance env detected k).
    set (st1 := set_logs _ st).
    change (match min_distance with Finite y => Qltb d y | Infinity => true end)
      with (float_ltb (Finite d) min_distance).
    destruct (float_ltb (Finite d) min_distance) eqn:Hlt.
    + destruct (IH (Finite d) p st1) as (best & name & st' & E & Hb).
      exists best, name, st'. split; [exact E|]. right.
      destruct Hb as [(-> & -> & Hall)
                     | (before & known & after & -> & -> & Hbd & Hbefore & Hafter)].
      * exists [], k, rest. split; [reflexivity|]. split; [reflexivity|].
        split; [exact Hlt|]. split; [intros n k' []|].
        intros n k' Hin. specialize (Hall n k' Hin). simpl in Hall.
        apply Qltb_ge in Hall. exact Hall.
      * exists ((p, k) :: before), known, after.
        split; [reflexivity|]. split; [reflexivity|].
        split; [eapply float_ltb_trans; [exact Hlt | exact Hbd]|].
        split; [|exact Hafter].
        intros n k' [Heq | Hin].
        -- injection Heq as _ <-. simpl in Hbd. apply Qltb_lt in Hbd. exact Hbd.
        -- apply (Hbefore n k' Hin).
    + destruct (IH min_distance matched_name st1) as (best & name & st' & E & Hb).
      exists best, name, st'. split; [exact E|].
      destruct Hb as [(-> & -> & Hall)
                     | (before & known & after & -> & -> & Hbd & Hbefore & Hafter)].
      * left. repeat split.
        intros n k' [Heq | Hin].
        -- injection Heq as _ <-. exact Hlt.
        -- apply (Hall n k' Hin).
      * right. exists ((p, k) :: before), known, after.
        split; [reflexivity|]. split; [reflexivity|].
        split; [exact Hbd|]. split; [|exact Hafter].
        intros n k' [Heq | Hin].
        -- injection Heq as _ <-. eapply float_ltb_between; eassumption.
        -- apply (Hbefore n k' Hin).
Qed.

(** X13. Among several known faces at the smallest distance from the face
    seen, the one that comes first in [known_faces] decides: the known
    faces before the one compared with the tolerance are strictly farther,
    those after it at least as far. *)
Theorem first_of_the_nearest_faces_decides
    self lib image tolerance env st locations detected others :
  face_recognition self = Some lib ->
  face_locations lib image = Ok locations -> locations <> [] ->
  face_encodings lib image locations = Ok (detected :: others) ->
  known_faces self <> [] ->
  Forall (fun item => length (snd item) = length detected) (known_faces self) ->
  exists before name known after,
    known_faces self = (before ++ (name, known) :: after)%list
    /\ (forall n k, In (n, k) before ->
          (distance env detected known < distance env detected k)%Q)
    /\ (forall n k, In (n, k) after ->
          (distance env detected known <= distance env detected k)%Q)
    /\ fst (recognize_face self image tolerance env st)
       = Ok (if Qltb (distance env detected known) tolerance
             then name else "UNKNOWN").
Proof.
  intros Hlib Hloc Hne He Hknown Hlen. unfold recognize_face. rewrite Hlib.
  destruct (known_faces self) as [|item items] eqn:Hk; [congruence|].
  rewrite <- Hk in *. clear Hk item items.
  unfold try_except, try_catch, bind at 1. unfold lift at 1. rewrite Hloc.
  destruct locations as [|loc locs]; [congruence|].
  unfold bind at 1. unfold lift at 1. rewrite He.
  unfold bind at 1.
  destruct (compare_loop_first env detected (known_faces self) Hlen
                               Infinity "UNKNOWN" st)
    as (best & name & st1 & -> & Hb).
  destruct Hb as [(_ & _ & Hall)
                 | (before & known & after & Hsplit & -> & _ & Hbefore & Hafter)].
  - destruct (known_faces self) as [|[n k] items]; [congruence|].
    specialize (Hall n k (or_introl eq_refl)). discriminate.
  - exists before, name, known, after. split; [exact Hsplit|].
    split; [exact Hbefore|]. split; [exact Hafter|].
    simpl. destruct (Qltb _ tolerance); reflexivity.
Qed.


Lemma loadable_names files n :
  In n (map fst (loadable files)) -> In n (map fst files).
Proof.
  induction files as [|[p [e|]] rest IH]; simpl; [tauto| |];
    unfold loadable; simpl; fold (loadable rest).
  - intros [<- | H]; auto.
  - auto.
Qed.




End RecognizerFacts.

Lemma recognize_face_always_answers_witness :
  exists name,
    fst (FaceRecognition.recognize_face Sample.recognizer Sample.crop (6 # 10)
                                        Sample.door (initial_state ∅)) = Ok name
    /\ (name = "UNKNOWN" \/ In name (map fst (known_faces Sample.recognizer)))
    /\ logs_only (initial_state ∅)
                 (snd (FaceRecognition.recognize_face
                         Sample.recognizer Sample.crop (6 # 10)
                         Sample.door (initial_state ∅))).
Proof.
  apply (recognize_face_always_answers
           Sample.recognizer Sample.crop (6 # 10) Sample.door (initial_state ∅)).
  intros lib Hlib. injection Hlib as <-. intros image. split; [exact I|].
  intros locations. exact I.
Defined.

Lemma first_of_the_nearest_faces_decides_witness :
  exists before name known after,
    known_faces Gallery.twins = (before ++ (name, known) :: after)%list
    /\ (forall n k, In (n, k) before ->
          (FaceRecognition.distance Sample.door Sample.seen known
           < FaceRecognition.distance Sample.door Sample.seen k)%Q)
    /\ (forall n k, In (n, k) after ->
          (FaceRecognition.distance Sample.door Sample.seen known
           <= FaceRecognition.distance Sample.door Sample.seen k)%Q)
    /\ fst (FaceRecognition.recognize_face Gallery.twins Sample.crop (4 # 1)
                                           Sample.door (initial_state ∅))
       = Ok (if Qltb (FaceRecognition.distance Sample.door Sample.seen known) (4 # 1)
             then name else "UNKNOWN").
Proof.
  apply (first_of_the_nearest_faces_decides
           Gallery.twins (Sample.library Sample.seen) Sample.crop (4 # 1)
           Sample.door (initial_state ∅) [(0, 10, 10, 0)] Sample.seen []).
  - reflexivity.
  - reflexivity.
  - discriminate.
  - reflexivity.
  - discriminate.
  - repeat constructor.
Defined.


(** ** main.py: one box of a frame *)

Section BoxFacts.

Import Main.

Variable config : Config.t.

Lemma visible_crop_size frame x1 y1 x2 y2 :
  Z.max 0 x1 < Z.min (cols frame) x2 ->
  Z.max 0 y1 < Z.min (rows frame) y2 ->
  0 < size (Crop frame (Z.max 0 y1) (Z.min (rows frame) y2)
                 (Z.max 0 x1) (Z.min (cols frame) x2)).
Proof.
  intros Hx Hy. unfold size, slice_length, slice_index.
  destruct (Z.min (rows frame) y2 <? 0) eqn:E1; [apply Z.ltb_lt in E1; lia|].
  destruct (Z.max 0 y1 <? 0) eqn:E2; [apply Z.ltb_lt in E2; lia|].
  destruct (Z.min (cols frame) x2 <? 0) eqn:E3; [apply Z.ltb_lt in E3; lia|].
  destruct (Z.max 0 x1 <? 0) eqn:E4; [apply Z.ltb_lt in E4; lia|].
  nia.
Qed.

Lemma identify_effect self crop env st :
  sound_recognizer self ->
  exists name st',
    identify config self crop env st = (Ok name, st')
    /\ logs_only st st'.
Proof.
  intros Hsound. unfold identify.
  destruct (face_recognizer self) as [recognizer|] eqn:Hr.
  - apply recognize_face_returns. intros lib Hlib. exact (Hsound _ _ Hr Hlib).
  - exists "Unknown", st. split; [reflexivity | apply logs_only_refl].
Qed.

(** [_save_detection_image] returns whatever [cv2.imwrite] does: the path
    when the file was written or refused, the empty string when the call
    raised. *)
Lemma save_detection_image_effect frame confidence person_name env st :
  exists answer st',
    _save_detection_image config frame confidence person_name env st
    = (Ok answer, st')
    /\ ticks st' = S (S (ticks st))
    /\ requests st' = requests st /\ reads st' = reads st /\ keys st' = keys st
    /\ released st' = released st /\ camera st' = camera st
    /\ match imwrite env (image_path_of config env st person_name) with
       | Wrote =>
           answer = image_path_of config env st person_name
           /\ exists file,
                fs st' = <[image_path_of config env st person_name := file]> (fs st)
       | Refused =>
           answer = image_path_of config env st person_name /\ fs st' = fs st
       | Crashed => answer = "" /\ fs st' = fs st
       end.
Proof.
  unfold _save_detection_image, cv2_imwrite, image_path_of.
  unfold_M. simpl.
  destruct (imwrite env _); simpl; eexists _, _;
    (split; [reflexivity|]); simpl; repeat split; eauto.
Qed.

Lemma send_detection_sync_effect
    person_type confidence image_path person_name env st :
  exists st',
    Notification.send_detection_sync config person_type confidence image_path
                                     person_name env st = (Ok tt, st')
    /\ messages_only st st'.
Proof.
  unfold Notification.send_detection_sync, bind.
  destruct (send_detection_alert_effect
              config (Notification.__init__ config) person_type confidence
              image_path person_name env st) as (self' & st' & -> & Hm).
  exists st'. split; [reflexivity | exact Hm].
Qed.

Lemma save_detection_csv_returns
    timestamp person_type person_name confidence place env st :
  exists st',
    Utils.save_detection_csv config timestamp person_type person_name
                             confidence place env st = (Ok tt, st')
    /\ ticks st' = ticks st /\ requests st' = requests st
    /\ reads st' = reads st /\ keys st' = keys st
    /\ released st' = released st /\ camera st' = camera st.
Proof.
  unfold Utils.save_detection_csv, Utils.open_append, Utils.write.
  unfold_M. simpl.
  destruct (fs st !! LOG_FILE config) as [f|] eqn:E; simpl.
  - destruct (can_append f); simpl; [rewrite E; simpl|];
      eexists; (split; [reflexivity|]); repeat split.
  - destruct (can_create env (LOG_FILE config)); simpl;
      [repeat (rewrite lookup_insert_eq; simpl)|];
      eexists; (split; [reflexivity|]); repeat split.
Qed.

(** A person that is visible in the frame passes the tests. *)
Lemma visible_taken frame box :
  cls box = 0 -> visible frame box -> taken frame box = true.
Proof.
  unfold visible, taken. intros Hcls Hvis.
  destruct (xyxy box) as [[[x1 y1] x2] y2]. destruct Hvis as [Hx Hy].
  pose proof (visible_crop_size frame x1 y1 x2 y2 Hx Hy) as Hsize.
  rewrite Hcls. rewrite !Z.geb_leb.
  repeat (apply andb_true_iff; split); [reflexivity | |].
  - apply negb_true_iff, orb_false_iff. split; apply Z.leb_gt; lia.
  - apply negb_true_iff, Z.eqb_neq. lia.
Qed.

(** What [process_box] does with a box that passes its tests: the four
    steps, each of which returns. *)
Lemma process_box_effect frame box self env st :
  camera st = Some self ->
  sound_recognizer self ->
  taken frame box = true ->
  exists name st1 answer st2 st3 st4,
    logs_only st st1
    /\ _save_detection_image config frame (conf box) name env st1
       = (Ok answer, st2)
    /\ Notification.send_detection_sync
         config (person_type_of name) (conf box) (Some answer) name env st2
       = (Ok tt, st3)
    /\ Utils.save_detection_csv
         config (isoformat env (clock env (ticks st3)))
         (person_type_of name) name (conf box) "front_door"
         env (set_ticks (S (ticks st3)) st3) = (Ok tt, st4)
    /\ process_box config frame box env st
       = (Ok tt,
          set_logs (logs st4 ++ [(INFO, "Detection: " ++ person_type_of name
                                        ++ " - " ++ name)]) st4).
Proof.
  intros Hcam Hsound Htaken. unfold process_box, taken in *.
  destruct (xyxy box) as [[[x1 y1] x2] y2].
  apply andb_true_iff in Htaken as [Htaken Hsize].
  apply andb_true_iff in Htaken as [Hcls Hbox].
  apply negb_true_iff in Hsize, Hbox.
  rewrite Hcls, Hbox, Hsize. cbn [negb].
  unfold bind at 1. unfold this at 1. unfold bind at 1, get at 1.
  cbv beta iota. rewrite Hcam. unfold ret at 1.
  destruct (identify_effect
              self (Crop frame (Z.max 0 y1) (Z.min (rows frame) y2)
                         (Z.max 0 x1) (Z.min (cols frame) x2)) env st Hsound)
    as (name & st1 & E1 & Hl1).
  unfold bind at 1. rewrite E1.
  destruct (save_detection_image_effect frame (conf box) name env st1)
    as (answer & st2 & E2 & _).
  unfold bind at 1. rewrite E2.
  destruct (send_detection_sync_effect (person_type_of name) (conf box)
                                       (Some answer) name env st2)
    as (st3 & E3 & Hm3).
  unfold bind at 1. unfold try_except, try_catch. rewrite E3.
  unfold bind at 1. unfold ask at 1. unfold bind at 1. unfold now at 1.
  unfold bind at 1.
  destruct (save_detection_csv_returns
              (isoformat env (clock env (ticks st3)))
              (person_type_of name) name (conf box) "front_door" env
              (set_ticks (S (ticks st3)) st3)) as (st4 & E4 & _).
  rewrite E4.
  exists name, st1, answer, st2, st3, st4.
  split; [exact Hl1|]. split; [exact E2|]. split; [exact E3|].
  split; [exact E4|]. reflexivity.
Qed.

Lemma path_join_truthy dir name : truthy (path_join dir name) = true.
Proof. destruct dir; reflexivity. Qed.

(** An alert whose photo is not on disk makes no request. *)
Lemma missing_photo_no_request person_type confidence path person_name env st :
  fs st !! path = None ->
  truthy path = true ->
  SEND_IMAGE_WITH_ALERT config = true ->
  requests (snd (Notification.send_detection_sync
                   config person_type confidence (Some path) person_name env st))
  = requests st.
Proof.
  intros Hfs Hpath Hflag.
  unfold Notification.send_detection_sync, Notification.send_detection_alert,
    Notification._check_rate_limit, Notification._send_photo_with_caption,
    Notification._update_rate_limit, Notification.attach.
  rewrite Hflag, Hpath. unfold_M. simpl.
  destruct (_ >=? _); simpl.
  - rewrite Hfs. simpl.
    destruct (truthy (TELEGRAM_CHANNEL_ID config)
              && negb (str_eqb (TELEGRAM_CHANNEL_ID config) "@rpi5doorcam"));
      simpl; [rewrite Hfs|]; reflexivity.
  - destruct (DEBUG_MODE config); reflexivity.
Qed.

(** A box that passes the tests is logged: one row more in a log that can
    be written, the camera object untouched. *)
Lemma process_box_logs frame box self env st :
  camera st = Some self ->
  sound_recognizer self ->
  taken frame box = true ->
  Utils.log_writable config env st = true ->
  (forall name, path_join (DETECTIONS_DIR config) name <> LOG_FILE config) ->
  exists name stamp st' f',
    process_box config frame box env st = (Ok tt, st')
    /\ camera st' = camera st
    /\ fs st' !! LOG_FILE config = Some f'
    /\ can_append f' = true
    /\ content f'
       = (match fs st !! LOG_FILE config with
          | Some f => content f
          | None => [Utils.header_row]
          end ++ [logged_row stamp name box])%list.
Proof.
  intros Hcam Hsound Htaken Hw Hlog.
  destruct (process_box_effect frame box self env st Hcam Hsound Htaken)
    as (name & st1 & answer & st2 & st3 & st4 & Hl1 & E2 & E3 & E4 & ->).
  destruct Hl1 as (_ & _ & Hfs1 & _ & _ & _ & Hc1).
  destruct (save_detection_image_effect frame (conf box) name env st1)
    as (answer' & st2' & E2' & _ & _ & _ & _ & _ & Hc2 & Hsaved).
  rewrite E2 in E2'. injection E2' as <- <-.
  assert (Hfs2 : fs st2 !! LOG_FILE config = fs st !! LOG_FILE config).
  { rewrite <- Hfs1.
    destruct (imwrite env _); destruct Hsaved as [_ Hfs2].
    - destruct Hfs2 as (file & ->). apply lookup_insert_ne.
      unfold image_path_of. apply Hlog.
    - by rewrite Hfs2.
    - by rewrite Hfs2. }
  destruct (send_detection_sync_effect (person_type_of name) (conf box)
                                       (Some answer) name env st2)
    as (st3' & E3' & Hfs3 & _ & _ & _ & Hc3).
  rewrite E3 in E3'. injection E3' as <-.
  set (stamp := isoformat env (clock env (ticks st3))) in *.
  destruct (save_detection_csv_returns
              stamp (person_type_of name) name (conf box) "front_door" env
              (set_ticks (S (ticks st3)) st3))
    as (st4x & E4x & _ & _ & _ & _ & _ & Hc4).
  rewrite E4 in E4x. injection E4x as <-.
  destruct (save_detection_csv_file
              config
              {| Utils.timestamp := stamp;
                 Utils.person_type := person_type_of name;
                 Utils.person_name := name;
                 Utils.confidence := conf box;
                 Utils.camera := "front_door" |}
              env (set_ticks (S (ticks st3)) st3))
    as (st4' & f' & E4' & _ & Hf' & Ha' & _ & Hc').
  { unfold Utils.log_writable in *. simpl. rewrite Hfs3, Hfs2. exact Hw. }
  unfold Utils.log_detection in E4'. simpl in E4'.
  rewrite E4 in E4'. injection E4' as <-.
  exists name, stamp. eexists. exists f'. split; [reflexivity|]. simpl.
  split; [simpl in Hc4; congruence|].
  split; [exact Hf'|]. split; [exact Ha'|].
  rewrite Hc'. simpl. rewrite Hfs3, Hfs2. reflexivity.
Qed.

(** X15. Every person that is visible in the frame is logged once,
    whatever becomes of its image and its alert: with a log that can be
    written and is not a file of the detections directory, [process_box]
    returns and leaves the log with one more row (after the header when the
    log is new), of the type and name the pipeline decided and the
    confidence of the box. *)
Theorem every_visible_person_is_logged frame box self env st :
  camera st = Some self ->
  sound_recognizer self ->
  cls box = 0 ->
  visible frame box ->
  Utils.log_writable config env st = true ->
  (forall name, path_join (DETECTIONS_DIR config) name <> LOG_FILE config) ->
  exists name stamp st' f',
    process_box config frame box env st = (Ok tt, st')
    /\ fs st' !! LOG_FILE config = Some f'
    /\ content f'
       = (match fs st !! LOG_FILE config with
          | Some f => content f
          | None => [Utils.header_row]
          end ++ [logged_row stamp name box])%list.
Proof.
  intros Hcam Hsound Hcls Hvis Hw Hlog.
  destruct (process_box_logs frame box self env st Hcam Hsound
                             (visible_taken frame box Hcls Hvis) Hw Hlog)
    as (name & stamp & st' & f' & E & _ & Hf & _ & Hc).
  exists name, stamp, st', f'. auto.
Qed.

(** X16. An image that [cv2.imwrite] does not write (it returns [False])
    costs the alert: [_save_detection_image] hands on the path all the
    same, and with [SEND_IMAGE_WITH_ALERT] on the notifier, not finding
    the photo, sends nothing at all, not even the text. *)
Theorem unwritten_image_loses_the_alert frame box self env st :
  camera st = Some self ->
  sound_recognizer self ->
  cls box = 0 ->
  visible frame box ->
  SEND_IMAGE_WITH_ALERT config = true ->
  (forall path, imwrite env path = Refused) ->
  (forall name, fs st !! path_join (DETECTIONS_DIR config) name = None) ->
  fst (process_box config frame box env st) = Ok tt
  /\ requests (snd (process_box config frame box env st)) = requests st.
Proof.
  intros Hcam Hsound Hcls Hvis Hflag Hrefused Hempty.
  destruct (process_box_effect frame box self env st Hcam Hsound
                               (visible_taken frame box Hcls Hvis))
    as (name & st1 & answer & st2 & st3 & st4 & Hl1 & E2 & E3 & E4 & ->).
  split; [reflexivity|]. simpl.
  destruct Hl1 as (_ & Hq1 & Hfs1 & _).
  destruct (save_detection_image_effect frame (conf box) name env st1)
    as (answer' & st2' & E2' & _ & Hq2 & _ & _ & _ & _ & Hsaved).
  rewrite E2 in E2'. injection E2' as <- <-.
  rewrite Hrefused in Hsaved. destruct Hsaved as [-> Hfs2].
  pose proof (missing_photo_no_request
                (person_type_of name) (conf box)
                (image_path_of config env st1 name) name env st2) as Hq3.
  rewrite E3 in Hq3. simpl in Hq3.
  destruct (save_detection_csv_returns
              (isoformat env (clock env (ticks st3)))
              (person_type_of name) name (conf box) "front_door" env
              (set_ticks (S (ticks st3)) st3)) as (st4' & E4' & _ & Hq4 & _).
  rewrite E4 in E4'. injection E4' as <-.
  rewrite Hq4. simpl. rewrite Hq3, Hq2, Hq1; auto.
  - rewrite Hfs2, Hfs1. unfold image_path_of. apply Hempty.
  - apply path_join_truthy.
Qed.

(** A box that fails a test is passed over. *)
Lemma skipped_box frame box env st :
  taken frame box = false ->
  process_box config frame box env st = (Ok tt, st).
Proof.
  unfold process_box, taken.
  destruct (xyxy box) as [[[x1 y1] x2] y2].
  destruct (cls box =? 0); [|reflexivity].
  destruct ((x1 >=? x2) || (y1 >=? y2)); [reflexivity|].
  destruct (size _ =? 0); [reflexivity | discriminate].
Qed.

Lemma skipped_boxes frame boxes env st :
  Forall (fun box => taken frame box = false) boxes ->
  for_each boxes (process_box config frame) env st = (Ok tt, st).
Proof.
  induction 1 as [|box rest Hbox _ IH]; [reflexivity|].
  simpl. unfold bind. rewrite (skipped_box frame box env st Hbox). exact IH.
Qed.

Lemma skipped_results frame results env st :
  Forall (fun box => taken frame box = false) (boxes_of results) ->
  for_each results
           (fun result =>
              match result with
              | None | Some [] => ret tt
              | Some boxes => for_each boxes (process_box config frame)
              end) env st = (Ok tt, st).
Proof.
  induction results as [|result rest IH]; intros Hall; [reflexivity|].
  unfold boxes_of in Hall. simpl in Hall. apply Forall_app in Hall as [H1 H2].
  simpl. unfold bind.
  destruct result as [[|box boxes]|]; try (apply IH; exact H2).
  rewrite (skipped_boxes frame (box :: boxes) env st H1). apply IH. exact H2.
Qed.

(** The frame handed to the detector, with the camera object in place. *)
Lemma process_frame_eq frame results self env st :
  camera st = Some self ->
  model self <> None ->
  yolo env frame (CONFIDENCE_THRESHOLD config) = Ok results ->
  _process_frame config frame env st
  = try_except
      (for_each results
                (fun result =>
                   match result with
                   | None | Some [] => ret tt
                   | Some boxes => for_each boxes (process_box config frame)
                   end))
      (fun e => log ERROR "Frame processing error") env st.
Proof.
  intros Hcam Hmodel Hyolo. unfold _process_frame, try_except, try_catch.
  unfold bind at 1. unfold this at 1. unfold bind at 1, get at 1.
  cbv beta iota. rewrite Hcam. unfold ret at 1.
  unfold bind at 1. unfold ask at 1. unfold bind at 1.
  destruct (model self) as [m|]; [|congruence].
  unfold lift at 1. rewrite Hyolo. reflexivity.
Qed.

(** X19. A frame in which the detector reports no person (only boxes of
    other classes, empty boxes, or boxes with an empty crop) leaves no
    trace: no image, no alert, no row, not even a log record. *)
Theorem frame_without_persons_leaves_no_trace frame results self env st :
  camera st = Some self ->
  model self <> None ->
  yolo env frame (CONFIDENCE_THRESHOLD config) = Ok results ->
  Forall (fun box => taken frame box = false) (boxes_of results) ->
  _process_frame config frame env st = (Ok tt, st).
Proof.
  intros Hcam Hmodel Hyolo Hall.
  rewrite (process_frame_eq frame results self env st Hcam Hmodel Hyolo).
  unfold try_except, try_catch.
  rewrite (skipped_results frame results env st Hall). reflexivity.
Qed.

Lemma log_grown_writable env st st' rows :
  Utils.log_writable config env st = true ->
  log_grown config st st' rows ->
  Utils.log_writable config env st' = true.
Proof.
  unfold Utils.log_writable, log_grown. intros Hw.
  destruct rows as [|row rows].
  - intros ->. exact Hw.
  - intros (f' & -> & Ha & _). exact Ha.
Qed.

Lemma log_grown_app st st1 st2 rows1 rows2 :
  log_grown config st st1 rows1 ->
  log_grown config st1 st2 rows2 ->
  log_grown config st st2 (rows1 ++ rows2).
Proof.
  unfold log_grown. destruct rows1 as [|row1 rows1]; simpl.
  - intros H1. rewrite H1. tauto.
  - intros (f1 & Hf1 & Ha1 & Hc1). destruct rows2 as [|row2 rows2].
    + intros H2. exists f1. rewrite H2, app_nil_r. auto.
    + intros (f2 & Hf2 & Ha2 & Hc2). exists f2. split; [exact Hf2|].
      split; [exact Ha2|]. rewrite Hc2, Hf1, Hc1, <- app_assoc. reflexivity.
Qed.

Lemma boxes_logged frame self env boxes : forall st,
  camera st = Some self ->
  sound_recognizer self ->
  Utils.log_writable config env st = true ->
  (forall name, path_join (DETECTIONS_DIR config) name <> LOG_FILE config) ->
  exists rows st',
    for_each boxes (process_box config frame) env st = (Ok tt, st')
    /\ camera st' = camera st
    /\ Forall2 (fun row box => exists stamp name, row = logged_row stamp name box)
               rows (List.filter (taken frame) boxes)
    /\ log_grown config st st' rows.
Proof.
  induction boxes as [|box rest IH]; intros st Hcam Hsound Hw Hlog.
  - exists [], st. simpl. repeat split. constructor.
  - simpl. unfold bind. destruct (taken frame box) eqn:Htaken.
    + destruct (process_box_logs frame box self env st Hcam Hsound Htaken Hw Hlog)
        as (name & stamp & st1 & f1 & -> & Hc1 & Hf1 & Ha1 & Hcont1).
      assert (Hg1 : log_grown config st st1 [logged_row stamp name box]).
      { exists f1. auto. }
      destruct (IH st1) as (rows & st2 & -> & Hc2 & Hrows & Hg2); auto.
      { congruence. }
      { eapply log_grown_writable; eassumption. }
      exists (logged_row stamp name box :: rows), st2.
      split; [reflexivity|]. split; [congruence|].
      split; [constructor; eauto|].
      exact (log_grown_app st st1 st2 [_] rows Hg1 Hg2).
    + rewrite (skipped_box frame box env st Htaken).
      destruct (IH st Hcam Hsound Hw Hlog) as (rows & st2 & -> & Hc2 & Hrows & Hg2).
      exists rows, st2. auto.
Qed.

Lemma results_logged frame self env results : forall st,
  camera st = Some self ->
  sound_recognizer self ->
  Utils.log_writable config env st = true ->
  (forall name, path_join (DETECTIONS_DIR config) name <> LOG_FILE config) ->
  exists rows st',
    for_each results
             (fun result =>
                match result with
                | None | Some [] => ret tt
                | Some boxes => for_each boxes (process_box config frame)
                end) env st = (Ok tt, st')
    /\ camera st' = camera st
    /\ Forall2 (fun row box => exists stamp name, row = logged_row stamp name box)
               rows (List.filter (taken frame) (boxes_of results))
    /\ log_grown config st st' rows.
Proof.
  induction results as [|result rest IH]; intros st Hcam Hsound Hw Hlog.
  - exists [], st. simpl. repeat split. constructor.
  - assert (Hstep : exists rows1 st1,
               match result with
               | None | Some [] => ret tt
               | Some boxes => for_each boxes (process_box config frame)
               end env st = (Ok tt, st1)
               /\ camera st1 = camera st
               /\ Forall2 (fun row box =>
                             exists stamp name, row = logged_row stamp name box)
                          rows1
                          (List.filter (taken frame)
                                       match result with
                                       | Some boxes => boxes
                                       | None => []
                                       end)
               /\ log_grown config st st1 rows1).
    { destruct result as [[|box boxes]|].
      - exists [], st. simpl. repeat split. constructor.
      - apply (boxes_logged frame self env (box :: boxes) st Hcam Hsound Hw Hlog).
      - exists [], st. simpl. repeat split. constructor. }
    destruct Hstep as (rows1 & st1 & E1 & Hc1 & Hrows1 & Hg1).
    destruct (IH st1) as (rows2 & st2 & E2 & Hc2 & Hrows2 & Hg2); auto.
    { congruence. }
    { eapply log_grown_writable; eassumption. }
    exists (rows1 ++ rows2)%list, st2.
    split; [simpl; unfold bind; rewrite E1; exact E2|].
    split; [congruence|]. split; [|eapply log_grown_app; eassumption].
    unfold boxes_of. simpl. rewrite List.filter_app.
    apply Forall2_app; assumption.
Qed.

(** X20. A frame gives the log one row for every box that passes the
    tests of the pipeline (a person with a non-empty crop), in the order of
    the boxes, and nothing for the other boxes: with a log that can be
    written, [_process_frame] returns and the log has grown by exactly
    these rows, each with the confidence of its box. *)
Theorem frame_logs_one_row_per_person frame results self env st :
  camera st = Some self ->
  sound_recognizer self ->
  model self <> None ->
  yolo env frame (CONFIDENCE_THRESHOLD config) = Ok results ->
  Utils.log_writable config env st = true ->
  (forall name, path_join (DETECTIONS_DIR config) name <> LOG_FILE config) ->
  exists rows st',
    _process_frame config frame env st = (Ok tt, st')
    /\ Forall2 (fun row box => exists stamp name, row = logged_row stamp name box)
               rows (List.filter (taken frame) (boxes_of results))
    /\ log_grown config st st' rows.
Proof.
  intros Hcam Hsound Hmodel Hyolo Hw Hlog.
  rewrite (process_frame_eq frame results self env st Hcam Hmodel Hyolo).
  destruct (results_logged frame self env results st Hcam Hsound Hw Hlog)
    as (rows & st' & E & _ & Hrows & Hg).
  unfold try_except, try_catch. rewrite E.
  exists rows, st'. auto.
Qed.

End BoxFacts.

Lemma frame_without_persons_leaves_no_trace_witness :
  Main._process_frame Sample.config Sample.frame Yard.door (Sample.looping None)
  = (Ok tt, Sample.looping None).
Proof.
  apply (frame_without_persons_leaves_no_trace
           Sample.config Sample.frame [Some [Yard.cat; Yard.sliver]]
           {| running := true; model := Some "yolov8n.pt";
              face_recognizer := None; cap := Some 0 |}
           Yard.door (Sample.looping None)).
  - reflexivity.
  - discriminate.
  - reflexivity.
  - repeat constructor.
Defined.

Lemma frame_logs_one_row_per_person_witness :
  exists rows st',
    Main._process_frame Sample.config Sample.frame Yard.crowded
                        (Sample.looping None) = (Ok tt, st')
    /\ Forall2 (fun row box => exists stamp name, row = logged_row stamp name box)
               rows [Sample.person; Yard.visitor]
    /\ log_grown Sample.config (Sample.looping None) st' rows.
Proof.
  apply (frame_logs_one_row_per_person
           Sample.config Sample.frame
           [Some [Sample.person; Yard.cat; Yard.visitor]]
           {| running := true; model := Some "yolov8n.pt";
              face_recognizer := None; cap := Some 0 |}
           Yard.crowded (Sample.looping None)).
  - reflexivity.
  - intros recognizer lib Hr. discriminate Hr.
  - discriminate.
  - reflexivity.
  - reflexivity.
  - intros name H. discriminate H.
Defined.

Lemma every_visible_person_is_logged_witness :
  exists name stamp st' f',
    Main.process_box Sample.config Sample.frame Sample.person Sample.offline
                     (Sample.looping None) = (Ok tt, st')
    /\ fs st' !! LOG_FILE Sample.config = Some f'
    /\ content f' = [Utils.header_row; logged_row stamp name Sample.person].
Proof.
  destruct (every_visible_person_is_logged
              Sample.config Sample.frame Sample.person
              {| running := true; model := Some "yolov8n.pt";
                 face_recognizer := None; cap := Some 0 |}
              Sample.offline (Sample.looping None))
    as (name & stamp & st' & f' & E & Hf & Hc).
  - reflexivity.
  - intros recognizer lib Hr. discriminate Hr.
  - reflexivity.
  - vm_compute. split; reflexivity.
  - reflexivity.
  - intros name H. discriminate H.
  - exists name, stamp, st', f'. auto.
Defined.

Lemma unwritten_image_loses_the_alert_witness :
  fst (Main.process_box Sample.config Sample.frame Sample.person
                        Workshop.full_disk (Sample.looping None)) = Ok tt
  /\ requests (snd (Main.process_box Sample.config Sample.frame Sample.person
                                     Workshop.full_disk (Sample.looping None)))
     = [].
Proof.
  apply (unwritten_image_loses_the_alert
           Sample.config Sample.frame Sample.person
           {| running := true; model := Some "yolov8n.pt";
              face_recognizer := None; cap := Some 0 |}
           Workshop.full_disk (Sample.looping None)).
  - reflexivity.
  - intros recognizer lib Hr. discriminate Hr.
  - reflexivity.
  - vm_compute. split; reflexivity.
  - reflexivity.
  - reflexivity.
  - intros name. reflexivity.
Defined.

(** ** main.py: how the program ends *)

Section Ending.

Import Main.

Variable config : Config.t.

Lemma sound_state_camera st st1 :
  camera st1 = camera st -> sound_state st -> sound_state st1.
Proof. intros Hc Hs self Hself. apply Hs. congruence. Qed.

Lemma prompt_at_returns {A} (c : M A) env st a st' :
  c env st = (Ok a, st') -> camera st' = camera st -> reads st' = reads st ->
  released st' = released st ->
  prompt_at env st c.
Proof. intros E Hc Hr Hl. unfold prompt_at. rewrite E. simpl. auto. Qed.

Lemma prompt_at_ret {A} (a : A) env st : prompt_at env st (ret a).
Proof. repeat split. Qed.

Lemma prompt_at_log lvl msg env st : prompt_at env st (log lvl msg).
Proof. repeat split. Qed.

Lemma prompt_at_now env st : prompt_at env st now.
Proof. repeat split. Qed.

Lemma prompt_at_raise {A} k env st : prompt_at env st (@raise A (Exception k)).
Proof. repeat split. Qed.

Lemma prompt_at_bind {A B} (c : M A) (k : A -> M B) env st :
  prompt_at env st c ->
  (forall a st1, c env st = (Ok a, st1) -> camera st1 = camera st ->
                 reads st1 = reads st -> prompt_at env st1 (k a)) ->
  prompt_at env st (bind c k).
Proof.
  intros (Hr & Hc & Hn & Hl) Hk. unfold prompt_at, bind in *.
  destruct (c env st) as [[a|e|] st1] eqn:E; simpl in *; auto.
  destruct (Hk a st1 eq_refl Hc Hn) as (Hr' & Hc' & Hn' & Hl').
  split; [exact Hr'|]. repeat split; congruence.
Qed.

Lemma prompt_at_try_except {A} (body : M A) handler env st :
  prompt_at env st body ->
  (forall k st1, prompt_at env st1 (handler k)) ->
  prompt_at env st (try_except body handler).
Proof.
  intros (Hr & Hc & Hn & Hl) Hh. unfold prompt_at, try_except, try_catch in *.
  destruct (body env st) as [[a|[k| |code]|] st1] eqn:E; simpl in *;
    try contradiction; auto.
  destruct (Hh k st1) as (Hr' & Hc' & Hn' & Hl').
  split; [exact Hr'|]. repeat split; congruence.
Qed.

Lemma this_inv env st self st1 :
  this env st = (Ok self, st1) -> st1 = st /\ camera st = Some self.
Proof.
  unfold this. unfold_M. simpl. destruct (camera st); [|discriminate].
  intros H. injection H as <- <-. auto.
Qed.

Lemma prompt_at_this env st : prompt_at env st this.
Proof.
  unfold prompt_at, this. unfold_M. simpl.
  destruct (camera st) eqn:E; simpl; repeat split; exact E.
Qed.

Lemma prompt_at_cleanup_loop cutoff files : forall n env st,
  prompt_at env st (Utils.cleanup_loop cutoff files n).
Proof.
  induction files as [|[p f] rest IH]; intros n env st; simpl.
  - apply prompt_at_ret.
  - apply prompt_at_bind.
    + unfold prompt_at, Utils.stat. unfold_M. simpl.
      destruct (fs st !! p); repeat split.
    + intros meta st1 _ _ _. destruct (st_mtime meta <? cutoff); [|apply IH].
      apply prompt_at_bind; [|intros; apply IH].
      unfold prompt_at, Utils.unlink, Utils.stat. unfold_M. simpl.
      destruct (fs st1 !! p) as [g|]; simpl; [|repeat split].
      destruct (can_unlink g); repeat split.
Qed.

Lemma prompt_at_cleanup_old_images days env st :
  prompt_at env st (Utils.cleanup_old_images config days).
Proof.
  unfold Utils.cleanup_old_images.
  destruct (negb (CLEANUP_OLD_IMAGES config)); [apply prompt_at_ret|].
  apply prompt_at_bind; [apply prompt_at_now|]. intros t st1 _ _ _.
  apply prompt_at_try_except; [|intros; apply prompt_at_log].
  apply prompt_at_bind; [repeat split|]. intros st2 st3 _ _ _.
  apply prompt_at_bind; [apply prompt_at_cleanup_loop|]. intros n st4 _ _ _.
  unfold when. destruct (0 <? n); [apply prompt_at_log | apply prompt_at_ret].
Qed.

Lemma prompt_at_process_box frame box env st :
  sound_state st -> prompt_at env st (process_box config frame box).
Proof.
  intros Hsound. unfold process_box.
  destruct (negb (cls box =? 0)); [apply prompt_at_ret|].
  destruct (xyxy box) as [[[x1 y1] x2] y2].
  destruct ((x1 >=? x2) || (y1 >=? y2)); [apply prompt_at_ret|].
  destruct (size _ =? 0); [apply prompt_at_ret|].
  apply prompt_at_bind; [apply prompt_at_this|]. intros self st1 E _ _.
  apply this_inv in E as [-> Hcam].
  apply prompt_at_bind.
  { destruct (identify_effect config self
                (Crop frame (Z.max 0 y1) (Z.min (rows frame) y2)
                      (Z.max 0 x1) (Z.min (cols frame) x2)) env st
                (Hsound self Hcam)) as (name & st1 & E & Hl).
    eapply prompt_at_returns; [exact E | apply Hl | apply Hl | apply Hl]. }
  intros name st1 _ _ _.
  apply prompt_at_bind.
  { destruct (save_detection_image_effect config frame (conf box) name env st1)
      as (answer & st2 & E & _ & _ & Hn & _ & Hrel & Hc & _).
    eapply prompt_at_returns; [exact E | exact Hc | exact Hn | exact Hrel]. }
  intros answer st2 _ _ _.
  apply prompt_at_bind.
  { destruct (send_detection_sync_effect config (person_type_of name) (conf box)
                                         (Some answer) name env st2)
      as (st3 & E & Hm).
    apply prompt_at_try_except; [|intros; apply prompt_at_log].
    eapply prompt_at_returns; [exact E | apply Hm | apply Hm | apply Hm]. }
  intros _ st3 _ _ _.
  apply prompt_at_bind; [repeat split|]. intros env' st4 _ _ _.
  apply prompt_at_bind; [apply prompt_at_now|]. intros t st5 _ _ _.
  apply prompt_at_bind; [|intros; apply prompt_at_log].
  destruct (save_detection_csv_returns config (isoformat env' t)
              (person_type_of name) name (conf box) "front_door" env st5)
    as (st6 & E & _ & _ & Hn & _ & Hrel & Hc).
  eapply prompt_at_returns; [exact E | exact Hc | exact Hn | exact Hrel].
Qed.

Lemma prompt_at_for_each {A} (body : A -> M unit) (l : list A) : forall env st,
  sound_state st ->
  (forall x env st, sound_state st -> prompt_at env st (body x)) ->
  prompt_at env st (for_each l body).
Proof.
  induction l as [|x rest IH]; intros env st Hsound Hbody; simpl.
  - apply prompt_at_ret.
  - apply prompt_at_bind; [apply Hbody, Hsound|]. intros _ st1 _ Hc _.
    apply IH; [|exact Hbody]. eapply sound_state_camera; eassumption.
Qed.

(** [_process_frame] returns: what the detector or a box raises is logged. *)
Lemma process_frame_returns frame env st :
  tame_env env -> sound_state st ->
  exists st',
    _process_frame config frame env st = (Ok tt, st')
    /\ camera st' = camera st /\ reads st' = reads st
    /\ released st' = released st.
Proof.
  intros [Hyolo _] Hsound. unfold _process_frame.
  match goal with
  | |- context [try_except ?body ?handler] =>
      assert (Hbody : prompt_at env st body)
  end.
  { apply prompt_at_bind; [apply prompt_at_this|]. intros self st1 E _ _.
    apply this_inv in E as [-> Hcam].
    apply prompt_at_bind; [repeat split|]. intros env' st1 E _ _.
    unfold ask in E. injection E as <- <-.
    apply prompt_at_bind.
    { destruct (model self); [|apply prompt_at_raise].
      unfold prompt_at, lift. simpl. split; [|repeat split].
      apply Hyolo. }
    intros results st1 E Hc _. unfold lift in E.
    assert (st1 = st) as ->.
    { destruct (model self); [injection E as _ <-; reflexivity|].
      unfold raise in E. discriminate E. }
    apply prompt_at_for_each; [exact Hsound|].
    intros [[|box boxes]|] env2 st2 Hs2; try apply prompt_at_ret.
    apply prompt_at_for_each; [exact Hs2|].
    intros b env3 st3 Hs3. apply prompt_at_process_box. exact Hs3. }
  unfold try_except, try_catch.
  destruct Hbody as (Hr & Hc & Hn & Hl).
  match type of Hr with
  | tame (fst ?c) => destruct c as [[[]|[k| |code]|] st1]
  end; simpl in *; try contradiction.
  - eauto.
  - unfold_M. simpl. eauto.
Qed.

Lemma quit_prompt env st :
  prompt_at env st
    (if DISPLAY_FRAMES config
     then key <- waitKey;; ret (Z.land key 255 =? 113)
     else ret false).
Proof.
  destruct (DISPLAY_FRAMES config); [|apply prompt_at_ret].
  apply prompt_at_bind; [repeat split|]. intros; apply prompt_at_ret.
Qed.

Lemma frame_rate_prompt frame_count start_time env st :
  prompt_at env st
    (if frame_count mod 100 =? 0 then
       t <- now;;
       let elapsed := t - start_time in
       if elapsed =? 0 then raise (Exception ZeroDivisionError)
       else
         log DEBUG "Processing FPS";;
         when (frame_count mod 1000 =? 0)
              (Utils.cleanup_old_images config (ALERT_RETENTION_DAYS config))
     else ret tt).
Proof.
  destruct (_ =? 0); [|apply prompt_at_ret].
  apply prompt_at_bind; [apply prompt_at_now|]. intros t st2 _ _ _.
  cbv zeta. destruct (_ =? 0); [apply prompt_at_raise|].
  apply prompt_at_bind; [apply prompt_at_log|]. intros _ st3 _ _ _.
  unfold when. destruct (_ =? 0); [|apply prompt_at_ret].
  apply prompt_at_cleanup_old_images.
Qed.

(** The camera loop ends in a settled way, with the camera object and the
    count of releases as they were; and it does end when a signal arrives
    at one of the next [fuel] reads. *)
Lemma camera_loop_outcome fuel : forall frame_count start_time env st,
  tame_env env -> sound_state st ->
  exists r st',
    camera_loop config fuel frame_count start_time env st = (r, st')
    /\ settled r
    /\ camera st' = camera st
    /\ released st' = released st
    /\ (forall n, camera_read env (reads st + n) = Signalled -> (n < fuel)%nat ->
                  r <> Diverge).
Proof.
  induction fuel as [|fuel IH]; intros frame_count start_time env st Htame Hsound.
  - eexists _, _. split; [reflexivity|]. split; [exact I|].
    split; [reflexivity|]. split; [reflexivity|]. intros n _ Hn. lia.
  - cbn [camera_loop]. unfold bind at 1. unfold cap_read at 1.
    set (st1 := set_reads (S (reads st)) st).
    assert (Hs1 : sound_state st1) by exact Hsound.
    assert (Hc1 : camera st1 = camera st) by reflexivity.
    assert (Hl1 : released st1 = released st) by reflexivity.
    assert (Hnext : forall n st',
               camera_read env (reads st) <> Signalled ->
               reads st' = reads st1 ->
               camera_read env (reads st + n) = Signalled -> (n < S fuel)%nat ->
               exists m, camera_read env (reads st' + m) = Signalled
                         /\ (m < fuel)%nat).
    { intros n st' Hnot Hr Hsig Hlt. destruct n as [|m].
      - rewrite Nat.add_0_r in Hsig. contradiction.
      - exists m. split; [|lia]. rewrite Hr. simpl.
        rewrite <- Nat.add_succ_r. exact Hsig. }
    destruct (camera_read env (reads st)) as [frame| |k|] eqn:Eread.
    + destruct (process_frame_returns frame env st1 Htame Hs1)
        as (st2 & E2 & Hc2 & Hr2 & Hl2).
      unfold bind at 1. rewrite E2.
      destruct (quit_prompt env st2) as (Hq & Hc3 & Hr3 & Hl3).
      unfold bind at 1.
      destruct ((if DISPLAY_FRAMES config
                 then key <- waitKey;; ret (Z.land key 255 =? 113)
                 else ret false) env st2) as [[quit|[k| |code]|] st3];
        simpl in Hq, Hc3, Hr3, Hl3; try contradiction.
      * destruct quit.
        -- eexists _, _. split; [reflexivity|]. split; [exact I|].
           split; [simpl; congruence|]. split; [simpl; congruence | discriminate].
        -- destruct (frame_rate_prompt (frame_count + 1) start_time env st3)
             as (Hf & Hc4 & Hr4 & Hl4).
           unfold bind at 1.
           match type of Hf with
           | tame (fst ?c) => destruct c as [[[]|[k| |code]|] st4]
           end; simpl in Hf, Hc4, Hr4, Hl4; try contradiction.
           ++ destruct (IH (frame_count + 1) start_time env st4 Htame)
                as (r & st' & E & Hset & Hcam & Hrel & Hlive).
              { eapply sound_state_camera; [|exact Hsound]. congruence. }
              exists r, st'. split; [exact E|]. split; [exact Hset|].
              split; [congruence|]. split; [congruence|].
              intros n Hsig Hlt.
              destruct (Hnext n st4) as (m & Hm & Hmlt); auto; [congruence|].
              exact (Hlive m Hm Hmlt).
           ++ eexists _, _. split; [reflexivity|]. split; [exact I|].
              split; [congruence|]. split; [congruence | discriminate].
      * eexists _, _. split; [reflexivity|]. split; [exact I|].
        split; [congruence|]. split; [congruence | discriminate].
    + unfold bind at 1. unfold log at 1. unfold modify at 1.
      set (st2 := set_logs _ st1).
      destruct (IH frame_count start_time env st2 Htame Hs1)
        as (r & st' & E & Hset & Hcam & Hrel & Hlive).
      exists r, st'. split; [exact E|]. split; [exact Hset|].
      split; [exact Hcam|]. split; [exact Hrel|].
      intros n Hsig Hlt.
      destruct (Hnext n st2) as (m & Hm & Hmlt); auto.
      exact (Hlive m Hm Hmlt).
    + eexists _, _. split; [reflexivity|]. split; [exact I|].
      split; [reflexivity|]. split; [reflexivity | discriminate].
    + eexists _, _. split; [reflexivity|]. split; [reflexivity|].
      split; [reflexivity|]. split; [reflexivity | discriminate].
Qed.

Lemma recognizer_library dir env st self st' :
  FaceRecognition.__init__ dir env st = (Ok self, st') ->
  face_recognition self = face_recognition_library env.
Proof.
  unfold FaceRecognition.__init__, FaceRecognition._load_library,
    FaceRecognition._load_known_faces.
  unfold bind, ask, log, modify, ret. simpl.
  destruct (face_recognition_library env) as [lib|]; simpl.
  - destruct (known_face_files env) as [|file files].
    + intros H. injection H as <- _. reflexivity.
    + destruct (FaceRecognition.load_loop _ _ _ _) as [[known|e|] st1];
        intros H; try discriminate H.
      injection H as <- _. reflexivity.
  - intros H. injection H as <- _. reflexivity.
Qed.

Lemma load_face_recognizer_library env st recognizer st' :
  _load_face_recognizer config env st = (Ok (Some recognizer), st') ->
  face_recognition recognizer = face_recognition_library env.
Proof.
  unfold _load_face_recognizer. unfold bind at 1. unfold ask at 1.
  destruct (negb (ENABLE_FACE_RECOGNITION config)); [discriminate|].
  destruct (negb (FACE_RECOGNITION_AVAILABLE env)); [discriminate|].
  unfold try_except, try_catch. unfold bind at 1. unfold log at 1, modify at 1.
  unfold bind at 1.
  destruct (FaceRecognition.__init__ _ _ _) as [[self|e|] st1] eqn:E.
  - unfold_M. simpl. intros H. injection H as <- _.
    eapply recognizer_library. exact E.
  - destruct e; unfold_M; simpl; discriminate.
  - discriminate.
Qed.

(** The camera object that the constructor returns has the face library
    of the surroundings, if any; the constructor reads no frame. *)
Lemma init_sound env st built st' :
  tame_env env ->
  __init__ config env st = (Ok built, st') ->
  sound_recognizer built.
Proof.
  intros [_ Hlib]. unfold __init__.
  unfold bind at 1. unfold log at 1, modify at 1. unfold bind at 1.
  destruct (Utils.validate_config _ _ _) as [[valid|e|] st1]; try discriminate.
  destruct valid; [|discriminate].
  cbn [negb]. unfold bind at 1.
  destruct (_load_model _ _ _) as [[loaded|e|] st2]; try discriminate.
  unfold bind at 1.
  destruct (_load_face_recognizer _ _ _) as [[recognizer|e|] st3] eqn:E;
    try discriminate.
  unfold_M. simpl. intros H. injection H as <- _.
  intros r lib Hr Hl. simpl in Hr. subst recognizer.
  apply Hlib. rewrite <- Hl. symmetry.
  eapply load_face_recognizer_library. exact E.
Qed.

(** [_cleanup] returns and releases the capture object, if there is one;
    it does not forget it. *)
Lemma cleanup_releases self env st :
  camera st = Some self ->
  exists st',
    _cleanup env st = (Ok tt, st')
    /\ camera st'
       = Some {| running := false; model := model self;
                 face_recognizer := face_recognizer self; cap := cap self |}
    /\ released st' = match cap self with
                      | Some _ => S (released st)
                      | None => released st
                      end.
Proof.
  intros Hc. unfold _cleanup, this, set_running, this, cap_release.
  unfold_M. simpl. rewrite Hc. simpl. rewrite Hc. simpl.
  destruct (cap self); simpl; eexists; split; try reflexivity; repeat split.
Qed.

(** [run] returns, exits with status 0 or runs on: what the camera loop
    raises is caught and reported, and the cleanup returns. It runs on
    only if no signal arrives at one of the next [fuel] reads. When it
    ends, the capture object is in place, released if the camera had
    opened. *)
Lemma run_ends fuel self env st :
  tame_env env ->
  camera st = Some self ->
  sound_recognizer self ->
  exists r st',
    run config fuel env st = (r, st')
    /\ (r = Ok tt \/ r = Raise (SystemExit 0) \/ r = Diverge)
    /\ (forall n, camera_read env (reads st + n) = Signalled -> (n < fuel)%nat ->
                  r <> Diverge)
    /\ (r <> Diverge ->
        exists self',
          camera st' = Some self'
          /\ cap self' = Some (CAMERA_INDEX config)
          /\ released st' = if camera_opens env (CAMERA_INDEX config)
                            then S (released st) else released st).
Proof.
  intros Htame Hc Hsound. unfold run.
  unfold bind at 1. unfold set_running, this. unfold_M. simpl.
  rewrite Hc. simpl.
  set (st1 := set_logs _ _).
  destruct (send_startup_sync_effect config env st1) as (st2 & -> & Hm2).
  simpl.
  unfold set_cap, this. unfold_M. simpl.
  destruct Hm2 as (_ & Hr2 & _ & Hl2 & Hc2).
  rewrite Hc2. simpl.
  destruct (camera_opens env (CAMERA_INDEX config)); simpl.
  - set (st3 := set_ticks _ _).
    set (self3 := {| running := true; model := model self;
                     face_recognizer := face_recognizer self;
                     cap := Some (CAMERA_INDEX config) |}).
    assert (Hc3 : camera st3 = Some self3) by reflexivity.
    assert (Hr3 : reads st3 = reads st) by exact Hr2.
    assert (Hl3 : released st3 = released st) by exact Hl2.
    assert (Hs3 : sound_state st3).
    { intros s Hs. rewrite Hc3 in Hs. injection Hs as <-.
      intros r lib Hr Hl. exact (Hsound r lib Hr Hl). }
    destruct (camera_loop_outcome fuel 0 (clock env (ticks st2)) env st3 Htame Hs3)
      as (r & st4 & -> & Hr & Hcam & Hrel & Hlive).
    rewrite Hr3 in Hlive. rewrite Hl3 in Hrel.
    destruct r as [[]|[k| |code]|]; simpl in Hr; try contradiction;
      change (camera st4 = Some self3) in Hcam.
    + destruct (cleanup_releases self3 env st4) as (st5 & -> & Hc5 & Hl5);
        [exact Hcam|].
      eexists _, _. split; [reflexivity|]. split; [auto|].
      split; [discriminate|]. intros _. eexists. split; [exact Hc5|].
      split; [reflexivity|]. simpl in Hl5. congruence.
    + set (st5 := set_logs _ st4).
      destruct (send_error_sync_effect config "Camera loop error" env st5)
        as (st6 & -> & (_ & _ & _ & Hl6 & Hc6) & _).
      destruct (cleanup_releases self3 env st6) as (st7 & -> & Hc7 & Hl7);
        [rewrite Hc6; exact Hcam|].
      eexists _, _. split; [reflexivity|]. split; [auto|].
      split; [discriminate|]. intros _. eexists. split; [exact Hc7|].
      split; [reflexivity|]. simpl in Hl7, Hl6. congruence.
    + subst code.
      destruct (cleanup_releases self3 env st4) as (st5 & -> & Hc5 & Hl5);
        [exact Hcam|].
      eexists _, _. split; [reflexivity|]. split; [auto|].
      split; [discriminate|]. intros _. eexists. split; [exact Hc5|].
      split; [reflexivity|]. simpl in Hl5. congruence.
    + eexists _, _. split; [reflexivity|]. split; [auto|].
      split; [|congruence].
      intros n Hsig Hlt. exact (Hlive n Hsig Hlt).
  - set (st3 := set_logs _ _).
    destruct (send_error_sync_effect
                config
                ("Failed to open camera at index " ++ pretty (CAMERA_INDEX config))
                env st3) as (st4 & -> & (_ & _ & _ & Hl4 & Hc4) & _).
    eexists _, _. split; [reflexivity|]. split; [auto|].
    split; [discriminate|]. intros _. eexists. split; [exact Hc4|].
    split; [reflexivity|]. rewrite Hl4. exact Hl2.
Qed.

(** The [finally] clause of [main()] returns, after a cleanup when there
    is a camera object. *)
Lemma main_finally_returns env st :
  exists st',
    (st0 <- get;;
     match camera st0 with
     | Some _ => _cleanup
     | None => ret tt
     end;;
     log INFO "Shutdown complete") env st = (Ok tt, st')
    /\ match camera st with
       | Some self =>
           camera st' <> None
           /\ released st' = match cap self with
                             | Some _ => S (released st)
                             | None => released st
                             end
       | None => camera st' = None /\ released st' = released st
       end.
Proof.
  unfold bind at 1. unfold get at 1. unfold bind at 1.
  destruct (camera st) as [self|] eqn:Hc.
  - destruct (cleanup_releases self env st Hc) as (st1 & -> & Hc1 & Hl1).
    unfold_M. eexists. split; [reflexivity|]. simpl.
    split; [congruence | exact Hl1].
  - unfold_M. eexists. split; [reflexivity|]. simpl. auto.
Qed.

Lemma main_ends fuel env st :
  tame_env env ->
  exists r st',
    main config fuel env st = (r, st')
    /\ (r = Ok tt \/ r = Raise (SystemExit 0) \/ r = Diverge)
    /\ (forall n, camera_read env (reads st + n) = Signalled -> (n < fuel)%nat ->
                  r <> Diverge)
    /\ (r <> Diverge ->
        released st'
        = match camera st' with
          | Some _ => if camera_opens env (CAMERA_INDEX config)
                      then S (S (released st)) else S (released st)
          | None => released st
          end).
Proof.
  intros Htame. unfold main.
  unfold bind at 1. unfold modify at 1.
  set (st0 := set_camera None st).
  unfold try_finally, try_catch. unfold bind at 1.
  destruct (benign_init config env st0) as [Hl Hr].
  destruct (__init__ config env st0) as [[built|[k| |]|] st1] eqn:Einit;
    simpl in Hl, Hr; try contradiction.
  - unfold bind at 1. unfold modify at 1.
    destruct (run_ends fuel built env (set_camera (Some built) st1) Htame eq_refl)
      as (r & st2 & -> & Hres & Hlive & Hrel).
    { eapply init_sound; eassumption. }
    assert (Hreads : reads (set_camera (Some built) st1) = reads st).
    { destruct Hl as (_ & _ & _ & Hn & _). exact Hn. }
    assert (Hreleased : released (set_camera (Some built) st1) = released st).
    { destruct Hl as (_ & _ & _ & _ & _ & Hn & _). exact Hn. }
    rewrite Hreads in Hlive. rewrite Hreleased in Hrel.
    destruct (main_finally_returns env st2) as (st3 & E3 & Hfin).
    assert (Hdone : r <> Diverge ->
                    released st3
                    = match camera st3 with
                      | Some _ => if camera_opens env (CAMERA_INDEX config)
                                  then S (S (released st)) else S (released st)
                      | None => released st
                      end).
    { intros Hnd. destruct (Hrel Hnd) as (self' & Hc2 & Hcap & Hl2).
      rewrite Hc2, Hcap in Hfin. destruct Hfin as [Hc3 Hl3].
      destruct (camera st3); [|congruence].
      rewrite Hl3, Hl2. destruct (camera_opens env _); reflexivity. }
    destruct Hres as [-> | [-> | ->]].
    + rewrite E3. eexists _, _. split; [reflexivity|]. split; [auto|].
      split; [discriminate | exact Hdone].
    + rewrite E3. eexists _, _. split; [reflexivity|]. split; [auto|].
      split; [discriminate | exact Hdone].
    + eexists _, _. split; [reflexivity|]. split; [auto|].
      split; [exact Hlive | congruence].
  - unfold bind at 1. unfold log at 1. unfold modify at 1.
    set (st2 := set_logs _ st1).
    unfold try_except_all, try_catch.
    destruct (send_error_sync_effect config "Fatal error" env st2)
      as (st3 & -> & (_ & _ & _ & Hl3 & Hc3) & _).
    destruct (main_finally_returns env st3) as (st4 & -> & Hfin).
    assert (Hnone : camera st3 = None).
    { rewrite Hc3. simpl. destruct Hl as (_ & _ & _ & _ & _ & _ & Hc1).
      rewrite Hc1. reflexivity. }
    rewrite Hnone in Hfin. destruct Hfin as [Hc4 Hl4].
    eexists _, _. split; [reflexivity|]. split; [auto|].
    split; [discriminate|]. intros _. rewrite Hc4, Hl4, Hl3. simpl.
    destruct Hl as (_ & _ & _ & _ & _ & Hn & _). exact Hn.
Qed.

(** X17. Whatever the camera, the disk, the Bot API, the detector and the
    face library do, as long as the last two return or raise an
    [Exception]: when [main()] ends, the process exits with status 0.
    [main()] returns or ends by [sys.exit(0)] from the signal handler; no
    failure of a frame, of the loop or of the constructor gives another
    status. *)
Theorem main_never_exits_with_a_failure_status fuel env st :
  tame_env env ->
  exit_status (fst (main config fuel env st)) = Some 0
  \/ fst (main config fuel env st) = Diverge.
Proof.
  intros Htame.
  destruct (main_ends fuel env st Htame) as (r & st' & -> & [-> | [-> | ->]] & _);
    simpl; auto.
Qed.

(** X18. A signal stops the program: when SIGINT or SIGTERM arrives at the
    [n]-th next read of the camera, [main()] has ended by then, whatever
    happened to the frames before, and the exit status is 0. *)
Theorem signal_ends_main_with_status_zero fuel n env st :
  tame_env env ->
  camera_read env (reads st + n) = Signalled ->
  (n < fuel)%nat ->
  exit_status (fst (main config fuel env st)) = Some 0.
Proof.
  intros Htame Hsig Hlt.
  destruct (main_ends fuel env st Htame)
    as (r & st' & -> & [-> | [-> | ->]] & Hlive & _); simpl; auto.
  exfalso. exact (Hlive n Hsig Hlt eq_refl).
Qed.

(** X21. When [main()] ends, the capture object has been released: once
    when the camera had not opened (by the cleanup in the [finally] clause
    of [main()]), twice when it had (by the cleanup at the end of [run] and
    again by that of [main()], since [_cleanup] does not forget the capture
    object it released). When the constructor failed there is no camera
    object and nothing is released. *)
Theorem capture_is_released_when_main_ends fuel env st :
  tame_env env ->
  fst (main config fuel env st) <> Diverge ->
  released (snd (main config fuel env st))
  = match camera (snd (main config fuel env st)) with
    | Some _ => if camera_opens env (CAMERA_INDEX config)
                then S (S (released st)) else S (released st)
    | None => released st
    end.
Proof.
  intros Htame.
  destruct (main_ends fuel env st Htame) as (r & st' & -> & _ & _ & Hrel).
  exact Hrel.
Qed.

End Ending.

Lemma main_never_exits_with_a_failure_status_witness :
  Main.exit_status (fst (Main.main Sample.config 5 Sample.door (initial_state ∅)))
  = Some 0
  \/ fst (Main.main Sample.config 5 Sample.door (initial_state ∅)) = Diverge.
Proof.
  apply (main_never_exits_with_a_failure_status
           Sample.config 5 Sample.door (initial_state ∅)).
  split.
  - intros frame threshold. exact I.
  - intros lib Hlib. discriminate Hlib.
Defined.

Lemma signal_ends_main_with_status_zero_witness :
  Main.exit_status (fst (Main.main Sample.config 5 Sample.door (initial_state ∅)))
  = Some 0.
Proof.
  apply (signal_ends_main_with_status_zero
           Sample.config 5 1 Sample.door (initial_state ∅)).
  - split.
    + intros frame threshold. exact I.
    + intros lib Hlib. discriminate Hlib.
  - reflexivity.
  - lia.
Defined.

Lemma capture_is_released_when_main_ends_witness :
  released (snd (Main.main Sample.config 5 Sample.door (initial_state ∅))) = 2%nat.
Proof.
  rewrite (capture_is_released_when_main_ends
             Sample.config 5 Sample.door (initial_state ∅)).
  - vm_compute. reflexivity.
  - split.
    + intros frame threshold. exact I.
    + intros lib Hlib. discriminate Hlib.
  - vm_compute. discriminate.
Defined.

(** ** main.py: the constructor *)

Section Constructor.

Import Main.

Variable config : Config.t.

(** What [validate_config] returns does not depend on the state. *)
Lemma validate_config_value env :
  exists valid, forall st, fst (Utils.validate_config config env st) = Ok valid.
Proof.
  unfold Utils.validate_config, Utils.ensure_directory, str_eqb.
  unfold_M. simpl.
  destruct (truthy (TELEGRAM_BOT_TOKEN config));
    destruct (truthy (TELEGRAM_USER_ID config));
    repeat case_bool_decide;
    destruct (dir_exists env (DETECTIONS_DIR config));
    destruct (can_mkdir env (DETECTIONS_DIR config));
    destruct (dir_exists env (KNOWN_FACES_DIR config));
    destruct (can_mkdir env (KNOWN_FACES_DIR config));
    simpl; eexists; intros st; reflexivity.
Qed.

Lemma validate_config_returns env st :
  exists valid st',
    Utils.validate_config config env st = (Ok valid, st').
Proof.
  destruct (validate_config_value env) as (valid & Hv).
  specialize (Hv st).
  destruct (Utils.validate_config config env st) as [r st'].
  simpl in Hv. subst r. eauto.
Qed.

Lemma load_model_outcome env st :
  exists st',
    _load_model config env st
    = (if yolo_loads env then Ok (DETECTION_MODEL config)
       else Raise (Exception (RuntimeError "Failed to load model")), st').
Proof.
  unfold _load_model. unfold_M. simpl.
  destruct (yolo_loads env); simpl; eauto.
Qed.

(** Loading the face recognizer never fails: what goes wrong leaves the
    camera without a recognizer. *)
Lemma load_face_recognizer_returns env st :
  exists recognizer st',
    _load_face_recognizer config env st = (Ok recognizer, st').
Proof.
  unfold _load_face_recognizer. unfold bind at 1. unfold ask at 1.
  destruct (negb (ENABLE_FACE_RECOGNITION config)); [unfold_M; simpl; eauto|].
  destruct (negb (FACE_RECOGNITION_AVAILABLE env)); [unfold_M; simpl; eauto|].
  unfold try_except, try_catch.
  unfold bind at 1. unfold log at 1, modify at 1.
  set (st0 := set_logs _ st).
  unfold bind at 1.
  destruct (benign_face_recognizer (KNOWN_FACES_DIR config) env st0) as [_ Hr].
  destruct (FaceRecognition.__init__ (KNOWN_FACES_DIR config) env st0)
    as [[recognizer|[k| |code]|] st1]; simpl in Hr; try contradiction;
    unfold_M; simpl; eauto.
Qed.

Lemma init_outcome env st :
  exists r st',
    __init__ config env st = (r, st')
    /\ match r with
       | Ok built =>
           fst (Utils.validate_config config env st) = Ok true
           /\ yolo_loads env = true
           /\ model built = Some (DETECTION_MODEL config)
           /\ running built = false /\ cap built = None
       | Raise (Exception (RuntimeError _)) =>
           fst (Utils.validate_config config env st) = Ok false
           \/ yolo_loads env = false
       | _ => False
       end.
Proof.
  destruct (validate_config_value env) as (valid & Hv).
  rewrite (Hv st).
  unfold __init__. unfold bind at 1. unfold log at 1, modify at 1.
  set (st0 := set_logs _ st).
  specialize (Hv st0).
  unfold bind at 1.
  destruct (Utils.validate_config config env st0) as [r st1].
  simpl in Hv. subst r.
  destruct valid; cbn [negb].
  2:{ unfold raise. eexists _, _. split; [reflexivity|]. simpl. auto. }
  unfold bind at 1.
  destruct (load_model_outcome env st1) as (st2 & ->).
  destruct (yolo_loads env).
  2:{ eexists _, _. split; [reflexivity|]. simpl. auto. }
  unfold bind at 1.
  destruct (load_face_recognizer_returns env st2) as (recognizer & st3 & ->).
  unfold_M. eexists _, _. split; [reflexivity|]. simpl. auto.
Qed.

(** X22. The constructor of [SmartDoorCamera] depends on the configuration
    and the detector only: it returns, with the model loaded, not running
    and without a capture object, exactly when [validate_config] accepts
    and the YOLO model loads, and raises [RuntimeError] otherwise. Nothing
    that goes wrong with the face recognizer keeps the camera from
    starting. *)
Theorem constructor_needs_configuration_and_model_only env st :
  (fst (Utils.validate_config config env st) = Ok true /\ yolo_loads env = true
   <-> exists built, fst (__init__ config env st) = Ok built)
  /\ (forall built,
        fst (__init__ config env st) = Ok built ->
        model built = Some (DETECTION_MODEL config)
        /\ running built = false /\ cap built = None)
  /\ ((exists built, fst (__init__ config env st) = Ok built)
      \/ (exists msg,
            fst (__init__ config env st) = Raise (Exception (RuntimeError msg)))).
Proof.
  destruct (init_outcome env st) as (r & st' & -> & Hr). simpl.
  destruct r as [built|[[]| |]|]; try contradiction.
  - destruct Hr as (Hv & Hy & Hm & Hrun & Hcap). split; [|split].
    + split; eauto.
    + intros b H. injection H as <-. auto.
    + left. eauto.
  - split; [|split].
    + split; [|intros (b & H); discriminate].
      intros [Hv Hy]. destruct Hr as [Hr | Hr]; congruence.
    + intros b H. discriminate.
    + right. eauto.
Qed.

End Constructor.

(** ** main.py and utils.py: the images saved and the images swept *)

Section SavedImages.

Import Main.

Variable config : Config.t.

#[local] Arguments String.append !_ _ / : simpl nomatch.

Lemma string_length_app (a b : string) :
  String.length (a ++ b) = (String.length a + String.length b)%nat.
Proof. induction a as [|c a IH]; simpl; congruence. Qed.

Lemma string_app_assoc (a b c : string) : (a ++ b) ++ c = a ++ (b ++ c).
Proof. induction a as [|x a IH]; simpl; congruence. Qed.

Lemma substring_all (s : string) : String.substring 0 (String.length s) s = s.
Proof. induction s as [|c s IH]; simpl; congruence. Qed.

Lemma substring_skip (a b : string) n :
  String.substring (String.length a) n (a ++ b) = String.substring 0 n b.
Proof. induction a as [|c a IH]; simpl; auto. Qed.

Lemma prefix_app (a b : string) : String.prefix a (a ++ b) = true.
Proof.
  apply prefix_correct.
  induction a as [|c a IH]; simpl; [destruct b; reflexivity|].
  rewrite IH. reflexivity.
Qed.

Lemma contains_slash_app (a b : string) :
  contains_slash (a ++ b) = contains_slash a || contains_slash b.
Proof.
  induction a as [|c a IH]; simpl; [reflexivity|].
  rewrite IH, orb_assoc. reflexivity.
Qed.

Lemma contains_slash_substring (s : string) : forall n,
  contains_slash s = false -> contains_slash (String.substring 0 n s) = false.
Proof.
  induction s as [|c s IH]; intros [|n]; simpl; auto.
  intros H. apply orb_false_iff in H as [Hc Hs].
  rewrite Hc. simpl. apply IH. exact Hs.
Qed.

Lemma ends_with_app (a suffix : string) : ends_with suffix (a ++ suffix) = true.
Proof.
  unfold ends_with. rewrite string_length_app, Nat.add_sub.
  rewrite substring_skip, substring_all.
  unfold str_eqb. rewrite bool_decide_eq_true_2 by reflexivity.
  apply Nat.leb_le. lia.
Qed.

(** A file name built by [_save_detection_image] from a name and a time
    stamp without slashes matches the pattern of the sweep. *)
Lemma saved_name_matches dir (name stamp : string) :
  contains_slash name = false ->
  contains_slash stamp = false ->
  glob_match dir Utils.detection_jpg
             (path_join dir ("detection_" ++ name ++ "_" ++ stamp ++ ".jpg"))
  = true.
Proof.
  intros Hname Hstamp.
  set (file := "detection_" ++ name ++ "_" ++ stamp ++ ".jpg").
  assert (Hfile : file = ("detection_" ++ name ++ "_" ++ stamp) ++ ".jpg").
  { unfold file. rewrite !string_app_assoc. reflexivity. }
  assert (Hslash : contains_slash file = false).
  { unfold file. rewrite !contains_slash_app, Hname, Hstamp. reflexivity. }
  assert (Hlen : (14 <= String.length file)%nat).
  { unfold file. rewrite !string_length_app. simpl. lia. }
  assert (Htruthy : truthy file = true) by reflexivity.
  assert (Hpattern : Utils.detection_jpg file = true).
  { unfold Utils.detection_jpg.
    rewrite (proj2 (Nat.leb_le _ _) Hlen), andb_true_r.
    apply andb_true_iff. split.
    - unfold file. apply prefix_app.
    - rewrite Hfile. apply ends_with_app. }
  unfold glob_match, child_name, path_join. cbv zeta.
  replace (dir ++ "/" ++ file) with ((dir ++ "/") ++ file)
    by apply string_app_assoc.
  generalize (dir ++ "/"). intros d.
  rewrite prefix_app, (string_length_app d file).
  replace (String.length d + String.length file - String.length d)%nat
    with (String.length file) by lia.
  rewrite substring_skip, substring_all, Htruthy, Hslash. exact Hpattern.
Qed.

(** X23. What the pipeline saves, the sweep finds: an image that
    [_save_detection_image] wrote (for a name and a time stamp without
    slashes) is on disk under the path returned, and
    [cleanup_old_images] counts it among the stale images exactly from
    the moment its modification time lies before the cutoff. *)
Theorem saved_image_is_in_scope_of_the_cleanup
    frame confidence person_name env st :
  contains_slash person_name = false ->
  contains_slash (strftime env (clock env (ticks st)) "%Y%m%d_%H%M%S_%f")
  = false ->
  imwrite env (image_path_of config env st person_name) = Wrote ->
  exists answer file,
    fst (_save_detection_image config frame confidence person_name env st)
    = Ok answer
    /\ fs (snd (_save_detection_image config frame confidence person_name env st))
       !! answer = Some file
    /\ forall cutoff_timestamp,
         Utils.stale_image config cutoff_timestamp answer file
         = (st_mtime file <? cutoff_timestamp).
Proof.
  intros Hname Hstamp Hwrote.
  destruct (save_detection_image_effect config frame confidence person_name env st)
    as (answer & st' & -> & _ & _ & _ & _ & _ & _ & Hsaved).
  rewrite Hwrote in Hsaved. destruct Hsaved as (-> & file & Hfs).
  exists (image_path_of config env st person_name), file.
  split; [reflexivity|]. simpl. split.
  - rewrite Hfs. apply lookup_insert_eq.
  - intros cutoff. unfold Utils.stale_image, image_path_of.
    rewrite saved_name_matches; [reflexivity | exact Hname |].
    unfold drop_last. apply contains_slash_substring. exact Hstamp.
Qed.

End SavedImages.

Lemma saved_image_is_in_scope_of_the_cleanup_witness :
  exists answer file,
    fst (Main._save_detection_image Sample.config Sample.frame (87 # 100)
                                    "Unknown" Sample.door (initial_state ∅))
    = Ok answer
    /\ fs (snd (Main._save_detection_image Sample.config Sample.frame (87 # 100)
                                           "Unknown" Sample.door (initial_state ∅)))
       !! answer = Some file
    /\ forall cutoff_timestamp,
         Utils.stale_image Sample.config cutoff_timestamp answer file
         = (st_mtime file <? cutoff_timestamp).
Proof.
  apply (saved_image_is_in_scope_of_the_cleanup
           Sample.config Sample.frame (87 # 100) "Unknown" Sample.door
           (initial_state ∅)).
  - reflexivity.
  - vm_compute. reflexivity.
  - reflexivity.
Defined.
